(** * Kitchen Sync: schema model, schema matching and the PostgreSQL adapter

    A shallow embedding of

    - [schema.h]: [Column], [Key], [Table], [Database] with their comparison
      operators;
    - [schema_functions.cpp]: [check_schema_match] and the functions under it;
    - [ks_postgresql.cpp]: [convert_unsupported_database_schema] and
      [column_default];
    - [protocol_versions.h] and [sync_to.h]: the version constants and the
      commands [sync_to] writes.

    A [std::string] is a [string] (a sequence of bytes, compared byte by byte
    as [std::string::compare] does), a [size_t] or [uint32_t] an [N], a
    [std::vector] a [list], a [std::set<string>] a [gset string].  An iterator
    into a vector is the suffix of the vector that starts at its position, so
    [end()] is the empty suffix.  A function that returns [void] or throws
    returns a [result unit]. *)

From Stdlib Require Import String Ascii List Bool Arith NArith ZArith Lia.
From Stdlib Require Import Permutation Sorted OrdersEx.
From Stdlib Require Import DecimalString.
From stdpp Require Import gmap strings.
From Equations Require Import Equations.
Import ListNotations.

Local Open Scope string_scope.
Local Open Scope list_scope.

(** ** Exceptions

    [schema_mismatch] derives from [runtime_error]; both carry the message
    returned by [what()]. *)

Inductive exception : Type :=
| runtime_error (what : string)
| schema_mismatch (what : string).

Inductive result (A : Type) : Type :=
| Ok (a : A)
| Raise (e : exception).

Arguments Ok {A} a.
Arguments Raise {A} e.

Definition bind {A B : Type} (c : result A) (k : A -> result B) : result B :=
  match c with
  | Ok a => k a
  | Raise e => Raise e
  end.

Notation "c1 ;;; c2" := (bind c1 (fun _ => c2))
  (at level 62, right associativity).

(** ** Strings

    [operator<] and [operator>] of [std::string] compare the bytes as
    unsigned values, a proper prefix being the smaller; that is
    [String.compare]. *)

Definition string_lt (a b : string) : bool := String.ltb a b.
Definition string_gt (a b : string) : bool := String.ltb b a.

(** [s.substr(0, n)]: the first [n] bytes of [s], or all of [s] when it is
    shorter. *)
Definition substr0 (s : string) (n : nat) : string := String.substring 0 n s.

(** ** schema.h *)

Definition ColumnIndices := list N.

Module ColumnTypes.
Definition BLOB := "BLOB".
Definition TEXT := "TEXT".
Definition VCHR := "VARCHAR".
Definition FCHR := "CHAR".
Definition JSON := "JSON".
Definition UUID := "UUID".
Definition BOOL := "BOOL".
Definition SINT := "INT".
Definition UINT := "INT UNSIGNED".
Definition REAL := "REAL".
Definition DECI := "DECIMAL".
Definition DATE := "DATE".
Definition TIME := "TIME".
Definition DTTM := "DATETIME".
Definition SPAT := "SPATIAL".
Definition ENUM := "ENUM".
Definition UNKN := "UNKNOWN".
End ColumnTypes.

Module DefaultType.
Inductive t : Type :=
| no_default
| sequence
| default_value
| default_expression.

Definition eqb (a b : t) : bool :=
  match a, b with
  | no_default, no_default
  | sequence, sequence
  | default_value, default_value
  | default_expression, default_expression => true
  | _, _ => false
  end.

(** The enumerators' values. *)
Definition underlying (a : t) : N :=
  match a with
  | no_default => 0
  | sequence => 1
  | default_value => 2
  | default_expression => 3
  end.
End DefaultType.

Module ColumnFlags.
Definition flag_t := N.
Definition nothing : flag_t := 0%N.
Definition mysql_timestamp : flag_t := 1%N.
Definition mysql_on_update_timestamp : flag_t := 2%N.
Definition time_zone : flag_t := 4%N.
Definition simple_geometry : flag_t := 8%N.
Definition identity_generated_always : flag_t := 16%N.
End ColumnFlags.

Fixpoint list_eqb {A : Type} (eqb : A -> A -> bool) (l1 l2 : list A) : bool :=
  match l1, l2 with
  | [], [] => true
  | x :: r1, y :: r2 => eqb x y && list_eqb eqb r1 r2
  | _, _ => false
  end.

Module Column.
Record t : Type := mk {
  name : string;
  nullable : bool;
  column_type : string;
  size : N;
  scale : N;
  default_type : DefaultType.t;
  default_value : string;
  flags : ColumnFlags.flag_t;
  type_restriction : string;
  reference_system : string;
  enumeration_values : list string;
  (* serialized but not compared *)
  db_type_def : string;
  (* not serialized *)
  filter_expression : string
}.

(** The constructor with arguments, its defaulted arguments written
    out; [enumeration_values] and [filter_expression] start empty. *)
Definition Column (name : string) (nullable : bool) (default_type : DefaultType.t)
    (default_value column_type : string) (size scale : N) (flags : ColumnFlags.flag_t)
    (type_restriction reference_system db_type_def : string) : t :=
  mk name nullable column_type size scale default_type default_value flags
     type_restriction reference_system [] db_type_def "".

(** [Column::operator==]. *)
Definition eqb (a b : t) : bool :=
  String.eqb (name a) (name b) &&
  Bool.eqb (nullable a) (nullable b) &&
  String.eqb (column_type a) (column_type b) &&
  N.eqb (size a) (size b) &&
  N.eqb (scale a) (scale b) &&
  DefaultType.eqb (default_type a) (default_type b) &&
  String.eqb (default_value a) (default_value b) &&
  N.eqb (flags a) (flags b) &&
  String.eqb (type_restriction a) (type_restriction b) &&
  String.eqb (reference_system a) (reference_system b) &&
  list_eqb String.eqb (enumeration_values a) (enumeration_values b).

(** The assignments [column.column_type = v] and [column.size = v]. *)
Definition set_column_type (v : string) (c : t) : t :=
  mk (name c) (nullable c) v (size c) (scale c) (default_type c)
     (default_value c) (flags c) (type_restriction c) (reference_system c)
     (enumeration_values c) (db_type_def c) (filter_expression c).

Definition set_size (v : N) (c : t) : t :=
  mk (name c) (nullable c) (column_type c) v (scale c) (default_type c)
     (default_value c) (flags c) (type_restriction c) (reference_system c)
     (enumeration_values c) (db_type_def c) (filter_expression c).

Definition set_db_type_def (v : string) (c : t) : t :=
  mk (name c) (nullable c) (column_type c) (size c) (scale c) (default_type c)
     (default_value c) (flags c) (type_restriction c) (reference_system c)
     (enumeration_values c) v (filter_expression c).
End Column.

Module KeyType.
Inductive t : Type :=
| unique_key
| standard_key
| spatial_key.

Definition underlying (a : t) : N :=
  match a with
  | unique_key => 0
  | standard_key => 1
  | spatial_key => 2
  end.

Definition eqb (a b : t) : bool := N.eqb (underlying a) (underlying b).
Definition ltb (a b : t) : bool := N.ltb (underlying a) (underlying b).
End KeyType.

Module Key.
Record t : Type := mk {
  name : string;
  key_type : KeyType.t;
  columns : ColumnIndices
}.

Definition unique (k : t) : bool := KeyType.eqb (key_type k) KeyType.unique_key.
Definition spatial (k : t) : bool := KeyType.eqb (key_type k) KeyType.spatial_key.

(** [Key::operator<]. *)
Definition ltb (a b : t) : bool :=
  if negb (KeyType.eqb (key_type a) (key_type b))
  then KeyType.ltb (key_type a) (key_type b)
  else string_lt (name a) (name b).

(** [Key::operator==]. *)
Definition eqb (a b : t) : bool :=
  String.eqb (name a) (name b) &&
  KeyType.eqb (key_type a) (key_type b) &&
  list_eqb N.eqb (columns a) (columns b).

Definition set_name (v : string) (k : t) : t := mk v (key_type k) (columns k).
End Key.

Module PrimaryKeyType.
Inductive t : Type :=
| no_available_key
| explicit_primary_key
| suitable_unique_key.

Definition eqb (a b : t) : bool :=
  match a, b with
  | no_available_key, no_available_key
  | explicit_primary_key, explicit_primary_key
  | suitable_unique_key, suitable_unique_key => true
  | _, _ => false
  end.
End PrimaryKeyType.

(** [std::equal(first1, first1 + n, first2)]: the first [n] elements of
    the two ranges are pairwise equal.  Reading past the end of a range is
    undefined in C++; [Table::same_primary_key_as] never does so (see
    [same_primary_key_as_in_range]), and the model answers [false] there. *)
Fixpoint std_equal {A : Type} (eqb : A -> A -> bool) (n : nat) (first1 first2 : list A) : bool :=
  match n with
  | O => true
  | S n' =>
      match first1, first2 with
      | x :: r1, y :: r2 => eqb x y && std_equal eqb n' r1 r2
      | _, _ => false
      end
  end.

Module Table.
Record t : Type := mk {
  name : string;
  columns : list Column.t;
  primary_key_columns : ColumnIndices;
  primary_key_type : PrimaryKeyType.t;
  keys : list Key.t;
  (* not serialized *)
  where_conditions : string
}.

(** The constructor [Table(const string &name)]. *)
Definition Table (name : string) : t :=
  mk name [] [] PrimaryKeyType.no_available_key [] "".

(** [Table::operator<]. *)
Definition ltb (a b : t) : bool := string_lt (name a) (name b).

(** [this_explicit_columns] and [that_explicit_columns] of
    [same_primary_key_as]. *)
Definition explicit_columns (a : t) : nat :=
  if PrimaryKeyType.eqb (primary_key_type a) PrimaryKeyType.explicit_primary_key
  then length (primary_key_columns a)
  else 0.

Definition same_primary_key_as (a other : t) : bool :=
  let this_explicit_columns := explicit_columns a in
  let that_explicit_columns := explicit_columns other in
  Nat.eqb this_explicit_columns that_explicit_columns &&
  std_equal N.eqb this_explicit_columns (primary_key_columns a) (primary_key_columns other).

(** [Table::operator==]. *)
Definition eqb (a other : t) : bool :=
  String.eqb (name a) (name other) &&
  list_eqb Column.eqb (columns a) (columns other) &&
  same_primary_key_as a other &&
  list_eqb Key.eqb (keys a) (keys other).

Definition set_columns (v : list Column.t) (a : t) : t :=
  mk (name a) v (primary_key_columns a) (primary_key_type a) (keys a) (where_conditions a).

Definition set_keys (v : list Key.t) (a : t) : t :=
  mk (name a) (columns a) (primary_key_columns a) (primary_key_type a) v (where_conditions a).
End Table.

Module Database.
Record t : Type := mk {
  tables : list Table.t
}.
End Database.

(** ** schema_functions.cpp *)

(** The templates [name_equal] and [name_is] work on every type with a
    [name] member. *)
Class Named (T : Type) : Type := name_of : T -> string.

#[global]
Instance Column_Named : Named Column.t := Column.name.
#[global]
Instance Key_Named : Named Key.t := Key.name.
#[global]
Instance Table_Named : Named Table.t := Table.name.

Definition name_equal {T : Type} `{Named T} (a b : T) : bool :=
  String.eqb (name_of a) (name_of b).

Definition name_is {T : Type} `{Named T} (name : string) (obj : T) : bool :=
  String.eqb (name_of obj) name.

(** [std::find_if(first, last, pred)] with [last] the end of the vector:
    the position of the first element that satisfies [pred], or the end. *)
Fixpoint find_if {T : Type} (pred : T -> bool) (first : list T) : list T :=
  match first with
  | [] => []
  | obj :: next => if pred obj then first else find_if pred next
  end.

(** [it == v.end()]. *)
Definition is_end {T : Type} (it : list T) : bool :=
  match it with
  | [] => true
  | _ :: _ => false
  end.

Definition report_schema_mismatch (error : string) : result unit :=
  Raise (schema_mismatch error).

Definition check_column_match (table : Table.t) (from_column to_column : Column.t) : result unit :=
  (* FUTURE: check column type, collation etc. *)
  Ok tt.

(** The loop of [check_columns_match] and the test after it; [from_column]
    and [to_column] are the two iterators.  When [to_column] is the end, the
    first test fails and [find_if] over the empty range is the end, so the
    second branch is taken. *)
Fixpoint check_columns_loop (table : Table.t) (from_column to_column : list Column.t)
    {struct from_column} : result unit :=
  match from_column with
  | [] =>
      match to_column with
      | [] => Ok tt
      | to_col :: _ =>
          report_schema_mismatch
            ("Extra column " +:+ Column.name to_col +:+ " on table " +:+ Table.name table)
      end
  | from_col :: from_next =>
      match to_column with
      | [] =>
          report_schema_mismatch
            ("Missing column " +:+ Column.name from_col +:+ " on table " +:+ Table.name table)
      | to_col :: to_next =>
          if String.eqb (Column.name to_col) (Column.name from_col) then
            check_column_match table from_col to_col ;;;
            check_columns_loop table from_next to_next
          else if is_end (find_if (name_is (Column.name from_col)) to_column) then
            report_schema_mismatch
              ("Missing column " +:+ Column.name from_col +:+ " on table " +:+ Table.name table)
          else if is_end (find_if (name_is (Column.name to_col)) from_column) then
            report_schema_mismatch
              ("Extra column " +:+ Column.name to_col +:+ " on table " +:+ Table.name table)
          else
            report_schema_mismatch
              ("Misordered column " +:+ Column.name from_col +:+ " on table " +:+ Table.name table
               +:+ ", should have " +:+ Column.name to_col +:+ " first")
      end
  end.

Definition check_columns_match (table : Table.t) (from_columns to_columns : list Column.t) : result unit :=
  check_columns_loop table from_columns to_columns.

(** [ignore_tables.count(name) || (!only_tables.empty() && !only_tables.count(name))]. *)
Definition ignored (ignore_tables only_tables : gset string) (name : string) : bool :=
  bool_decide (name ∈ ignore_tables) ||
  (negb (bool_decide (only_tables = ∅)) && negb (bool_decide (name ∈ only_tables))).

Fixpoint skip_ignored_tables (table : list Table.t) (ignore_tables only_tables : gset string)
    : list Table.t :=
  match table with
  | [] => []
  | tab :: next =>
      if ignored ignore_tables only_tables (Table.name tab)
      then skip_ignored_tables next ignore_tables only_tables
      else table
  end.

Section SchemaFunctions.

(** [std::sort(first, last)] of the C++ library, which orders a range by
    the element type's [operator<]; the second argument is that operator. *)
Variable std_sort : forall T : Type, (T -> T -> bool) -> list T -> list T.

(** [columns_list] of sql_functions.h, a file that is not among the
    sources: the text that names the columns at the given indices. *)
Variable columns_list : list Column.t -> ColumnIndices -> string.

Definition check_primary_key_matches (table : Table.t)
    (from_primary_key_columns to_primary_key_columns : ColumnIndices) : result unit :=
  if negb (list_eqb N.eqb from_primary_key_columns to_primary_key_columns) then
    report_schema_mismatch
      ("Mismatching primary key " +:+ columns_list (Table.columns table) to_primary_key_columns
       +:+ " on table " +:+ Table.name table +:+ ", should have "
       +:+ columns_list (Table.columns table) from_primary_key_columns)
  else Ok tt.

(** [from_key.unique] and [to_key.unique] are read through [Key::unique()],
    which tells whether [key_type] is [unique_key]. *)
Definition check_key_match (table : Table.t) (from_key to_key : Key.t) : result unit :=
  (if negb (Bool.eqb (Key.unique from_key) (Key.unique to_key)) then
     report_schema_mismatch
       ("Mismatching unique flag on table " +:+ Table.name table +:+ " key " +:+ Key.name from_key)
   else Ok tt) ;;;
  (if negb (list_eqb N.eqb (Key.columns from_key) (Key.columns to_key)) then
     report_schema_mismatch
       ("Mismatching columns " +:+ columns_list (Table.columns table) (Key.columns to_key)
        +:+ " on table " +:+ Table.name table +:+ " key " +:+ Key.name from_key
        +:+ ", should have " +:+ columns_list (Table.columns table) (Key.columns from_key))
   else Ok tt).

(** The loop of [check_keys_match] and the test after it. *)
Fixpoint check_keys_loop (table : Table.t) (from_key to_key : list Key.t)
    {struct from_key} : result unit :=
  match from_key with
  | [] =>
      match to_key with
      | [] => Ok tt
      | to_k :: _ =>
          report_schema_mismatch
            ("Extra key " +:+ Key.name to_k +:+ " on table " +:+ Table.name table)
      end
  | from_k :: from_next =>
      match to_key with
      | [] =>
          report_schema_mismatch
            ("Missing key " +:+ Key.name from_k +:+ " on table " +:+ Table.name table)
      | to_k :: to_next =>
          if string_gt (Key.name to_k) (Key.name from_k) then
            report_schema_mismatch
              ("Missing key " +:+ Key.name from_k +:+ " on table " +:+ Table.name table)
          else if string_lt (Key.name to_k) (Key.name from_k) then
            report_schema_mismatch
              ("Extra key " +:+ Key.name to_k +:+ " on table " +:+ Table.name table)
          else
            check_key_match table from_k to_k ;;;
            check_keys_loop table from_next to_next
      end
  end.

Definition check_keys_match (table : Table.t) (from_keys to_keys : list Key.t) : result unit :=
  let from_keys := std_sort Key.t Key.ltb from_keys in
  let to_keys := std_sort Key.t Key.ltb to_keys in
  check_keys_loop table from_keys to_keys.

Definition check_table_match (from_table to_table : Table.t) : result unit :=
  check_columns_match from_table (Table.columns from_table) (Table.columns to_table) ;;;
  check_primary_key_matches from_table
    (Table.primary_key_columns from_table) (Table.primary_key_columns to_table) ;;;
  check_keys_match from_table (Table.keys from_table) (Table.keys to_table).

(** The loop of [check_tables_match] and the test after it.  Both
    iterators stand on a table that is not ignored, or at the end: each is
    advanced through [skip_ignored_tables]. *)
Equations? check_tables_loop (ignore_tables only_tables : gset string)
    (from_table to_table : list Table.t) : result unit by wf (length from_table) lt :=
  check_tables_loop ignore_tables only_tables [] [] := Ok tt;
  check_tables_loop ignore_tables only_tables [] (to_tab :: _) :=
    report_schema_mismatch ("Extra table " +:+ Table.name to_tab);
  check_tables_loop ignore_tables only_tables (from_tab :: _) [] :=
    report_schema_mismatch ("Missing table " +:+ Table.name from_tab);
  check_tables_loop ignore_tables only_tables (from_tab :: from_next) (to_tab :: to_next) :=
    if string_gt (Table.name to_tab) (Table.name from_tab) then
      report_schema_mismatch ("Missing table " +:+ Table.name from_tab)
    else if string_lt (Table.name to_tab) (Table.name from_tab) then
      report_schema_mismatch ("Extra table " +:+ Table.name to_tab)
    else
      check_table_match from_tab to_tab ;;;
      check_tables_loop ignore_tables only_tables
        (skip_ignored_tables from_next ignore_tables only_tables)
        (skip_ignored_tables to_next ignore_tables only_tables).
Proof.
  apply Nat.lt_succ_r. clear.
  induction from_next as [|tab next IH]; simpl; [lia|].
  destruct (ignored _ _ _); simpl; lia.
Qed.

Definition check_tables_match (from_tables to_tables : list Table.t)
    (ignore_tables only_tables : gset string) : result unit :=
  let from_tables := std_sort Table.t Table.ltb from_tables in
  let to_tables := std_sort Table.t Table.ltb to_tables in
  check_tables_loop ignore_tables only_tables
    (skip_ignored_tables from_tables ignore_tables only_tables)
    (skip_ignored_tables to_tables ignore_tables only_tables).

Definition check_schema_match (from_database to_database : Database.t)
    (ignore_tables only_tables : gset string) : result unit :=
  check_tables_match (Database.tables from_database) (Database.tables to_database)
    ignore_tables only_tables.

End SchemaFunctions.

(** ** More of [std::string] and [<cctype>]

    A [size_t] is 64 bits wide: [npos] is its largest value and a
    subtraction wraps around.  Lengths and positions are [N]s. *)

Definition npos : N := 18446744073709551615%N.

Definition size_t_sub (a b : N) : N := ((a + 18446744073709551616 - b) mod 18446744073709551616)%N.

Definition size_t_add (a b : N) : N := ((a + b) mod 18446744073709551616)%N.

Definition string_size (s : string) : N := N.of_nat (String.length s).

(** [std::to_string] of a [size_t]: its decimal digits. *)
Definition to_string (n : N) : string := NilZero.string_of_uint (N.to_uint n).

(** [s.substr(pos, n)]: the bytes from [pos] on, at most [n] of them; it
    throws [std::out_of_range], here [None], when [pos] is past the end.
    [s.substr(pos)] is [s.substr(pos, npos)]. *)
Definition substr (s : string) (pos n : N) : option string :=
  if (string_size s <? pos)%N then None
  else Some (String.substring (N.to_nat pos) (N.to_nat (N.min n (string_size s - pos))) s).

(** The position of the first, and of the last, byte of [s] that satisfies
    [p]. *)
Fixpoint first_index (p : ascii -> bool) (s : string) : option nat :=
  match s with
  | EmptyString => None
  | String c rest => if p c then Some O else option_map S (first_index p rest)
  end.

Fixpoint last_index (p : ascii -> bool) (s : string) : option nat :=
  match s with
  | EmptyString => None
  | String c rest =>
      match last_index p rest with
      | Some i => Some (S i)
      | None => if p c then Some O else None
      end
  end.

Definition position (i : option nat) : N :=
  match i with
  | Some i => N.of_nat i
  | None => npos
  end.

(** [s.find(c)], [s.rfind(c)] and [s.find_first_not_of(chars)]. *)
Definition find (s : string) (c : ascii) : N := position (first_index (Ascii.eqb c) s).

Definition rfind (s : string) (c : ascii) : N := position (last_index (Ascii.eqb c) s).

Fixpoint contains (chars : string) (c : ascii) : bool :=
  match chars with
  | EmptyString => false
  | String d rest => Ascii.eqb c d || contains rest c
  end.

Definition find_first_not_of (s chars : string) : N :=
  position (first_index (fun c => negb (contains chars c)) s).

(** [s.resize(n)]: the first [n] bytes of [s], padded with zero bytes when
    [s] is shorter. *)
Fixpoint resize (s : string) (n : nat) : string :=
  match n with
  | O => EmptyString
  | S n' =>
      match s with
      | EmptyString => String Ascii.zero (resize EmptyString n')
      | String c rest => String c (resize rest n')
      end
  end.

(** [tolower] in the "C" locale, the locale a program starts in: the
    letters [A] to [Z] go to [a] to [z] and every other byte stays. *)
Definition tolower (c : ascii) : ascii :=
  let n := nat_of_ascii c in
  if (65 <=? n)%nat && (n <=? 90)%nat then ascii_of_nat (n + 32) else c.

(** [std::transform(s.begin(), s.end(), s.begin(), f)]. *)
Fixpoint transform (f : ascii -> ascii) (s : string) : string :=
  match s with
  | EmptyString => EmptyString
  | String c rest => String (f c) (transform f rest)
  end.

(** The line feed and the double quote as strings, and the bytes single
    quote and backslash. *)
Definition newline : string := String (ascii_of_nat 10) EmptyString.
Definition double_quote : string := String (ascii_of_nat 34) EmptyString.
Definition single_quote : ascii := ascii_of_nat 39.
Definition backslash : ascii := ascii_of_nat 92.

(** ** ks_postgresql.cpp *)

Module PostgreSQLClient.

Definition convert_unsupported_column (column : Column.t) : Column.t :=
  let column :=
    if String.eqb (Column.column_type column) ColumnTypes.UINT
    then Column.set_column_type ColumnTypes.SINT column
    else column in
  let column :=
    if String.eqb (Column.column_type column) ColumnTypes.SINT && N.eqb (Column.size column) 1
    then Column.set_size 2 column
    else column in
  let column :=
    if String.eqb (Column.column_type column) ColumnTypes.SINT && N.eqb (Column.size column) 3
    then Column.set_size 4 column
    else column in
  let column :=
    if String.eqb (Column.column_type column) ColumnTypes.TEXT
       || String.eqb (Column.column_type column) ColumnTypes.BLOB
    then Column.set_size 0 column
    else column in
  column.

Definition convert_unsupported_key (key : Key.t) : Key.t :=
  if (63 <=? String.length (Key.name key))%nat
  then Key.set_name (substr0 (Key.name key) 63) key
  else key.

Definition convert_unsupported_table (table : Table.t) : Table.t :=
  let table := Table.set_columns (map convert_unsupported_column (Table.columns table)) table in
  let table := Table.set_keys (map convert_unsupported_key (Table.keys table)) table in
  table.

Definition convert_unsupported_database_schema (database : Database.t) : Database.t :=
  Database.mk (map convert_unsupported_table (Database.tables database)).

Definition column_sequence_name (table : Table.t) (column : Column.t) : string :=
  Table.name table +:+ "_" +:+ Column.name column +:+ "_seq".

Definition column_type (column : Column.t) : result string :=
  if String.eqb (Column.column_type column) ColumnTypes.BLOB then
    Ok "bytea"
  else if String.eqb (Column.column_type column) ColumnTypes.TEXT then
    Ok "text"
  else if String.eqb (Column.column_type column) ColumnTypes.VCHR then
    let result := "character varying" in
    let result :=
      if (0 <? Column.size column)%N
      then result +:+ "(" +:+ to_string (Column.size column) +:+ ")"
      else result in
    Ok result
  else if String.eqb (Column.column_type column) ColumnTypes.FCHR then
    Ok ("character(" +:+ to_string (Column.size column) +:+ ")")
  else if String.eqb (Column.column_type column) ColumnTypes.UUID then
    Ok "uuid"
  else if String.eqb (Column.column_type column) ColumnTypes.BOOL then
    Ok "boolean"
  else if String.eqb (Column.column_type column) ColumnTypes.SINT then
    if N.eqb (Column.size column) 2 then Ok "smallint"
    else if N.eqb (Column.size column) 4 then Ok "integer"
    else if N.eqb (Column.size column) 8 then Ok "bigint"
    else
      Raise (runtime_error
               ("Don't know how to create integer column " +:+ Column.name column
                +:+ " of size " +:+ to_string (Column.size column)))
  else if String.eqb (Column.column_type column) ColumnTypes.REAL then
    Ok (if N.eqb (Column.size column) 4 then "real" else "double precision")
  else if String.eqb (Column.column_type column) ColumnTypes.DECI then
    if negb (N.eqb (Column.size column) 0) then
      Ok ("numeric(" +:+ to_string (Column.size column) +:+ ","
          +:+ to_string (Column.scale column) +:+ ")")
    else
      Ok "numeric"
  else if String.eqb (Column.column_type column) ColumnTypes.DATE then
    Ok "date"
  else if String.eqb (Column.column_type column) ColumnTypes.TIME then
    if negb (N.eqb (N.land (Column.flags column) ColumnFlags.time_zone) 0) then
      Ok "time with time zone"
    else
      Ok "time without time zone"
  else if String.eqb (Column.column_type column) ColumnTypes.DTTM then
    if negb (N.eqb (N.land (Column.flags column) ColumnFlags.time_zone) 0) then
      Ok "timestamp with time zone"
    else
      Ok "timestamp without time zone"
  else if String.eqb (Column.column_type column) ColumnTypes.SPAT then
    let result := "geometry" in
    let result :=
      if negb (String.eqb (Column.reference_system column) "") then
        result +:+ "("
        +:+ (if String.eqb (Column.type_restriction column) ""
             then "geometry"
             else Column.type_restriction column)
        +:+ "," +:+ Column.reference_system column +:+ ")"
      else if negb (String.eqb (Column.type_restriction column) "") then
        result +:+ "(" +:+ Column.type_restriction column +:+ ")"
      else result in
    Ok result
  else
    Raise (runtime_error
             ("Don't know how to express column type of " +:+ Column.name column
              +:+ " (" +:+ Column.column_type column +:+ ")")).

(** [sql_error]; [PQerrorMessage] is what libpq reports for the
    connection. *)
Definition sql_error (PQerrorMessage sql : string) : string :=
  if (String.length sql <? 200)%nat then
    PQerrorMessage +:+ newline +:+ sql
  else
    PQerrorMessage +:+ newline +:+ substr0 sql 200 +:+ "...".

Section Connection.

(** What the client gets from libpq and from headers that are not among
    the sources: [PQescapeStringConn] and [PQescapeByteaConn] on the
    open connection (the escaped text, without a terminator),
    [append_escaped_spatial_value_to], which reads the first four bytes
    of the value through a pointer cast, and the [to_string] overload
    for [DefaultType]. *)
Variable PQescapeStringConn : string -> string.
Variable PQescapeByteaConn : string -> string.
Variable append_escaped_spatial_value_to : string -> string -> string.
Variable to_string_DefaultType : DefaultType.t -> string.

Definition escape_string_value (value : string) : string :=
  PQescapeStringConn value.

Definition append_escaped_string_value_to (result value : string) : string :=
  result +:+ "'" +:+ PQescapeStringConn value +:+ "'".

Definition append_escaped_bytea_value_to (result value : string) : string :=
  result +:+ "'" +:+ PQescapeByteaConn value +:+ "'".

Definition append_escaped_column_value_to (result : string) (column : Column.t)
    (value : string) : string :=
  if String.eqb (Column.column_type column) ColumnTypes.BLOB then
    append_escaped_bytea_value_to result value
  else if String.eqb (Column.column_type column) ColumnTypes.SPAT then
    append_escaped_spatial_value_to result value
  else
    append_escaped_string_value_to result value.

(** The [switch] of [column_default].  The first three cases end in
    [break] and reach [return result]; the case [default_expression] has
    no [break], so after its statement control runs on into the
    [default:] label and its [throw]. *)
Definition column_default (table : Table.t) (column : Column.t) : result string :=
  let result := " DEFAULT " in
  match Column.default_type column with
  | DefaultType.no_default =>
      let result := result +:+ "NULL" in
      Ok result
  | DefaultType.sequence =>
      let result := result +:+ "nextval('" in
      let result := result +:+ escape_string_value (column_sequence_name table column) in
      let result := result +:+ "'::regclass)" in
      Ok result
  | DefaultType.default_value =>
      let result :=
        if String.eqb (Column.column_type column) ColumnTypes.BOOL
           || String.eqb (Column.column_type column) ColumnTypes.SINT
           || String.eqb (Column.column_type column) ColumnTypes.UINT
           || String.eqb (Column.column_type column) ColumnTypes.REAL
           || String.eqb (Column.column_type column) ColumnTypes.DECI
        then result +:+ Column.default_value column
        else append_escaped_column_value_to result column (Column.default_value column) in
      Ok result
  | DefaultType.default_expression =>
      let result := result +:+ Column.default_value column in
      Raise (runtime_error
               ("Don't know how to express default of " +:+ Column.name column +:+ " ("
                +:+ to_string_DefaultType (Column.default_type column) +:+ ")"))
  end.

End Connection.

Section Definition_.

(** [quote_identifier] of sql_functions.h, a file that is not among the
    sources, applied to the name and the double quote; the other four are
    the same as above. *)
Variable quote_identifier : string -> string.
Variable PQescapeStringConn : string -> string.
Variable PQescapeByteaConn : string -> string.
Variable append_escaped_spatial_value_to : string -> string -> string.
Variable to_string_DefaultType : DefaultType.t -> string.

(** [if (column.default_type)] is taken when the enumerator's value is not
    zero. *)
Definition column_definition (table : Table.t) (column : Column.t) : result string :=
  let result := "" in
  let result := result +:+ quote_identifier (Column.name column) in
  let result := result +:+ " " in
  bind (column_type column) (fun type =>
  let result := result +:+ type in
  let result := if negb (Column.nullable column) then result +:+ " NOT NULL" else result in
  if negb (N.eqb (DefaultType.underlying (Column.default_type column)) 0) then
    bind (column_default PQescapeStringConn PQescapeByteaConn append_escaped_spatial_value_to
            to_string_DefaultType table column)
         (fun default => Ok (result +:+ default))
  else Ok result).

End Definition_.

End PostgreSQLClient.

(** [PostgreSQLRes]: the conversions of the columns of a result.  [ftypes]
    lists what [PQftype] answers for the columns [0] to [_n_columns - 1] of
    the result, so [_n_columns] is its length. *)

Module TypeMap.
Record t : Type := mk {
  geometry : gset N
}.
End TypeMap.

Inductive PostgreSQLColumnConversion : Type :=
| encode_raw
| encode_bool
| encode_sint
| encode_bytea
| encode_geom.

Module PostgreSQLRes.

Definition BOOLOID : N := 16.
Definition BYTEAOID : N := 17.
Definition CHAROID : N := 18.
Definition INT2OID : N := 21.
Definition INT4OID : N := 23.
Definition INT8OID : N := 20.
Definition TEXTOID : N := 25.

Record t : Type := mk {
  ftypes : list N;
  _type_map : TypeMap.t;
  conversions : list PostgreSQLColumnConversion
}.

Definition n_columns (res : t) : nat := length (ftypes res).

Definition conversion_for_type (res : t) (typid : N) : PostgreSQLColumnConversion :=
  if N.eqb typid BOOLOID then encode_bool
  else if N.eqb typid INT2OID || N.eqb typid INT4OID || N.eqb typid INT8OID then encode_sint
  else if N.eqb typid BYTEAOID then encode_bytea
  else if N.eqb typid CHAROID || N.eqb typid TEXTOID then encode_raw
  else if bool_decide (typid ∈ TypeMap.geometry (_type_map res)) then encode_geom
  else encode_raw.

Definition populate_conversions (res : t) : t :=
  mk (ftypes res) (_type_map res) (map (conversion_for_type res) (ftypes res)).

(** [conversions.empty()]. *)
Definition empty {T : Type} (v : list T) : bool :=
  match v with
  | [] => true
  | _ :: _ => false
  end.

(** [conversion_for] returns the conversion with the result as it leaves
    it; reading [conversions] past its end is undefined, here [None]. *)
Definition conversion_for (res : t) (column_number : nat)
    : option PostgreSQLColumnConversion * t :=
  let res := if empty (conversions res) then populate_conversions res else res in
  (nth_error (conversions res) column_number, res).

End PostgreSQLRes.

(** [PostgreSQLColumnLister]: a row holds what [string_at(0)] to
    [string_at(4)] return, the columns [attname], [format_type(...)],
    [attnotnull], [atthasdef] and [pg_get_expr(...)] of the query. *)

Module PostgreSQLRow.
Record t : Type := mk {
  attname : string;
  format_type : string;
  attnotnull : string;
  atthasdef : string;
  pg_get_expr : string
}.
End PostgreSQLRow.

Module PostgreSQLColumnLister.

Fixpoint unescape_string_value (escaped : string) : string :=
  match escaped with
  | EmptyString => EmptyString
  | String c rest =>
      if Ascii.eqb c backslash || Ascii.eqb c single_quote then
        (* n += 1: the next byte is taken as it is; past the last byte,
           escaped[n] is the terminating zero byte *)
        match rest with
        | EmptyString => String Ascii.zero EmptyString
        | String next rest' => String next (unescape_string_value rest')
        end
      else String c (unescape_string_value rest)
  end.

Definition extract_spatial_type_restriction_and_reference_system (type_restriction : string)
    : option (string * string) :=
  let type_restriction := transform tolower type_restriction in
  let comma_pos := find type_restriction "," in
  if N.eqb comma_pos npos then
    Some (type_restriction, "")
  else
    reference_system ← substr type_restriction (size_t_add comma_pos 1) npos;
    let type_restriction := resize type_restriction (N.to_nat comma_pos) in
    let type_restriction :=
      if String.eqb type_restriction "geometry" then "" else type_restriction in
    Some (type_restriction, reference_system).

(** The first half of [operator()]: the default of the column.  A
    [substr(0, n)] cannot throw and is written with [substr0]; the tests of
    a condition are made from left to right, the later ones only when the
    earlier ones hold. *)
Definition operator_call_default (db_type : string) (row : PostgreSQLRow.t)
    : option (DefaultType.t * string) :=
  let default_type := DefaultType.no_default in
  let default_value := "" in
  if String.eqb (PostgreSQLRow.atthasdef row) "t" then
    let default_type := DefaultType.default_value in
    let default_value := PostgreSQLRow.pg_get_expr row in
    let length := string_size default_value in
    is_sequence ←
      (if (20 <? length)%N && String.eqb (substr0 default_value 9) "nextval('" then
         tail ← substr default_value (size_t_sub length 12) 12;
         Some (String.eqb tail "'::regclass)")
       else Some false);
    if is_sequence : bool then
      Some (DefaultType.sequence, "")
    else
      is_null ←
        (if String.eqb (substr0 default_value 6) "NULL::" then
           type ← substr default_value 6 npos;
           Some (String.eqb (substr0 db_type (N.to_nat (size_t_sub length 6))) type)
         else Some false);
      if is_null : bool then
        Some (DefaultType.default_expression, "NULL")
      else if (2 <? length)%N
              && match String.get 0 default_value with
                 | Some c => Ascii.eqb c single_quote
                 | None => false
                 end then
        quoted ← substr default_value 1 (size_t_sub (rfind default_value single_quote) 1);
        Some (default_type, unescape_string_value quoted)
      else if (0 <? length)%N
              && negb (String.eqb default_value "false")
              && negb (String.eqb default_value "true")
              && negb (N.eqb (find_first_not_of default_value "0123456789.") npos) then
        let default_type := DefaultType.default_expression in
        if String.eqb default_value "now()" then
          Some (default_type, "CURRENT_TIMESTAMP")
        else if String.eqb default_value "('now'::text)::date" then
          Some (default_type, "CURRENT_DATE")
        else if String.eqb default_value (double_quote +:+ "current_schema" +:+ double_quote +:+ "()")
                || String.eqb default_value (double_quote +:+ "current_user" +:+ double_quote +:+ "()")
                || String.eqb default_value (double_quote +:+ "session_user" +:+ double_quote +:+ "()")
        then
          name ← substr default_value 1 (size_t_sub length 4);
          Some (default_type, name)
        else Some (default_type, default_value)
      else Some (default_type, default_value)
  else Some (default_type, default_value).

Section Extract.

(** [extract_column_length] and [extract_column_scale] of sql_functions.h,
    a file that is not among the sources. *)
Variable extract_column_length : string -> N.
Variable extract_column_scale : string -> N.

(** The second half of [operator()]: the column that is appended to
    [table.columns]. *)
Definition operator_call_column (row : PostgreSQLRow.t) : option Column.t :=
  let name := PostgreSQLRow.attname row in
  let db_type := PostgreSQLRow.format_type row in
  let nullable := String.eqb (PostgreSQLRow.attnotnull row) "f" in
  '(default_type, default_value) ← operator_call_default db_type row;
  let column := Column.Column name nullable default_type default_value in
  if String.eqb db_type "boolean" then
    Some (column ColumnTypes.BOOL 0 0 ColumnFlags.nothing "" "" "")%N
  else if String.eqb db_type "smallint" then
    Some (column ColumnTypes.SINT 2 0 ColumnFlags.nothing "" "" "")%N
  else if String.eqb db_type "integer" then
    Some (column ColumnTypes.SINT 4 0 ColumnFlags.nothing "" "" "")%N
  else if String.eqb db_type "bigint" then
    Some (column ColumnTypes.SINT 8 0 ColumnFlags.nothing "" "" "")%N
  else if String.eqb db_type "real" then
    Some (column ColumnTypes.REAL 4 0 ColumnFlags.nothing "" "" "")%N
  else if String.eqb db_type "double precision" then
    Some (column ColumnTypes.REAL 8 0 ColumnFlags.nothing "" "" "")%N
  else if String.eqb (substr0 db_type 8) "numeric(" then
    Some (column ColumnTypes.DECI (extract_column_length db_type) (extract_column_scale db_type)
            ColumnFlags.nothing "" "" "")
  else if String.eqb (substr0 db_type 7) "numeric" then
    Some (column ColumnTypes.DECI 0 0 ColumnFlags.nothing "" "" "")%N
  else if String.eqb (substr0 db_type 18) "character varying(" then
    Some (column ColumnTypes.VCHR (extract_column_length db_type) 0%N ColumnFlags.nothing "" "" "")
  else if String.eqb (substr0 db_type 18) "character varying" then
    Some (column ColumnTypes.VCHR 0 0 ColumnFlags.nothing "" "" "")%N
  else if String.eqb (substr0 db_type 10) "character(" then
    Some (column ColumnTypes.FCHR (extract_column_length db_type) 0%N ColumnFlags.nothing "" "" "")
  else if String.eqb db_type "text" then
    Some (column ColumnTypes.TEXT 0 0 ColumnFlags.nothing "" "" "")%N
  else if String.eqb db_type "bytea" then
    Some (column ColumnTypes.BLOB 0 0 ColumnFlags.nothing "" "" "")%N
  else if String.eqb db_type "uuid" then
    Some (column ColumnTypes.UUID 0 0 ColumnFlags.nothing "" "" "")%N
  else if String.eqb db_type "date" then
    Some (column ColumnTypes.DATE 0 0 ColumnFlags.nothing "" "" "")%N
  else if String.eqb db_type "time without time zone" then
    Some (column ColumnTypes.TIME 0 0 ColumnFlags.nothing "" "" "")%N
  else if String.eqb db_type "time with time zone" then
    Some (column ColumnTypes.TIME 0 0 ColumnFlags.time_zone "" "" "")%N
  else if String.eqb db_type "timestamp without time zone" then
    Some (column ColumnTypes.DTTM 0 0 ColumnFlags.nothing "" "" "")%N
  else if String.eqb db_type "timestamp with time zone" then
    Some (column ColumnTypes.DTTM 0 0 ColumnFlags.time_zone "" "" "")%N
  else if String.eqb db_type "geometry" then
    Some (column ColumnTypes.SPAT 0 0 ColumnFlags.nothing "" "" "")%N
  else if String.eqb (substr0 db_type 9) "geometry(" then
    inner ← substr db_type 9 (size_t_sub (string_size db_type) 10);
    '(type_restriction, reference_system) ←
      extract_spatial_type_restriction_and_reference_system inner;
    Some (column ColumnTypes.SPAT 0 0 ColumnFlags.nothing type_restriction reference_system "")%N
  else
    Some (column ColumnTypes.UNKN 0 0 ColumnFlags.nothing "" "" db_type)%N.


End Extract.

End PostgreSQLColumnLister.

(** ** protocol_versions.h *)

Definition EARLIEST_PROTOCOL_VERSION_SUPPORTED : Z := 7.
Definition LATEST_PROTOCOL_VERSION_SUPPORTED : Z := 9.

Definition LAST_FILTERS_AFTER_SNAPSHOT_PROTOCOL_VERSION : Z := 7.
Definition LAST_LEGACY_SCHEMA_FORMAT_VERSION : Z := 7.
Definition FIRST_IDLE_COMMAND_VERSION : Z := 8.
Definition FIRST_BLAKE3_VERSION : Z := 9.

(** ** sync_to.h

    [sync_to] writes commands to the standard output and reads the peer's
    replies from the standard input.  The model takes the two replies it
    reads (the peer's protocol version and the peer's schema) and the schema
    of its own client, and returns the commands written, in order, with the
    outcome.  [sync_to] calls [check_schema_match] with the two databases
    only; the model passes empty filter sets. *)

Module Command.
Record t : Type := mk {
  name : string;
  arguments : list Z
}.
End Command.

Section SyncTo.

Variable std_sort : forall T : Type, (T -> T -> bool) -> list T -> list T.
Variable columns_list : list Column.t -> ColumnIndices -> string.

Definition sync_to (client_database_schema : Database.t)
    (protocol_reply : Z) (schema_reply : Database.t)
    : list Command.t * result unit :=
  let PROTOCOL_VERSION_SUPPORTED : Z := 1%Z in
  (* tell the other end what protocol we speak *)
  let cout := [Command.mk "protocol" [PROTOCOL_VERSION_SUPPORTED]] in
  let protocol := protocol_reply in
  (* get its schema *)
  let cout := cout ++ [Command.mk "schema" []] in
  let from_database := schema_reply in
  (* get our end's schema *)
  let to_database := client_database_schema in
  (* check they match *)
  match check_schema_match std_sort columns_list from_database to_database ∅ ∅ with
  | Raise e => (cout, Raise e)
  | Ok _ => (cout ++ [Command.mk "quit" []], Ok tt)
  end.

End SyncTo.

(** * The vocabulary of the properties *)

(** ** The contract of [std::sort] *)

(** The requirements [std::sort] puts on the comparison: a strict weak
    ordering. *)
Record strict_weak_order {T : Type} (lt : T -> T -> bool) : Prop := {
  swo_irreflexive : forall x, lt x x = false;
  swo_transitive : forall x y z, lt x y = true -> lt y z = true -> lt x z = true;
  swo_equivalence_transitive : forall x y z,
    lt x y = false -> lt y x = false -> lt y z = false -> lt z y = false ->
    lt x z = false /\ lt z x = false
}.

(** No element is smaller than one that stands before it. *)
Definition sorted_by {T : Type} (lt : T -> T -> bool) (l : list T) : Prop :=
  StronglySorted (fun a b => lt b a = false) l.

(** What the library promises of [std::sort]: the result is a permutation of
    the input, it is sorted when the comparison is a strict weak ordering,
    and the algorithm only moves elements and compares them, so it commutes
    with every map that preserves the comparison. *)
Definition sort_permutes (sort : forall T : Type, (T -> T -> bool) -> list T -> list T) : Prop :=
  forall (T : Type) (lt : T -> T -> bool) (l : list T), Permutation l (sort T lt l).

Definition sort_orders (sort : forall T : Type, (T -> T -> bool) -> list T -> list T) : Prop :=
  forall (T : Type) (lt : T -> T -> bool), strict_weak_order lt ->
  forall l : list T, sorted_by lt (sort T lt l).

Definition sort_compares (sort : forall T : Type, (T -> T -> bool) -> list T -> list T) : Prop :=
  forall (T U : Type) (f : T -> U) (ltT : T -> T -> bool) (ltU : U -> U -> bool),
  (forall a b, ltU (f a) (f b) = ltT a b) ->
  forall l : list T, sort U ltU (map f l) = map f (sort T ltT l).

(** ** Walks *)

(** The tables that [skip_ignored_tables] stops on when it is applied at
    every position: those that are not ignored. *)
Definition kept_tables (ignore_tables only_tables : gset string) (tables : list Table.t)
    : list Table.t :=
  List.filter (fun table => negb (ignored ignore_tables only_tables (Table.name table))) tables.

(** Two tables are paired by the walk when their names are equal and
    [check_table_match] accepts them. *)
Definition tables_paired
    (std_sort : forall T : Type, (T -> T -> bool) -> list T -> list T)
    (columns_list : list Column.t -> ColumnIndices -> string)
    (from_table to_table : Table.t) : Prop :=
  Table.name from_table = Table.name to_table /\
  check_table_match std_sort columns_list from_table to_table = Ok tt.

(** Two keys are paired by the walk when their names are equal and
    [check_key_match] has nothing to report. *)
Definition keys_paired (from_key to_key : Key.t) : Prop :=
  Key.name from_key = Key.name to_key /\
  Key.unique from_key = Key.unique to_key /\
  Key.columns from_key = Key.columns to_key.

(** ** Table equality *)

(** The primary key columns that [Table::operator==] takes into account. *)
Definition explicit_primary_key_columns (table : Table.t) : ColumnIndices :=
  if PrimaryKeyType.eqb (Table.primary_key_type table) PrimaryKeyType.explicit_primary_key
  then Table.primary_key_columns table
  else [].

(** The fields of a column that [Column::operator==] compares. *)
Definition Column_compared (column : Column.t) :=
  (Column.name column, Column.nullable column, Column.column_type column, Column.size column,
   Column.scale column, Column.default_type column, Column.default_value column,
   Column.flags column, Column.type_restriction column, Column.reference_system column,
   Column.enumeration_values column).

(** What [Table::operator==] compares. *)
Definition Table_compared (table : Table.t) :=
  (Table.name table, map Column_compared (Table.columns table),
   explicit_primary_key_columns table, Table.keys table).

(** ** The PostgreSQL normalization pass *)

(** What the pass does to one column, field by field: [column'] is the
    column after the pass. *)
Record column_converted (column column' : Column.t) : Prop := {
  converted_column_type :
    Column.column_type column' =
    if String.eqb (Column.column_type column) ColumnTypes.UINT
    then ColumnTypes.SINT
    else Column.column_type column;
  converted_size :
    Column.size column' =
    if String.eqb (Column.column_type column') ColumnTypes.SINT then
      if N.eqb (Column.size column) 1 then 2%N
      else if N.eqb (Column.size column) 3 then 4%N
      else Column.size column
    else if String.eqb (Column.column_type column') ColumnTypes.TEXT
            || String.eqb (Column.column_type column') ColumnTypes.BLOB then 0%N
    else Column.size column;
  converted_name : Column.name column' = Column.name column;
  converted_nullable : Column.nullable column' = Column.nullable column;
  converted_scale : Column.scale column' = Column.scale column;
  converted_default_type : Column.default_type column' = Column.default_type column;
  converted_default_value : Column.default_value column' = Column.default_value column;
  converted_flags : Column.flags column' = Column.flags column;
  converted_type_restriction : Column.type_restriction column' = Column.type_restriction column;
  converted_reference_system : Column.reference_system column' = Column.reference_system column;
  converted_enumeration_values :
    Column.enumeration_values column' = Column.enumeration_values column;
  converted_db_type_def : Column.db_type_def column' = Column.db_type_def column;
  converted_filter_expression :
    Column.filter_expression column' = Column.filter_expression column
}.

(** What the pass does to one key: its name is cut to its first 63 bytes. *)
Record key_converted (key key' : Key.t) : Prop := {
  converted_key_name_prefix : String.prefix (Key.name key') (Key.name key) = true;
  converted_key_name_length :
    String.length (Key.name key') = Nat.min 63 (String.length (Key.name key));
  converted_key_type : Key.key_type key' = Key.key_type key;
  converted_key_columns : Key.columns key' = Key.columns key
}.

Record table_converted (table table' : Table.t) : Prop := {
  converted_table_name : Table.name table' = Table.name table;
  converted_columns : Forall2 column_converted (Table.columns table) (Table.columns table');
  converted_primary_key_columns :
    Table.primary_key_columns table' = Table.primary_key_columns table;
  converted_primary_key_type : Table.primary_key_type table' = Table.primary_key_type table;
  converted_keys : Forall2 key_converted (Table.keys table) (Table.keys table');
  converted_where_conditions : Table.where_conditions table' = Table.where_conditions table
}.

(** ** Databases that differ in [db_type_def] only *)

(** A database with every [db_type_def] blanked: two databases are the same
    but for the [db_type_def] of their columns when blanking makes them
    equal. *)
Definition without_db_type_def_table (table : Table.t) : Table.t :=
  Table.set_columns (map (Column.set_db_type_def "") (Table.columns table)) table.

Definition without_db_type_def (database : Database.t) : Database.t :=
  Database.mk (map without_db_type_def_table (Database.tables database)).

Definition same_but_db_type_def (from_database to_database : Database.t) : Prop :=
  without_db_type_def from_database = without_db_type_def to_database.

(** ** The PostgreSQL adapter *)

(** A computation returns when it does not raise. *)
Definition returns {A : Type} (c : result A) : Prop := exists a, c = Ok a.

(** The column types that [column_type] has a branch for. *)
Definition expressible_types : list string :=
  [ColumnTypes.BLOB; ColumnTypes.TEXT; ColumnTypes.VCHR; ColumnTypes.FCHR; ColumnTypes.UUID;
   ColumnTypes.BOOL; ColumnTypes.SINT; ColumnTypes.REAL; ColumnTypes.DECI; ColumnTypes.DATE;
   ColumnTypes.TIME; ColumnTypes.DTTM; ColumnTypes.SPAT].

(** The bytes that [unescape_string_value] takes for an escape: the
    backslash and the single quote. *)
Definition escapes (c : ascii) : bool := Ascii.eqb c backslash || Ascii.eqb c single_quote.

(** [value] with every backslash and single quote preceded by the byte that
    [escape] chooses for it: the same byte again when [escape] is the
    identity, which doubles them. *)
Fixpoint escaped_by (escape : ascii -> ascii) (value : string) : string :=
  match value with
  | EmptyString => EmptyString
  | String c rest =>
      if escapes c then String (escape c) (String c (escaped_by escape rest))
      else String c (escaped_by escape rest)
  end.

(** ** Instances used to run the model

    [std::sort] promises a sorted permutation of its input, and nothing about
    the order of elements that compare equal.  [insertion_sort] is one
    function that keeps the promise; it stands for [std::sort] wherever the
    model is run on a concrete database.  [columns_list_names] stands for
    [columns_list] in the same way: it lists the names of the columns at the
    given indices. *)

Fixpoint insert_sorted {T : Type} (lt : T -> T -> bool) (x : T) (l : list T) : list T :=
  match l with
  | [] => [x]
  | y :: l' => if lt y x then y :: insert_sorted lt x l' else x :: l
  end.

Definition insertion_sort (T : Type) (lt : T -> T -> bool) (l : list T) : list T :=
  fold_right (insert_sorted lt) [] l.

Definition columns_list_names (columns : list Column.t) (column_indices : ColumnIndices) : string :=
  "(" +:+ String.concat ", "
            (map (fun i => match nth_error columns (N.to_nat i) with
                           | Some column => Column.name column
                           | None => ""
                           end) column_indices)
  +:+ ")".

(** ** Examples of columns, keys, tables and databases *)

Definition example_id_column : Column.t :=
  Column.Column "id" false DefaultType.sequence "" ColumnTypes.SINT 4 0 ColumnFlags.nothing "" "" "".

Definition example_wide_id_column : Column.t :=
  Column.Column "id" true DefaultType.no_default "" ColumnTypes.UINT 8 0 ColumnFlags.nothing "" "" "".

Definition example_x_column : Column.t :=
  Column.Column "x" true DefaultType.no_default "" ColumnTypes.VCHR 255 0 ColumnFlags.nothing "" "" "".

Definition example_x_text_column : Column.t :=
  Column.Column "x" false DefaultType.default_value "none" ColumnTypes.TEXT 0 0
    ColumnFlags.nothing "" "" "".

Definition example_y_column : Column.t :=
  Column.Column "y" true DefaultType.no_default "" ColumnTypes.DATE 0 0 ColumnFlags.nothing "" "" "".

Definition example_table (columns : list Column.t) : Table.t :=
  Table.mk "T" columns [0%N] PrimaryKeyType.explicit_primary_key
    [Key.mk "by_x" KeyType.standard_key [1%N]] "".

Definition example_by_id_key : Key.t := Key.mk "by_id" KeyType.unique_key [0%N].
Definition example_by_x_key : Key.t := Key.mk "by_x" KeyType.standard_key [1%N].
Definition example_by_x_unique_key : Key.t := Key.mk "by_x" KeyType.unique_key [1%N].
Definition example_by_x_id_key : Key.t := Key.mk "by_x" KeyType.standard_key [1%N; 0%N].
Definition example_by_x_id_unique_key : Key.t := Key.mk "by_x" KeyType.unique_key [1%N; 0%N].

Definition example_two_key_table (keys : list Key.t) (primary_key_columns : ColumnIndices) : Table.t :=
  Table.mk "T" [example_id_column; example_x_column] primary_key_columns
    PrimaryKeyType.explicit_primary_key keys "".

Definition example_surrogate_table (primary_key_columns : ColumnIndices)
    (primary_key_type : PrimaryKeyType.t) (db_type_def : string) : Table.t :=
  Table.mk "T"
    [example_id_column;
     Column.Column "tags" true DefaultType.no_default "" ColumnTypes.UNKN 0 0
       ColumnFlags.nothing "" "" db_type_def]
    primary_key_columns primary_key_type
    [Key.mk "by_tags" KeyType.unique_key [1%N]] "".

Definition example_unknown_database (db_type_def : string) : Database.t :=
  Database.mk
    [Table.Table "plain";
     example_surrogate_table [0%N] PrimaryKeyType.explicit_primary_key db_type_def].

(** * Properties *)

(** ** The model at work *)

Example check_schema_match_empty_databases :
  check_schema_match insertion_sort columns_list_names (Database.mk []) (Database.mk []) ∅ ∅ =
  Ok tt.
Proof. reflexivity. Qed.

Example check_schema_match_sorts_tables :
  check_schema_match insertion_sort columns_list_names
    (Database.mk [Table.Table "b"; Table.Table "a"; Table.Table "c"])
    (Database.mk [Table.Table "c"; Table.Table "b"; Table.Table "a"]) ∅ ∅ = Ok tt.
Proof. reflexivity. Qed.

Example check_schema_match_only_tables :
  check_schema_match insertion_sort columns_list_names
    (Database.mk [Table.Table "b"; Table.Table "a"])
    (Database.mk [Table.Table "c"; Table.Table "a"]) ∅ {["a"]} = Ok tt.
Proof. reflexivity. Qed.

Example check_table_match_missing_column :
  check_table_match insertion_sort columns_list_names
    (example_table [example_id_column; example_x_column; example_y_column])
    (example_table [example_id_column; example_y_column]) =
  Raise (schema_mismatch "Missing column x on table T").
Proof. reflexivity. Qed.

Example check_table_match_extra_column :
  check_table_match insertion_sort columns_list_names
    (example_table [example_id_column; example_y_column])
    (example_table [example_id_column; example_x_column; example_y_column]) =
  Raise (schema_mismatch "Extra column x on table T").
Proof. reflexivity. Qed.

Example check_table_match_primary_key :
  check_table_match insertion_sort columns_list_names
    (example_table [example_id_column; example_x_column])
    (Table.mk "T" [example_id_column; example_x_column] [1%N]
       PrimaryKeyType.explicit_primary_key [example_by_x_key] "") =
  Raise (schema_mismatch "Mismatching primary key (x) on table T, should have (id)").
Proof. reflexivity. Qed.

(** ** Comparison operators *)

Lemma list_eqb_N_eq (l1 l2 : list N) : list_eqb N.eqb l1 l2 = true <-> l1 = l2.
Proof.
  revert l2. induction l1 as [|x r1 IH]; intros [|y r2]; simpl; try (split; congruence).
  rewrite andb_true_iff, N.eqb_eq, IH. split; [intros [-> ->]; reflexivity | intros [= -> ->]; auto].
Qed.

Lemma list_eqb_N_refl (l : list N) : list_eqb N.eqb l l = true.
Proof. apply list_eqb_N_eq. reflexivity. Qed.

Lemma string_ltb_irrefl (s : string) : String.ltb s s = false.
Proof.
  unfold String.ltb. destruct (String.compare s s) eqn:E; try reflexivity.
  pose proof (String.compare_antisym s s) as H. rewrite E in H. discriminate.
Qed.

Lemma string_ltb_asym (a b : string) : String.ltb a b = true -> String.ltb b a = false.
Proof.
  unfold String.ltb. rewrite (String.compare_antisym a b).
  destruct (String.compare b a); simpl; congruence.
Qed.

Lemma string_ltb_total (a b : string) :
  String.ltb a b = false -> String.ltb b a = false -> a = b.
Proof.
  unfold String.ltb. rewrite (String.compare_antisym a b).
  destruct (String.compare b a) eqn:E; simpl; try discriminate.
  intros _ _. symmetry. apply String.compare_eq_iff. exact E.
Qed.

(** ** Matching succeeds on what it does not look at *)

Section SchemaMatch.

Variable std_sort : forall T : Type, (T -> T -> bool) -> list T -> list T.
Variable columns_list : list Column.t -> ColumnIndices -> string.

Lemma check_columns_loop_same_names (table : Table.t) (from_columns to_columns : list Column.t) :
  map Column.name from_columns = map Column.name to_columns ->
  check_columns_loop table from_columns to_columns = Ok tt.
Proof.
  revert to_columns.
  induction from_columns as [|from_col from_next IH]; intros [|to_col to_next]; simpl;
    try discriminate; [reflexivity|].
  intros [= Hname Hnext]. rewrite Hname, String.eqb_refl. simpl. apply IH, Hnext.
Qed.

Lemma check_primary_key_matches_same (table : Table.t) (primary_key_columns : ColumnIndices) :
  check_primary_key_matches columns_list table primary_key_columns primary_key_columns = Ok tt.
Proof. unfold check_primary_key_matches. rewrite list_eqb_N_refl. reflexivity. Qed.

Lemma check_key_match_same (table : Table.t) (key : Key.t) :
  check_key_match columns_list table key key = Ok tt.
Proof.
  unfold check_key_match. rewrite Bool.eqb_reflx, list_eqb_N_refl. reflexivity.
Qed.

Lemma check_keys_loop_same (table : Table.t) (keys : list Key.t) :
  check_keys_loop columns_list table keys keys = Ok tt.
Proof.
  induction keys as [|key next IH]; simpl; [reflexivity|].
  unfold string_gt, string_lt. rewrite string_ltb_irrefl, check_key_match_same. exact IH.
Qed.

Lemma check_table_match_same_names (from_table to_table : Table.t) :
  map Column.name (Table.columns from_table) = map Column.name (Table.columns to_table) ->
  Table.primary_key_columns from_table = Table.primary_key_columns to_table ->
  Table.keys from_table = Table.keys to_table ->
  check_table_match std_sort columns_list from_table to_table = Ok tt.
Proof.
  intros Hcolumns Hprimary Hkeys. unfold check_table_match, check_columns_match, check_keys_match.
  rewrite (check_columns_loop_same_names _ _ _ Hcolumns), Hprimary, Hkeys.
  rewrite check_primary_key_matches_same. simpl. apply check_keys_loop_same.
Qed.

Lemma check_tables_loop_paired (ignore_tables only_tables : gset string)
    (from_tables to_tables : list Table.t) :
  Forall2 (tables_paired std_sort columns_list) from_tables to_tables ->
  check_tables_loop std_sort columns_list ignore_tables only_tables
    (skip_ignored_tables from_tables ignore_tables only_tables)
    (skip_ignored_tables to_tables ignore_tables only_tables) = Ok tt.
Proof.
  induction 1 as [|from_tab to_tab from_next to_next [Hname Hmatch] _ IH]; simpl.
  - apply check_tables_loop_equation_1.
  - rewrite <- Hname. destruct (ignored _ _ _); [exact IH|].
    rewrite check_tables_loop_equation_4. unfold string_gt, string_lt.
    rewrite <- Hname, string_ltb_irrefl, Hmatch. exact IH.
Qed.

Lemma tables_paired_same (table : Table.t) :
  tables_paired std_sort columns_list table table.
Proof. split; [reflexivity | apply check_table_match_same_names; reflexivity]. Qed.

Lemma check_schema_match_same (db : Database.t) (ignore_tables only_tables : gset string) :
  check_schema_match std_sort columns_list db db ignore_tables only_tables = Ok tt.
Proof.
  unfold check_schema_match, check_tables_match. apply check_tables_loop_paired.
  induction (std_sort Table.t Table.ltb (Database.tables db)); constructor;
    [apply tables_paired_same | assumption].
Qed.

(** C1. Schema matching is reflexive: with empty [ignore_tables] and
    [only_tables], [check_schema_match(db, db)] returns without raising a
    [schema_mismatch], for every database [db]. *)
Theorem check_schema_match_reflexive (db : Database.t) :
  check_schema_match std_sort columns_list db db ∅ ∅ = Ok tt.
Proof. apply check_schema_match_same. Qed.

(** C4. Column matching looks at names only: two tables with equal names,
    the same column names in the same order, equal
    [primary_key_columns] and equal keys pass [check_table_match],
    whatever the other attributes of their columns are. *)
Theorem check_table_match_column_names_only (from_table to_table : Table.t) :
  Table.name from_table = Table.name to_table ->
  map Column.name (Table.columns from_table) = map Column.name (Table.columns to_table) ->
  Table.primary_key_columns from_table = Table.primary_key_columns to_table ->
  Table.keys from_table = Table.keys to_table ->
  check_table_match std_sort columns_list from_table to_table = Ok tt.
Proof. intros _. apply check_table_match_same_names. Qed.

End SchemaMatch.

Lemma check_table_match_column_names_only_witness :
  check_table_match insertion_sort columns_list_names
    (example_table [example_id_column; example_x_column])
    (example_table [example_wide_id_column; example_x_text_column]) = Ok tt.
Proof.
  apply (check_table_match_column_names_only insertion_sort columns_list_names
           (example_table [example_id_column; example_x_column])
           (example_table [example_wide_id_column; example_x_text_column]));
    reflexivity.
Defined.

(** ** The column walk *)

Lemma find_if_name_is_end (name : string) (columns : list Column.t) :
  is_end (find_if (name_is name) columns) = false <-> In name (map Column.name columns).
Proof.
  induction columns as [|column next IH]; simpl; [split; [discriminate | tauto]|].
  unfold name_is at 1, name_of, Column_Named.
  destruct (String.eqb_spec (Column.name column) name) as [Heq|Hne]; simpl.
  - split; auto.
  - rewrite IH. split; [auto | intros [H|H]; [contradiction | exact H]].
Qed.

Lemma check_columns_loop_misordered (table : Table.t) (from_col to_col : Column.t)
    (from_rest to_rest : list Column.t) :
  Column.name from_col <> Column.name to_col ->
  In (Column.name from_col) (map Column.name to_rest) ->
  In (Column.name to_col) (map Column.name from_rest) ->
  check_columns_loop table (from_col :: from_rest) (to_col :: to_rest) =
  report_schema_mismatch
    ("Misordered column " +:+ Column.name from_col +:+ " on table " +:+ Table.name table
     +:+ ", should have " +:+ Column.name to_col +:+ " first").
Proof.
  intros Hne Hto Hfrom.
  assert (Hfind_to : is_end (find_if (name_is (Column.name from_col)) (to_col :: to_rest)) = false).
  { apply find_if_name_is_end. simpl. auto. }
  assert (Hfind_from : is_end (find_if (name_is (Column.name to_col)) (from_col :: from_rest)) = false).
  { apply find_if_name_is_end. simpl. auto. }
  cbn [check_columns_loop].
  destruct (String.eqb_spec (Column.name to_col) (Column.name from_col)) as [Heq|_];
    [congruence|].
  rewrite Hfind_to, Hfind_from. reflexivity.
Qed.

Lemma check_columns_loop_matched_prefix (table : Table.t) (from_done to_done : list Column.t)
    (from_column to_column : list Column.t) :
  map Column.name from_done = map Column.name to_done ->
  check_columns_loop table (from_done ++ from_column) (to_done ++ to_column) =
  check_columns_loop table from_column to_column.
Proof.
  revert to_done. induction from_done as [|from_col from_next IH]; intros [|to_col to_next];
    simpl; try discriminate; [reflexivity|].
  intros [= Hname Hnext]. rewrite Hname, String.eqb_refl. simpl. apply IH, Hnext.
Qed.

(** C3. In the column walk, once the columns before the two cursors have
    been matched, a from-column [X] whose name differs from that of the
    current to-column [Y], while [X]'s name occurs later in the to list and
    [Y]'s name later in the from list, makes [check_columns_match] raise
    "Misordered column X on table T, should have Y first".  In particular a
    table [T] with the columns [x, y] against one with the columns [y, x]
    raises "Misordered column x on table T, should have y first". *)
Theorem check_columns_match_misordered :
  (forall (table : Table.t) (from_done to_done : list Column.t) (from_col to_col : Column.t)
          (from_rest to_rest : list Column.t),
      map Column.name from_done = map Column.name to_done ->
      Column.name from_col <> Column.name to_col ->
      In (Column.name from_col) (map Column.name to_rest) ->
      In (Column.name to_col) (map Column.name from_rest) ->
      check_columns_match table (from_done ++ from_col :: from_rest) (to_done ++ to_col :: to_rest) =
      Raise (schema_mismatch
               ("Misordered column " +:+ Column.name from_col +:+ " on table " +:+ Table.name table
                +:+ ", should have " +:+ Column.name to_col +:+ " first"))) /\
  (forall (std_sort : forall T : Type, (T -> T -> bool) -> list T -> list T)
          (columns_list : list Column.t -> ColumnIndices -> string)
          (from_table to_table : Table.t),
      Table.name from_table = "T" ->
      map Column.name (Table.columns from_table) = ["x"; "y"] ->
      map Column.name (Table.columns to_table) = ["y"; "x"] ->
      check_table_match std_sort columns_list from_table to_table =
      Raise (schema_mismatch "Misordered column x on table T, should have y first")).
Proof.
  split.
  - intros table from_done to_done from_col to_col from_rest to_rest Hdone Hne Hto Hfrom.
    unfold check_columns_match.
    rewrite (check_columns_loop_matched_prefix _ _ _ _ _ Hdone).
    apply check_columns_loop_misordered; assumption.
  - intros std_sort columns_list from_table to_table Hname Hfrom Hto.
    unfold check_table_match, check_columns_match.
    destruct (Table.columns from_table) as [|x [|y [|? ?]]]; try discriminate.
    destruct (Table.columns to_table) as [|y' [|x' [|? ?]]]; try discriminate.
    injection Hfrom as Hx Hy. injection Hto as Hy' Hx'.
    rewrite check_columns_loop_misordered; simpl; rewrite ?Hx, ?Hy, ?Hx', ?Hy', ?Hname;
      [reflexivity | discriminate | auto | auto].
Qed.

Lemma check_columns_match_misordered_witness :
  check_columns_match (example_table [])
    [example_id_column; example_x_column; example_y_column]
    [example_wide_id_column; example_y_column; example_x_text_column] =
    Raise (schema_mismatch "Misordered column x on table T, should have y first") /\
  check_table_match insertion_sort columns_list_names
    (example_table [example_x_column; example_y_column])
    (example_table [example_y_column; example_x_column]) =
    Raise (schema_mismatch "Misordered column x on table T, should have y first").
Proof.
  split.
  - apply (proj1 check_columns_match_misordered (example_table [])
             [example_id_column] [example_wide_id_column] example_x_column example_y_column
             [example_y_column] [example_x_text_column]);
      [reflexivity | discriminate | simpl; auto | simpl; auto].
  - apply (proj2 check_columns_match_misordered insertion_sort columns_list_names
             (example_table [example_x_column; example_y_column])
             (example_table [example_y_column; example_x_column])); reflexivity.
Defined.

Lemma swo_asymmetric {T : Type} (lt : T -> T -> bool) (x y : T) :
  strict_weak_order lt -> lt x y = true -> lt y x = false.
Proof.
  intros Hswo Hxy. destruct (lt y x) eqn:Hyx; [|reflexivity].
  rewrite <- (swo_irreflexive lt Hswo x). symmetry.
  exact (swo_transitive lt Hswo x y x Hxy Hyx).
Qed.

Lemma swo_not_greater_transitive {T : Type} (lt : T -> T -> bool) (x y z : T) :
  strict_weak_order lt -> lt y x = false -> lt z y = false -> lt z x = false.
Proof.
  intros Hswo Hyx Hzy. destruct (lt z x) eqn:Hzx; [|reflexivity]. exfalso.
  destruct (lt y z) eqn:Hyz.
  - rewrite (swo_transitive lt Hswo y z x Hyz Hzx) in Hyx. discriminate.
  - destruct (lt x y) eqn:Hxy.
    + rewrite (swo_transitive lt Hswo z x y Hzx Hxy) in Hzy. discriminate.
    + destruct (swo_equivalence_transitive lt Hswo z y x Hzy Hyz Hyx Hxy) as [H _].
      congruence.
Qed.

(** [insertion_sort] keeps the contract. *)

Lemma insert_sorted_permutation {T : Type} (lt : T -> T -> bool) (x : T) (l : list T) :
  Permutation (x :: l) (insert_sorted lt x l).
Proof.
  induction l as [|y l' IH]; simpl; [reflexivity|].
  destruct (lt y x); [|reflexivity].
  rewrite perm_swap. apply perm_skip, IH.
Qed.

Lemma insertion_sort_permutes : sort_permutes insertion_sort.
Proof.
  intros T lt l. induction l as [|x l' IH]; simpl; [reflexivity|].
  rewrite <- insert_sorted_permutation. apply perm_skip, IH.
Qed.

Lemma insert_sorted_sorted {T : Type} (lt : T -> T -> bool) (x : T) (l : list T) :
  strict_weak_order lt -> sorted_by lt l -> sorted_by lt (insert_sorted lt x l).
Proof.
  intros Hswo. unfold sorted_by. induction 1 as [|y l' Hsorted IH Hall]; simpl.
  - repeat constructor.
  - destruct (lt y x) eqn:Hyx.
    + constructor; [exact IH|].
      apply (Permutation_Forall (insert_sorted_permutation lt x l')).
      constructor; [|exact Hall]. apply (swo_asymmetric lt y x Hswo Hyx).
    + constructor; [constructor; assumption|].
      constructor; [exact Hyx|].
      eapply List.Forall_impl; [|exact Hall]. intros z Hzy. simpl in Hzy.
      apply (swo_not_greater_transitive lt x y z Hswo Hyx Hzy).
Qed.

Lemma insertion_sort_orders : sort_orders insertion_sort.
Proof.
  intros T lt Hswo l. induction l as [|x l' IH]; simpl.
  - constructor.
  - apply insert_sorted_sorted; assumption.
Qed.

Lemma insert_sorted_map {T U : Type} (f : T -> U) (ltT : T -> T -> bool) (ltU : U -> U -> bool)
    (x : T) (l : list T) :
  (forall a b, ltU (f a) (f b) = ltT a b) ->
  insert_sorted ltU (f x) (map f l) = map f (insert_sorted ltT x l).
Proof.
  intros Hf. induction l as [|y r IH]; simpl; [reflexivity|].
  rewrite Hf. destruct (ltT y x); simpl; [rewrite IH|]; reflexivity.
Qed.

Lemma insertion_sort_compares : sort_compares insertion_sort.
Proof.
  intros T U f ltT ltU Hf l. unfold insertion_sort.
  induction l as [|x l' IH]; cbn [map fold_right]; [reflexivity|].
  rewrite IH. apply insert_sorted_map, Hf.
Qed.

(** [operator<] of [std::string], of [Table] and of [Key] are strict weak
    orderings. *)

Lemma string_compare_as_OT (a b : string) : String.compare a b = String_as_OT.compare a b.
Proof. reflexivity. Qed.

Lemma string_ltb_trans (a b c : string) :
  String.ltb a b = true -> String.ltb b c = true -> String.ltb a c = true.
Proof.
  unfold String.ltb.
  destruct (String.compare a b) eqn:Hab; try discriminate.
  destruct (String.compare b c) eqn:Hbc; try discriminate.
  intros _ _. rewrite string_compare_as_OT in Hab, Hbc.
  pose proof (StrictOrder_Transitive (R := String_as_OT.lt) a b c Hab Hbc) as Hac.
  unfold String_as_OT.lt in Hac. rewrite string_compare_as_OT, Hac. reflexivity.
Qed.

Lemma string_lt_strict_weak_order : strict_weak_order string_lt.
Proof.
  unfold string_lt. split.
  - apply string_ltb_irrefl.
  - apply string_ltb_trans.
  - intros x y z Hxy Hyx Hyz Hzy.
    rewrite (string_ltb_total x y Hxy Hyx), (string_ltb_total y z Hyz Hzy).
    split; apply string_ltb_irrefl.
Qed.

Lemma Table_ltb_strict_weak_order : strict_weak_order Table.ltb.
Proof.
  pose proof string_lt_strict_weak_order as [Hirr Htrans Hequiv].
  unfold Table.ltb. split; intros; eauto.
Qed.

Lemma Key_ltb_spec (a b : Key.t) :
  Key.ltb a b = true <->
  (KeyType.underlying (Key.key_type a) < KeyType.underlying (Key.key_type b))%N \/
  (Key.key_type a = Key.key_type b /\ string_lt (Key.name a) (Key.name b) = true).
Proof.
  unfold Key.ltb, KeyType.eqb, KeyType.ltb.
  destruct (Key.key_type a), (Key.key_type b); simpl;
    (split; [intros H; first [right; split; [reflexivity | exact H] | left; reflexivity | discriminate]
            | intros [H | [H1 H2]]; first [exact H2 | reflexivity | discriminate]]).
Qed.

Lemma Key_ltb_strict_weak_order : strict_weak_order Key.ltb.
Proof.
  pose proof string_lt_strict_weak_order as [Hirr Htrans Hequiv].
  unfold Key.ltb, KeyType.eqb, KeyType.ltb. split.
  - intros x. destruct (Key.key_type x); simpl; apply Hirr.
  - intros x y z.
    destruct (Key.key_type x), (Key.key_type y), (Key.key_type z); simpl;
      try discriminate; try reflexivity; apply Htrans.
  - intros x y z.
    destruct (Key.key_type x), (Key.key_type y), (Key.key_type z); simpl;
      try discriminate; try (intros; split; reflexivity); apply Hequiv.
Qed.

(** ** The table walk *)

Lemma ignored_empty (name : string) : ignored ∅ ∅ name = false.
Proof.
  unfold ignored.
  rewrite (bool_decide_eq_false_2 (name ∈ (∅ : gset string))) by apply not_elem_of_empty.
  rewrite (bool_decide_eq_true_2 ((∅ : gset string) = ∅)) by reflexivity.
  reflexivity.
Qed.

Lemma skip_ignored_tables_empty (tables : list Table.t) :
  skip_ignored_tables tables ∅ ∅ = tables.
Proof. destruct tables; simpl; [|rewrite ignored_empty]; reflexivity. Qed.

Lemma skip_ignored_tables_kept_nil ignore_tables only_tables (tables : list Table.t) :
  kept_tables ignore_tables only_tables tables = [] ->
  skip_ignored_tables tables ignore_tables only_tables = [].
Proof.
  induction tables as [|tab next IH]; simpl; [reflexivity|].
  destruct (ignored _ _ _); simpl; [exact IH | discriminate].
Qed.

Lemma skip_ignored_tables_kept_cons ignore_tables only_tables (tables : list Table.t)
    (tab : Table.t) (rest : list Table.t) :
  kept_tables ignore_tables only_tables tables = tab :: rest ->
  exists next,
    skip_ignored_tables tables ignore_tables only_tables = tab :: next /\
    kept_tables ignore_tables only_tables next = rest.
Proof.
  induction tables as [|tab' next IH]; simpl; [discriminate|].
  destruct (ignored _ _ _); simpl; [exact IH|].
  intros [= -> <-]. exists next. split; reflexivity.
Qed.

Section TableWalk.

Variable std_sort : forall T : Type, (T -> T -> bool) -> list T -> list T.
Variable columns_list : list Column.t -> ColumnIndices -> string.
Variables ignore_tables only_tables : gset string.

Let loop := check_tables_loop std_sort columns_list ignore_tables only_tables.
Let skip := fun tables => skip_ignored_tables tables ignore_tables only_tables.
Let kept := kept_tables ignore_tables only_tables.

(** The walk over a paired prefix leaves the two cursors behind it. *)
Lemma check_tables_loop_paired_prefix (from_done to_done from_kept to_kept : list Table.t) :
  Forall2 (tables_paired std_sort columns_list) from_done to_done ->
  forall from_tables to_tables,
  kept from_tables = from_done ++ from_kept ->
  kept to_tables = to_done ++ to_kept ->
  exists from_table to_table,
    kept from_table = from_kept /\ kept to_table = to_kept /\
    loop (skip from_tables) (skip to_tables) = loop (skip from_table) (skip to_table).
Proof.
  induction 1 as [|from_tab to_tab from_done to_done [Hname Hmatch] _ IH];
    intros from_tables to_tables Hfrom Hto.
  - exists from_tables, to_tables. auto.
  - destruct (skip_ignored_tables_kept_cons _ _ _ _ _ Hfrom) as (from_next & Hskip_from & Hfrom').
    destruct (skip_ignored_tables_kept_cons _ _ _ _ _ Hto) as (to_next & Hskip_to & Hto').
    destruct (IH _ _ Hfrom' Hto') as (from_table & to_table & H1 & H2 & H3).
    exists from_table, to_table. split; [exact H1|]. split; [exact H2|].
    rewrite <- H3. unfold skip, loop. rewrite Hskip_from, Hskip_to.
    rewrite check_tables_loop_equation_4. unfold string_gt, string_lt.
    rewrite <- Hname, string_ltb_irrefl, Hmatch. reflexivity.
Qed.

Lemma check_tables_loop_missing_at_end (from_table to_table : list Table.t)
    (from_tab : Table.t) (from_rest : list Table.t) :
  kept from_table = from_tab :: from_rest ->
  kept to_table = [] ->
  loop (skip from_table) (skip to_table) =
  report_schema_mismatch ("Missing table " +:+ Table.name from_tab).
Proof.
  intros Hfrom Hto.
  destruct (skip_ignored_tables_kept_cons _ _ _ _ _ Hfrom) as (from_next & Hskip_from & _).
  unfold skip, loop. rewrite Hskip_from, (skip_ignored_tables_kept_nil _ _ _ Hto).
  apply check_tables_loop_equation_3.
Qed.

Lemma check_tables_loop_missing_before (from_table to_table : list Table.t)
    (from_tab to_tab : Table.t) (from_rest to_rest : list Table.t) :
  kept from_table = from_tab :: from_rest ->
  kept to_table = to_tab :: to_rest ->
  string_gt (Table.name to_tab) (Table.name from_tab) = true ->
  loop (skip from_table) (skip to_table) =
  report_schema_mismatch ("Missing table " +:+ Table.name from_tab).
Proof.
  intros Hfrom Hto Hgt.
  destruct (skip_ignored_tables_kept_cons _ _ _ _ _ Hfrom) as (from_next & Hskip_from & _).
  destruct (skip_ignored_tables_kept_cons _ _ _ _ _ Hto) as (to_next & Hskip_to & _).
  unfold skip, loop. rewrite Hskip_from, Hskip_to, check_tables_loop_equation_4, Hgt.
  reflexivity.
Qed.

Lemma check_tables_loop_extra_before (from_table to_table : list Table.t)
    (from_tab to_tab : Table.t) (from_rest to_rest : list Table.t) :
  kept from_table = from_tab :: from_rest ->
  kept to_table = to_tab :: to_rest ->
  string_lt (Table.name to_tab) (Table.name from_tab) = true ->
  loop (skip from_table) (skip to_table) =
  report_schema_mismatch ("Extra table " +:+ Table.name to_tab).
Proof.
  intros Hfrom Hto Hlt.
  destruct (skip_ignored_tables_kept_cons _ _ _ _ _ Hfrom) as (from_next & Hskip_from & _).
  destruct (skip_ignored_tables_kept_cons _ _ _ _ _ Hto) as (to_next & Hskip_to & _).
  unfold skip, loop. rewrite Hskip_from, Hskip_to, check_tables_loop_equation_4.
  unfold string_gt. rewrite (string_ltb_asym _ _ Hlt), Hlt. reflexivity.
Qed.

Lemma check_tables_loop_extra_at_end (from_table to_table : list Table.t)
    (to_tab : Table.t) (to_rest : list Table.t) :
  kept from_table = [] ->
  kept to_table = to_tab :: to_rest ->
  loop (skip from_table) (skip to_table) =
  report_schema_mismatch ("Extra table " +:+ Table.name to_tab).
Proof.
  intros Hfrom Hto.
  destruct (skip_ignored_tables_kept_cons _ _ _ _ _ Hto) as (to_next & Hskip_to & _).
  unfold skip, loop. rewrite (skip_ignored_tables_kept_nil _ _ _ Hfrom), Hskip_to.
  apply check_tables_loop_equation_2.
Qed.

End TableWalk.

(** What the contract of [std::sort] fixes on short ranges. *)

Lemma sort_one sort (T : Type) (lt : T -> T -> bool) (x : T) :
  sort_permutes sort -> sort T lt [x] = [x].
Proof. intros Hperm. apply Permutation_length_1_inv, Hperm. Qed.

Lemma sort_two sort (T : Type) (lt : T -> T -> bool) (x y : T) :
  sort_permutes sort -> sort_orders sort -> strict_weak_order lt ->
  lt x y = true -> sort T lt [x; y] = [x; y].
Proof.
  intros Hperm Horders Hswo Hxy.
  destruct (Permutation_length_2_inv (Hperm T lt [x; y])) as [H|H]; [exact H|].
  pose proof (Horders T lt Hswo [x; y]) as Hsorted. rewrite H in Hsorted.
  apply StronglySorted_inv in Hsorted as [_ Hall].
  apply Forall_inv in Hall. congruence.
Qed.

Section TablesMatch.

Variable std_sort : forall T : Type, (T -> T -> bool) -> list T -> list T.
Variable columns_list : list Column.t -> ColumnIndices -> string.
Hypothesis std_sort_permutes : sort_permutes std_sort.
Hypothesis std_sort_orders : sort_orders std_sort.

(** C2. [std::sort] orders the two table lists by name.  Let the sorted lists
    be filtered through [ignore_tables] and [only_tables], and let the
    tables before the two cursors be paired.  The walk raises "Missing table X", [X] the
    from-side table under the cursor, when the to side is exhausted or its
    table's name is greater; it raises "Extra table Y", [Y] the to-side
    table under the cursor, when that table's name is less, or when the
    from side is exhausted and a to-table remains.  In particular the
    tables [a, b] against the table [a] raise "Missing table b". *)
Theorem check_tables_match_missing_extra :
  (forall tables : list Table.t,
      Permutation tables (std_sort Table.t Table.ltb tables) /\
      sorted_by Table.ltb (std_sort Table.t Table.ltb tables)) /\
  (forall a b : Table.t, Table.ltb a b = string_lt (Table.name a) (Table.name b)) /\
  (forall (ignore_tables only_tables : gset string) (from_tables to_tables : list Table.t)
          (from_done to_done : list Table.t),
      let from_kept :=
        kept_tables ignore_tables only_tables (std_sort Table.t Table.ltb from_tables) in
      let to_kept :=
        kept_tables ignore_tables only_tables (std_sort Table.t Table.ltb to_tables) in
      let outcome :=
        check_tables_match std_sort columns_list from_tables to_tables
          ignore_tables only_tables in
      Forall2 (tables_paired std_sort columns_list) from_done to_done ->
      (forall from_tab from_rest,
          from_kept = from_done ++ from_tab :: from_rest ->
          to_kept = to_done ->
          outcome = Raise (schema_mismatch ("Missing table " +:+ Table.name from_tab))) /\
      (forall from_tab from_rest to_tab to_rest,
          from_kept = from_done ++ from_tab :: from_rest ->
          to_kept = to_done ++ to_tab :: to_rest ->
          string_gt (Table.name to_tab) (Table.name from_tab) = true ->
          outcome = Raise (schema_mismatch ("Missing table " +:+ Table.name from_tab))) /\
      (forall from_tab from_rest to_tab to_rest,
          from_kept = from_done ++ from_tab :: from_rest ->
          to_kept = to_done ++ to_tab :: to_rest ->
          string_lt (Table.name to_tab) (Table.name from_tab) = true ->
          outcome = Raise (schema_mismatch ("Extra table " +:+ Table.name to_tab))) /\
      (forall to_tab to_rest,
          from_kept = from_done ->
          to_kept = to_done ++ to_tab :: to_rest ->
          outcome = Raise (schema_mismatch ("Extra table " +:+ Table.name to_tab)))) /\
  check_schema_match std_sort columns_list
    (Database.mk [Table.Table "a"; Table.Table "b"]) (Database.mk [Table.Table "a"]) ∅ ∅ =
  Raise (schema_mismatch "Missing table b").
Proof.
  split; [|split; [|split]].
  - intros tables. split; [apply std_sort_permutes|].
    apply std_sort_orders, Table_ltb_strict_weak_order.
  - reflexivity.
  - intros ignore_tables only_tables from_tables to_tables from_done to_done
      from_kept to_kept outcome Hdone.
    repeat split.
    + intros from_tab from_rest Hfrom Hto. rewrite <- (app_nil_r to_done) in Hto.
      destruct (check_tables_loop_paired_prefix _ _ _ _ _ _ _ _ Hdone _ _ Hfrom Hto)
        as (from_table & to_table & H1 & H2 & H3).
      unfold outcome, check_tables_match. rewrite H3.
      eapply check_tables_loop_missing_at_end; eassumption.
    + intros from_tab from_rest to_tab to_rest Hfrom Hto Hgt.
      destruct (check_tables_loop_paired_prefix _ _ _ _ _ _ _ _ Hdone _ _ Hfrom Hto)
        as (from_table & to_table & H1 & H2 & H3).
      unfold outcome, check_tables_match. rewrite H3.
      eapply check_tables_loop_missing_before; eassumption.
    + intros from_tab from_rest to_tab to_rest Hfrom Hto Hlt.
      destruct (check_tables_loop_paired_prefix _ _ _ _ _ _ _ _ Hdone _ _ Hfrom Hto)
        as (from_table & to_table & H1 & H2 & H3).
      unfold outcome, check_tables_match. rewrite H3.
      eapply check_tables_loop_extra_before; eassumption.
    + intros to_tab to_rest Hfrom Hto. rewrite <- (app_nil_r from_done) in Hfrom.
      destruct (check_tables_loop_paired_prefix _ _ _ _ _ _ _ _ Hdone _ _ Hfrom Hto)
        as (from_table & to_table & H1 & H2 & H3).
      unfold outcome, check_tables_match. rewrite H3.
      eapply check_tables_loop_extra_at_end; eassumption.
  - unfold check_schema_match, check_tables_match. cbn [Database.tables].
    rewrite (sort_two std_sort _ _ _ _ std_sort_permutes std_sort_orders
               Table_ltb_strict_weak_order) by reflexivity.
    rewrite (sort_one std_sort _ _ _ std_sort_permutes).
    rewrite !skip_ignored_tables_empty, check_tables_loop_equation_4.
    cbn [Table.Table Table.name].
    replace (string_gt "a" "a") with false by reflexivity.
    replace (string_lt "a" "a") with false by reflexivity.
    fold (Table.Table "a"). rewrite check_table_match_same_names by reflexivity.
    cbn [bind]. rewrite !skip_ignored_tables_empty.
    apply check_tables_loop_equation_3.
Qed.

End TablesMatch.

Lemma check_tables_match_missing_extra_witness :
  let a := Table.Table "a" in
  let b := Table.Table "b" in
  let c := Table.Table "c" in
  let d := Table.Table "d" in
  let x := Table.Table "x" in
  check_tables_match insertion_sort columns_list_names [c; a] [a] ∅ ∅ =
    Raise (schema_mismatch "Missing table c") /\
  check_tables_match insertion_sort columns_list_names [c; a] [d; x; a] {["x"]} ∅ =
    Raise (schema_mismatch "Missing table c") /\
  check_tables_match insertion_sort columns_list_names [a; c] [b; a] ∅ {["a"; "b"; "c"]} =
    Raise (schema_mismatch "Extra table b") /\
  check_tables_match insertion_sort columns_list_names [x; a] [c; a] {["x"]} ∅ =
    Raise (schema_mismatch "Extra table c") /\
  check_schema_match insertion_sort columns_list_names
    (Database.mk [a; b]) (Database.mk [a]) ∅ ∅ = Raise (schema_mismatch "Missing table b").
Proof.
  intros a b c d x.
  pose proof (check_tables_match_missing_extra insertion_sort columns_list_names
                insertion_sort_permutes insertion_sort_orders) as (_ & _ & Hwalk & Hexample).
  assert (Hpaired : Forall2 (tables_paired insertion_sort columns_list_names) [a] [a]).
  { constructor; [split; reflexivity | constructor]. }
  split; [|split; [|split; [|split]]].
  - apply (proj1 (Hwalk ∅ ∅ [c; a] [a] [a] [a] Hpaired) c []); reflexivity.
  - apply (proj1 (proj2 (Hwalk {["x"]} ∅ [c; a] [d; x; a] [a] [a] Hpaired)) c [] d []);
      reflexivity.
  - apply (proj1 (proj2 (proj2 (Hwalk ∅ {["a"; "b"; "c"]} [a; c] [b; a] [a] [a] Hpaired)))
             c [] b []); reflexivity.
  - apply (proj2 (proj2 (proj2 (Hwalk {["x"]} ∅ [x; a] [c; a] [a] [a] Hpaired))) c []);
      reflexivity.
  - exact Hexample.
Defined.

(** ** Table equality *)

Lemma PrimaryKeyType_eqb_eq (a b : PrimaryKeyType.t) :
  PrimaryKeyType.eqb a b = true <-> a = b.
Proof. destruct a, b; simpl; split; congruence. Qed.

Lemma std_equal_whole (l1 l2 : list N) :
  length l1 = length l2 ->
  (std_equal N.eqb (length l1) l1 l2 = true <-> l1 = l2).
Proof.
  revert l2. induction l1 as [|x r1 IH]; intros [|y r2]; simpl; try discriminate.
  - split; reflexivity.
  - intros [= Hlen]. rewrite andb_true_iff, N.eqb_eq, (IH r2 Hlen).
    split; [intros [-> ->]; reflexivity | intros [= -> ->]; auto].
Qed.

(** [std::equal] is only reached when the two counts are equal, and then it
    stays inside both vectors. *)
Lemma same_primary_key_as_in_range (a other : Table.t) :
  Table.explicit_columns a = Table.explicit_columns other ->
  Table.explicit_columns a <= length (Table.primary_key_columns a) /\
  Table.explicit_columns a <= length (Table.primary_key_columns other).
Proof.
  unfold Table.explicit_columns.
  destruct (PrimaryKeyType.eqb (Table.primary_key_type a) _),
           (PrimaryKeyType.eqb (Table.primary_key_type other) _); lia.
Qed.

Lemma same_primary_key_as_spec (a other : Table.t) :
  Table.same_primary_key_as a other = true <->
  explicit_primary_key_columns a = explicit_primary_key_columns other.
Proof.
  unfold Table.same_primary_key_as, Table.explicit_columns, explicit_primary_key_columns.
  destruct (PrimaryKeyType.eqb (Table.primary_key_type a) _),
           (PrimaryKeyType.eqb (Table.primary_key_type other) _).
  - rewrite andb_true_iff, Nat.eqb_eq. split.
    + intros [Hlen Hequal]. apply (std_equal_whole _ _ Hlen), Hequal.
    + intros Heq. rewrite Heq. split; [reflexivity|].
      apply std_equal_whole; reflexivity.
  - destruct (Table.primary_key_columns a); simpl; split; congruence.
  - destruct (Table.primary_key_columns other); simpl; split; congruence.
  - simpl. split; reflexivity.
Qed.

(** C10. [Table::operator==] compares [primary_key_columns] only where
    [primary_key_type] is [explicit_primary_key]: two tables of which neither
    has an explicit primary key, with equal names, equal columns and equal
    keys, compare equal, whatever their [primary_key_columns] are; and two
    tables that both have an explicit primary key have the same primary key
    exactly when their [primary_key_columns] are equal. *)
Theorem Table_eqb_ignores_surrogate_primary_key (a other : Table.t) :
  (Table.primary_key_type a <> PrimaryKeyType.explicit_primary_key ->
   Table.primary_key_type other <> PrimaryKeyType.explicit_primary_key ->
   String.eqb (Table.name a) (Table.name other) = true ->
   list_eqb Column.eqb (Table.columns a) (Table.columns other) = true ->
   list_eqb Key.eqb (Table.keys a) (Table.keys other) = true ->
   Table.same_primary_key_as a other = true /\ Table.eqb a other = true) /\
  (Table.primary_key_type a = PrimaryKeyType.explicit_primary_key ->
   Table.primary_key_type other = PrimaryKeyType.explicit_primary_key ->
   (Table.same_primary_key_as a other = true <->
    Table.primary_key_columns a = Table.primary_key_columns other)).
Proof.
  split.
  - intros Ha Hother Hname Hcolumns Hkeys.
    assert (Hsame : Table.same_primary_key_as a other = true).
    { apply same_primary_key_as_spec. unfold explicit_primary_key_columns.
      destruct (PrimaryKeyType.eqb (Table.primary_key_type a) _) eqn:Ea;
        [apply PrimaryKeyType_eqb_eq in Ea; contradiction|].
      destruct (PrimaryKeyType.eqb (Table.primary_key_type other) _) eqn:Eo;
        [apply PrimaryKeyType_eqb_eq in Eo; contradiction|].
      reflexivity. }
    split; [exact Hsame|].
    unfold Table.eqb. rewrite Hname, Hcolumns, Hsame, Hkeys. reflexivity.
  - intros Ha Hother. rewrite same_primary_key_as_spec.
    unfold explicit_primary_key_columns. rewrite Ha, Hother. simpl. reflexivity.
Qed.

Lemma Table_eqb_ignores_surrogate_primary_key_witness :
  Table.eqb
    (example_surrogate_table [1%N] PrimaryKeyType.suitable_unique_key "hstore")
    (example_surrogate_table [] PrimaryKeyType.no_available_key "ltree") = true /\
  (Table.same_primary_key_as
     (example_surrogate_table [0%N] PrimaryKeyType.explicit_primary_key "")
     (example_surrogate_table [0%N] PrimaryKeyType.explicit_primary_key "") = true <->
   [0%N] = [0%N]).
Proof.
  split.
  - apply (proj1 (Table_eqb_ignores_surrogate_primary_key
                    (example_surrogate_table [1%N] PrimaryKeyType.suitable_unique_key "hstore")
                    (example_surrogate_table [] PrimaryKeyType.no_available_key "ltree")));
      first [discriminate | reflexivity].
  - apply (proj2 (Table_eqb_ignores_surrogate_primary_key
                    (example_surrogate_table [0%N] PrimaryKeyType.explicit_primary_key "")
                    (example_surrogate_table [0%N] PrimaryKeyType.explicit_primary_key "")));
      reflexivity.
Defined.

(** ** The PostgreSQL normalization pass *)

Lemma substr0_length (s : string) (n : nat) :
  String.length (substr0 s n) = Nat.min n (String.length s).
Proof.
  unfold substr0. revert n. induction s as [|c s IH]; intros [|n]; simpl; try reflexivity.
  rewrite IH. reflexivity.
Qed.

Lemma substr0_prefix (s : string) (n : nat) : String.prefix (substr0 s n) s = true.
Proof.
  unfold substr0. revert n. induction s as [|c s IH]; intros [|n]; simpl; try reflexivity.
  destruct (Ascii.ascii_dec c c) as [_|Hne]; [apply IH | contradiction].
Qed.

Lemma string_prefix_refl (s : string) : String.prefix s s = true.
Proof.
  induction s as [|c s IH]; simpl; [reflexivity|].
  destruct (Ascii.ascii_dec c c) as [_|Hne]; [exact IH | contradiction].
Qed.

Lemma Forall2_map_r {A B : Type} (R : A -> B -> Prop) (f : A -> B) (l : list A) :
  (forall x, R x (f x)) -> Forall2 R l (map f l).
Proof. intros H. induction l; simpl; constructor; auto. Qed.

(** Case analysis on the tests of the pass, one variable at a time. *)
Ltac split_tests :=
  repeat match goal with
         | |- context [String.eqb ?a ?b] =>
             is_var a; destruct (String.eqb_spec a b); subst; cbn
         | |- context [N.eqb ?a ?b] =>
             is_var a; destruct (N.eqb_spec a b); subst; cbn
         end.

Lemma convert_unsupported_column_converted (column : Column.t) :
  column_converted column (PostgreSQLClient.convert_unsupported_column column).
Proof.
  destruct column as [name nullable column_type size scale default_type default_value flags
                        type_restriction reference_system enumeration_values db_type_def
                        filter_expression].
  split;
    unfold PostgreSQLClient.convert_unsupported_column, ColumnTypes.UINT, ColumnTypes.SINT,
      ColumnTypes.TEXT, ColumnTypes.BLOB;
    cbn; split_tests; first [reflexivity | congruence].
Qed.

Lemma convert_unsupported_key_converted (key : Key.t) :
  key_converted key (PostgreSQLClient.convert_unsupported_key key).
Proof.
  unfold PostgreSQLClient.convert_unsupported_key.
  destruct (Nat.leb_spec 63 (String.length (Key.name key))) as [Hlong|Hshort].
  - split; cbn [Key.set_name Key.name Key.key_type Key.columns]; try reflexivity.
    + apply substr0_prefix.
    + apply substr0_length.
  - split; try reflexivity.
    + apply string_prefix_refl.
    + lia.
Qed.

(** C7. [convert_unsupported_database_schema] keeps the tables, the columns
    and the keys in place and, in every column, turns the type [INT UNSIGNED]
    into [INT], the size of a 1-byte [INT] into 2 and that of a 3-byte [INT]
    into 4, and the size of a [TEXT] or [BLOB] into 0; in every key it cuts
    a name of 63 bytes or more to its first 63 bytes; it changes no other
    field of a column, a key or a table. *)
Theorem convert_unsupported_database_schema_converted (database : Database.t) :
  Forall2 table_converted
    (Database.tables database)
    (Database.tables (PostgreSQLClient.convert_unsupported_database_schema database)).
Proof.
  unfold PostgreSQLClient.convert_unsupported_database_schema. cbn [Database.tables].
  apply Forall2_map_r. intros table. split; try reflexivity;
    unfold PostgreSQLClient.convert_unsupported_table; cbn.
  - apply Forall2_map_r, convert_unsupported_column_converted.
  - apply Forall2_map_r, convert_unsupported_key_converted.
Qed.

Example convert_unsupported_database_schema_example :
  PostgreSQLClient.convert_unsupported_database_schema
    (Database.mk
       [Table.mk "T"
          [Column.Column "n" false DefaultType.no_default "" ColumnTypes.UINT 1 0
             ColumnFlags.nothing "" "" "";
           Column.Column "m" false DefaultType.no_default "" ColumnTypes.SINT 3 0
             ColumnFlags.nothing "" "" "";
           Column.Column "b" true DefaultType.no_default "" ColumnTypes.BLOB 2 0
             ColumnFlags.nothing "" "" ""]
          [0%N] PrimaryKeyType.explicit_primary_key
          [Key.mk "an_index_name_that_is_longer_than_the_sixty_three_bytes_postgresql_allows"
             KeyType.standard_key [1%N]] ""]) =
  Database.mk
    [Table.mk "T"
       [Column.Column "n" false DefaultType.no_default "" ColumnTypes.SINT 2 0
          ColumnFlags.nothing "" "" "";
        Column.Column "m" false DefaultType.no_default "" ColumnTypes.SINT 4 0
          ColumnFlags.nothing "" "" "";
        Column.Column "b" true DefaultType.no_default "" ColumnTypes.BLOB 0 0
          ColumnFlags.nothing "" "" ""]
       [0%N] PrimaryKeyType.explicit_primary_key
       [Key.mk "an_index_name_that_is_longer_than_the_sixty_three_bytes_postgre"
          KeyType.standard_key [1%N]] ""].
Proof. reflexivity. Qed.

(** ** Column defaults *)

Section ColumnDefault.

Variable PQescapeStringConn : string -> string.
Variable PQescapeByteaConn : string -> string.
Variable append_escaped_spatial_value_to : string -> string -> string.
Variable to_string_DefaultType : DefaultType.t -> string.

Let column_default :=
  PostgreSQLClient.column_default PQescapeStringConn PQescapeByteaConn
    append_escaped_spatial_value_to to_string_DefaultType.

(** C8. For a column whose [default_type] is [default_expression],
    [column_default] does not return " DEFAULT " followed by the
    [default_value]: it raises "Don't know how to express default of ...". *)
Theorem column_default_expression_raises (table : Table.t) :
  column_default table
    (Column.Column "created_at" false DefaultType.default_expression "CURRENT_TIMESTAMP"
       ColumnTypes.DTTM 0 0 ColumnFlags.nothing "" "" "") =
  Raise (runtime_error
           ("Don't know how to express default of created_at ("
            +:+ to_string_DefaultType DefaultType.default_expression +:+ ")")).
Proof. reflexivity. Qed.

(** The other three cases of the [switch] end in [break] and return. *)
Lemma column_default_raises_iff (table : Table.t) (column : Column.t) :
  (exists e, column_default table column = Raise e) <->
  Column.default_type column = DefaultType.default_expression.
Proof.
  unfold column_default, PostgreSQLClient.column_default.
  destruct (Column.default_type column); split;
    try (intros [e He]; discriminate); try discriminate; try reflexivity.
  intros _. eexists. reflexivity.
Qed.

End ColumnDefault.

(** ** The opening of the protocol *)

(** C6. The earliest supported protocol version is 7 and the latest 9, but
    the first command [sync_to] writes is "protocol" with the version 1,
    which is below the earliest supported version. *)
Theorem sync_to_opens_with_protocol_1
    (std_sort : forall T : Type, (T -> T -> bool) -> list T -> list T)
    (columns_list : list Column.t -> ColumnIndices -> string)
    (client_database_schema : Database.t) (protocol_reply : Z) (schema_reply : Database.t) :
  EARLIEST_PROTOCOL_VERSION_SUPPORTED = 7%Z /\
  LATEST_PROTOCOL_VERSION_SUPPORTED = 9%Z /\
  (exists rest,
      fst (sync_to std_sort columns_list client_database_schema protocol_reply schema_reply) =
      Command.mk "protocol" [1%Z] :: rest) /\
  (1 < EARLIEST_PROTOCOL_VERSION_SUPPORTED)%Z.
Proof.
  split; [reflexivity|]. split; [reflexivity|]. split; [|reflexivity].
  unfold sync_to. destruct (check_schema_match _ _ _ _ _ _); eexists; reflexivity.
Qed.

Example sync_to_empty_databases :
  sync_to insertion_sort columns_list_names (Database.mk []) 9 (Database.mk []) =
  ([Command.mk "protocol" [1%Z]; Command.mk "schema" []; Command.mk "quit" []], Ok tt).
Proof. reflexivity. Qed.

(** ** The key walk *)

Section KeyWalk.

Variable columns_list : list Column.t -> ColumnIndices -> string.
Variable table : Table.t.

Lemma check_key_match_paired (from_key to_key : Key.t) :
  keys_paired from_key to_key -> check_key_match columns_list table from_key to_key = Ok tt.
Proof.
  intros (_ & Hunique & Hcolumns). unfold check_key_match.
  rewrite Hunique, Hcolumns, Bool.eqb_reflx, list_eqb_N_refl. reflexivity.
Qed.

Lemma check_keys_loop_paired_prefix (from_done to_done from_key to_key : list Key.t) :
  Forall2 keys_paired from_done to_done ->
  check_keys_loop columns_list table (from_done ++ from_key) (to_done ++ to_key) =
  check_keys_loop columns_list table from_key to_key.
Proof.
  induction 1 as [|from_k to_k from_done to_done Hpaired _ IH]; [reflexivity|].
  cbn [app check_keys_loop]. unfold string_gt, string_lt.
  rewrite (proj1 Hpaired), string_ltb_irrefl.
  rewrite (check_key_match_paired _ _ Hpaired). exact IH.
Qed.

Lemma check_keys_loop_unique_flag (from_k to_k : Key.t) (from_rest to_rest : list Key.t) :
  Key.name to_k = Key.name from_k ->
  Key.unique from_k <> Key.unique to_k ->
  check_keys_loop columns_list table (from_k :: from_rest) (to_k :: to_rest) =
  report_schema_mismatch
    ("Mismatching unique flag on table " +:+ Table.name table +:+ " key " +:+ Key.name from_k).
Proof.
  intros Hname Hunique. cbn [check_keys_loop]. unfold string_gt, string_lt.
  rewrite Hname, string_ltb_irrefl. unfold check_key_match.
  destruct (Bool.eqb (Key.unique from_k) (Key.unique to_k)) eqn:E;
    [apply Bool.eqb_prop in E; contradiction | reflexivity].
Qed.

Lemma check_keys_loop_columns (from_k to_k : Key.t) (from_rest to_rest : list Key.t) :
  Key.name to_k = Key.name from_k ->
  Key.unique from_k = Key.unique to_k ->
  Key.columns from_k <> Key.columns to_k ->
  check_keys_loop columns_list table (from_k :: from_rest) (to_k :: to_rest) =
  report_schema_mismatch
    ("Mismatching columns " +:+ columns_list (Table.columns table) (Key.columns to_k)
     +:+ " on table " +:+ Table.name table +:+ " key " +:+ Key.name from_k
     +:+ ", should have " +:+ columns_list (Table.columns table) (Key.columns from_k)).
Proof.
  intros Hname Hunique Hcolumns. cbn [check_keys_loop]. unfold string_gt, string_lt.
  rewrite Hname, string_ltb_irrefl. unfold check_key_match.
  rewrite Hunique, Bool.eqb_reflx.
  destruct (list_eqb N.eqb (Key.columns from_k) (Key.columns to_k)) eqn:E;
    [apply list_eqb_N_eq in E; contradiction | reflexivity].
Qed.

End KeyWalk.

Section KeysMatch.

Variable std_sort : forall T : Type, (T -> T -> bool) -> list T -> list T.
Variable columns_list : list Column.t -> ColumnIndices -> string.
Hypothesis std_sort_permutes : sort_permutes std_sort.
Hypothesis std_sort_orders : sort_orders std_sort.

(** C9 (amended).  [check_keys_match] sorts both key lists by
    [Key::operator<], the order by kind and then by name, and walks the two
    sorted lists in lockstep, comparing the names of the two keys under the
    cursors and nothing else.  Behind a paired prefix it raises "Missing key
    X on table T" when the to side is exhausted or its key's name is
    greater, and "Extra key Y on table T" when that name is less or when a
    to-key is left over at the end.  Two keys with equal names must have
    equal unique flags, or "Mismatching unique flag on table T key X" is
    raised, which names no column list; and, the unique flags being equal,
    equal column sequences, or "Mismatching columns ... on table T key X,
    should have ..." is raised, which names both column lists. *)
Theorem check_keys_match_walk (table : Table.t) (from_keys to_keys : list Key.t) :
  let from_sorted := std_sort Key.t Key.ltb from_keys in
  let to_sorted := std_sort Key.t Key.ltb to_keys in
  let outcome := check_keys_match std_sort columns_list table from_keys to_keys in
  (Permutation from_keys from_sorted /\ sorted_by Key.ltb from_sorted /\
   Permutation to_keys to_sorted /\ sorted_by Key.ltb to_sorted) /\
  (forall a b : Key.t,
      Key.ltb a b = true <->
      (KeyType.underlying (Key.key_type a) < KeyType.underlying (Key.key_type b))%N \/
      (Key.key_type a = Key.key_type b /\ string_lt (Key.name a) (Key.name b) = true)) /\
  (forall from_done to_done : list Key.t,
      Forall2 keys_paired from_done to_done ->
      (from_sorted = from_done -> to_sorted = to_done -> outcome = Ok tt) /\
      (forall from_k from_rest,
          from_sorted = from_done ++ from_k :: from_rest ->
          to_sorted = to_done ->
          outcome =
          Raise (schema_mismatch
                   ("Missing key " +:+ Key.name from_k +:+ " on table " +:+ Table.name table))) /\
      (forall from_k from_rest to_k to_rest,
          from_sorted = from_done ++ from_k :: from_rest ->
          to_sorted = to_done ++ to_k :: to_rest ->
          string_gt (Key.name to_k) (Key.name from_k) = true ->
          outcome =
          Raise (schema_mismatch
                   ("Missing key " +:+ Key.name from_k +:+ " on table " +:+ Table.name table))) /\
      (forall from_k from_rest to_k to_rest,
          from_sorted = from_done ++ from_k :: from_rest ->
          to_sorted = to_done ++ to_k :: to_rest ->
          string_lt (Key.name to_k) (Key.name from_k) = true ->
          outcome =
          Raise (schema_mismatch
                   ("Extra key " +:+ Key.name to_k +:+ " on table " +:+ Table.name table))) /\
      (forall to_k to_rest,
          from_sorted = from_done ->
          to_sorted = to_done ++ to_k :: to_rest ->
          outcome =
          Raise (schema_mismatch
                   ("Extra key " +:+ Key.name to_k +:+ " on table " +:+ Table.name table))) /\
      (forall from_k from_rest to_k to_rest,
          from_sorted = from_done ++ from_k :: from_rest ->
          to_sorted = to_done ++ to_k :: to_rest ->
          Key.name to_k = Key.name from_k ->
          Key.unique from_k <> Key.unique to_k ->
          outcome =
          Raise (schema_mismatch
                   ("Mismatching unique flag on table " +:+ Table.name table
                    +:+ " key " +:+ Key.name from_k))) /\
      (forall from_k from_rest to_k to_rest,
          from_sorted = from_done ++ from_k :: from_rest ->
          to_sorted = to_done ++ to_k :: to_rest ->
          Key.name to_k = Key.name from_k ->
          Key.unique from_k = Key.unique to_k ->
          Key.columns from_k <> Key.columns to_k ->
          outcome =
          Raise (schema_mismatch
                   ("Mismatching columns "
                    +:+ columns_list (Table.columns table) (Key.columns to_k)
                    +:+ " on table " +:+ Table.name table +:+ " key " +:+ Key.name from_k
                    +:+ ", should have "
                    +:+ columns_list (Table.columns table) (Key.columns from_k))))).
Proof.
  intros from_sorted to_sorted outcome.
  split; [|split].
  - repeat split; first [apply std_sort_permutes
                        | apply std_sort_orders, Key_ltb_strict_weak_order].
  - apply Key_ltb_spec.
  - intros from_done to_done Hdone.
    unfold outcome, check_keys_match. fold from_sorted to_sorted.
    split; [|split; [|split; [|split; [|split; [|split]]]]].
    + intros -> ->. rewrite <- (app_nil_r from_done), <- (app_nil_r to_done).
      rewrite (check_keys_loop_paired_prefix _ _ _ _ _ _ Hdone). reflexivity.
    + intros from_k from_rest -> ->. rewrite <- (app_nil_r to_done).
      rewrite (check_keys_loop_paired_prefix _ _ _ _ _ _ Hdone). reflexivity.
    + intros from_k from_rest to_k to_rest -> -> Hgt.
      rewrite (check_keys_loop_paired_prefix _ _ _ _ _ _ Hdone).
      cbn [check_keys_loop]. rewrite Hgt. reflexivity.
    + intros from_k from_rest to_k to_rest -> -> Hlt.
      rewrite (check_keys_loop_paired_prefix _ _ _ _ _ _ Hdone).
      cbn [check_keys_loop]. unfold string_gt.
      rewrite (string_ltb_asym _ _ Hlt), Hlt. reflexivity.
    + intros to_k to_rest -> ->. rewrite <- (app_nil_r from_done) at 1.
      rewrite (check_keys_loop_paired_prefix _ _ _ _ _ _ Hdone). reflexivity.
    + intros from_k from_rest to_k to_rest -> -> Hname Hunique.
      rewrite (check_keys_loop_paired_prefix _ _ _ _ _ _ Hdone).
      apply check_keys_loop_unique_flag; assumption.
    + intros from_k from_rest to_k to_rest -> -> Hname Hunique Hcolumns.
      rewrite (check_keys_loop_paired_prefix _ _ _ _ _ _ Hdone).
      apply check_keys_loop_columns; assumption.
Qed.

End KeysMatch.

Lemma check_keys_match_walk_witness :
  let table := example_table [example_id_column; example_x_column] in
  check_keys_match insertion_sort columns_list_names table
    [example_by_x_key; example_by_id_key] [example_by_id_key] =
    Raise (schema_mismatch "Missing key by_x on table T") /\
  check_keys_match insertion_sort columns_list_names table
    [example_by_id_key] [example_by_x_key; example_by_id_key] =
    Raise (schema_mismatch "Extra key by_x on table T") /\
  check_keys_match insertion_sort columns_list_names table
    [example_by_x_key; example_by_id_key] [example_by_id_key; example_by_x_unique_key] =
    Raise (schema_mismatch "Mismatching unique flag on table T key by_x") /\
  check_keys_match insertion_sort columns_list_names table
    [example_by_x_key; example_by_id_key] [example_by_x_id_key; example_by_id_key] =
    Raise (schema_mismatch "Mismatching columns (x, id) on table T key by_x, should have (x)").
Proof.
  intros table.
  assert (Hpaired : Forall2 keys_paired [example_by_id_key] [example_by_id_key]).
  { constructor; [repeat split | constructor]. }
  split; [|split; [|split]].
  - pose proof (check_keys_match_walk insertion_sort columns_list_names
                  insertion_sort_permutes insertion_sort_orders table
                  [example_by_x_key; example_by_id_key] [example_by_id_key]) as H.
    cbv zeta in H. destruct H as (_ & _ & H).
    destruct (H _ _ Hpaired) as (_ & Hmissing & _).
    apply (Hmissing example_by_x_key []); reflexivity.
  - pose proof (check_keys_match_walk insertion_sort columns_list_names
                  insertion_sort_permutes insertion_sort_orders table
                  [example_by_id_key] [example_by_x_key; example_by_id_key]) as H.
    cbv zeta in H. destruct H as (_ & _ & H).
    destruct (H _ _ Hpaired) as (_ & _ & _ & _ & Hextra & _).
    apply (Hextra example_by_x_key []); reflexivity.
  - pose proof (check_keys_match_walk insertion_sort columns_list_names
                  insertion_sort_permutes insertion_sort_orders table
                  [example_by_x_key; example_by_id_key]
                  [example_by_id_key; example_by_x_unique_key]) as H.
    cbv zeta in H. destruct H as (_ & _ & H).
    destruct (H _ _ Hpaired) as (_ & _ & _ & _ & _ & Hunique & _).
    apply (Hunique example_by_x_key [] example_by_x_unique_key []);
      first [reflexivity | discriminate].
  - pose proof (check_keys_match_walk insertion_sort columns_list_names
                  insertion_sort_permutes insertion_sort_orders table
                  [example_by_x_key; example_by_id_key]
                  [example_by_x_id_key; example_by_id_key]) as H.
    cbv zeta in H. destruct H as (_ & _ & H).
    destruct (H _ _ Hpaired) as (_ & _ & _ & _ & _ & _ & Hcolumns).
    apply (Hcolumns example_by_x_key [] example_by_x_id_key []);
      first [reflexivity | discriminate].
Defined.

(** C9 (counterexample).  Two keys of the same name, one standard and one
    unique, are paired by the walk, and their unique flags are reported with
    a message that names no column list, whether their column sequences are
    equal or not, and whatever [columns_list] prints. *)
Lemma check_keys_match_unique_flag_names_no_columns :
  let table := example_table [example_id_column; example_x_column] in
  check_keys_match insertion_sort columns_list_names table
    [example_by_x_key] [example_by_x_unique_key] =
    Raise (schema_mismatch "Mismatching unique flag on table T key by_x") /\
  check_keys_match insertion_sort columns_list_names table
    [example_by_x_key] [example_by_x_id_unique_key] =
    Raise (schema_mismatch "Mismatching unique flag on table T key by_x") /\
  (forall columns_list : list Column.t -> ColumnIndices -> string,
      check_keys_match insertion_sort columns_list table
        [example_by_x_key] [example_by_x_id_unique_key] =
      Raise (schema_mismatch "Mismatching unique flag on table T key by_x")).
Proof. repeat split. Qed.

(** ** Unknown column types *)

Lemma map_eq_Forall2 {A B : Type} (f : A -> B) (l1 l2 : list A) :
  map f l1 = map f l2 -> Forall2 (fun a b => f a = f b) l1 l2.
Proof.
  revert l2. induction l1 as [|x r1 IH]; intros [|y r2]; simpl; try discriminate.
  - constructor.
  - intros [= Hxy Hrest]. constructor; [exact Hxy | apply IH, Hrest].
Qed.

Lemma without_db_type_def_table_names (table : Table.t) :
  map Column.name (Table.columns (without_db_type_def_table table)) =
  map Column.name (Table.columns table).
Proof.
  unfold without_db_type_def_table. cbn [Table.set_columns Table.columns].
  rewrite map_map. reflexivity.
Qed.

Section UnknownColumns.

Variable std_sort : forall T : Type, (T -> T -> bool) -> list T -> list T.
Variable columns_list : list Column.t -> ColumnIndices -> string.
Hypothesis std_sort_compares : sort_compares std_sort.

Lemma tables_paired_same_but_db_type_def (from_table to_table : Table.t) :
  without_db_type_def_table from_table = without_db_type_def_table to_table ->
  tables_paired std_sort columns_list from_table to_table.
Proof.
  intros Hsame. split.
  - exact (f_equal Table.name Hsame).
  - apply check_table_match_same_names.
    + rewrite <- (without_db_type_def_table_names from_table),
        <- (without_db_type_def_table_names to_table), Hsame. reflexivity.
    + exact (f_equal Table.primary_key_columns Hsame).
    + exact (f_equal Table.keys Hsame).
Qed.

(** C5 (amended).  Schema matching does not look at
    [db_type_def]: two databases that are the same but for the
    [db_type_def] strings of their columns, of type [UNKNOWN] or any other,
    pass [check_schema_match]. *)
Theorem check_schema_match_ignores_db_type_def (from_database to_database : Database.t)
    (ignore_tables only_tables : gset string) :
  same_but_db_type_def from_database to_database ->
  check_schema_match std_sort columns_list from_database to_database
    ignore_tables only_tables = Ok tt.
Proof.
  unfold same_but_db_type_def, without_db_type_def. intros [= Hsame].
  unfold check_schema_match, check_tables_match. apply check_tables_loop_paired.
  eapply List.Forall2_impl; [exact tables_paired_same_but_db_type_def|].
  apply map_eq_Forall2.
  rewrite <- !(std_sort_compares _ _ without_db_type_def_table Table.ltb Table.ltb)
    by reflexivity.
  rewrite Hsame. reflexivity.
Qed.

End UnknownColumns.

Lemma check_schema_match_ignores_db_type_def_witness :
  check_schema_match insertion_sort columns_list_names
    (example_unknown_database "hstore") (example_unknown_database "ltree") ∅ {["T"]} = Ok tt.
Proof.
  apply (check_schema_match_ignores_db_type_def insertion_sort columns_list_names
           insertion_sort_compares
           (example_unknown_database "hstore") (example_unknown_database "ltree")).
  reflexivity.
Defined.

(** C5 (counterexample).  Two databases that are the same but for the
    [db_type_def] of a column of type [UNKNOWN], "hstore" on one side and
    "ltree" on the other, pass [check_schema_match]. *)
Lemma check_schema_match_unknown_db_type_def_differs :
  let from_database := example_unknown_database "hstore" in
  let to_database := example_unknown_database "ltree" in
  from_database <> to_database /\
  same_but_db_type_def from_database to_database /\
  map (fun table => map (fun column => (Column.column_type column, Column.db_type_def column))
                        (Table.columns table))
      (Database.tables from_database) = [[]; [("INT", ""); ("UNKNOWN", "hstore")]] /\
  map (fun table => map (fun column => (Column.column_type column, Column.db_type_def column))
                        (Table.columns table))
      (Database.tables to_database) = [[]; [("INT", ""); ("UNKNOWN", "ltree")]] /\
  check_schema_match insertion_sort columns_list_names from_database to_database ∅ ∅ = Ok tt.
Proof.
  intros from_database to_database.
  split; [discriminate|]. repeat split.
Qed.

(** * Further properties of schema matching *)

(** ** What the column walk accepts and reports *)

Lemma check_columns_loop_ok_iff (table : Table.t) (from_columns to_columns : list Column.t) :
  check_columns_loop table from_columns to_columns = Ok tt <->
  map Column.name from_columns = map Column.name to_columns.
Proof.
  split; [|apply check_columns_loop_same_names].
  revert to_columns.
  induction from_columns as [|from_col from_next IH]; intros [|to_col to_next];
    cbn [check_columns_loop map]; try discriminate; [reflexivity|].
  destruct (String.eqb_spec (Column.name to_col) (Column.name from_col)) as [Heq|Hne].
  - cbn [check_column_match bind]. intros Hnext. rewrite Heq, (IH _ Hnext). reflexivity.
  - destruct (is_end _); [discriminate|]. destruct (is_end _); discriminate.
Qed.

(** X1. [check_columns_match] returns without raising exactly when the two
    tables have the same column names in the same order. *)
Theorem check_columns_match_ok_iff (table : Table.t) (from_columns to_columns : list Column.t) :
  check_columns_match table from_columns to_columns = Ok tt <->
  map Column.name from_columns = map Column.name to_columns.
Proof. apply check_columns_loop_ok_iff. Qed.

Lemma find_if_name_is_end_true (name : string) (columns : list Column.t) :
  ~ In name (map Column.name columns) -> is_end (find_if (name_is name) columns) = true.
Proof.
  intros Hnot. destruct (is_end (find_if (name_is name) columns)) eqn:E; [reflexivity|].
  apply find_if_name_is_end in E. contradiction.
Qed.

(** X2. Behind a matched prefix, a from-column whose name occurs nowhere in
    the rest of the to list, the current to-column included, is reported as
    "Missing column X on table T"; this covers the to list being
    exhausted. *)
Theorem check_columns_match_missing (table : Table.t) (from_done to_done : list Column.t)
    (from_col : Column.t) (from_rest to_column : list Column.t) :
  map Column.name from_done = map Column.name to_done ->
  ~ In (Column.name from_col) (map Column.name to_column) ->
  check_columns_match table (from_done ++ from_col :: from_rest) (to_done ++ to_column) =
  Raise (schema_mismatch
           ("Missing column " +:+ Column.name from_col +:+ " on table " +:+ Table.name table)).
Proof.
  intros Hdone Hnot. unfold check_columns_match.
  rewrite (check_columns_loop_matched_prefix _ _ _ _ _ Hdone).
  destruct to_column as [|to_col to_rest]; [reflexivity|].
  cbn [check_columns_loop].
  destruct (String.eqb_spec (Column.name to_col) (Column.name from_col)) as [Heq|Hne].
  - exfalso. apply Hnot. simpl. auto.
  - rewrite (find_if_name_is_end_true _ _ Hnot). reflexivity.
Qed.

Lemma check_columns_match_missing_witness :
  check_columns_match (example_table [])
    [example_id_column; example_x_column; example_y_column]
    [example_wide_id_column; example_y_column] =
  Raise (schema_mismatch "Missing column x on table T").
Proof.
  apply (check_columns_match_missing (example_table [])
           [example_id_column] [example_wide_id_column] example_x_column
           [example_y_column] [example_y_column]).
  - reflexivity.
  - simpl. intros [H|[]]. discriminate.
Defined.

(** X3. A to-column is reported as "Extra column Y on table T" in two
    places: in the walk, behind a matched prefix, when the names under the
    cursors differ, the from-name occurs later in the to list and the
    to-name occurs nowhere later in the from list; and after the walk, when
    every from-column has been matched and a to-column is left over. *)
Theorem check_columns_match_extra (table : Table.t) (from_done to_done : list Column.t)
    (to_col : Column.t) (to_rest : list Column.t) :
  map Column.name from_done = map Column.name to_done ->
  (forall (from_col : Column.t) (from_rest : list Column.t),
      Column.name from_col <> Column.name to_col ->
      In (Column.name from_col) (map Column.name to_rest) ->
      ~ In (Column.name to_col) (map Column.name from_rest) ->
      check_columns_match table (from_done ++ from_col :: from_rest) (to_done ++ to_col :: to_rest) =
      Raise (schema_mismatch
               ("Extra column " +:+ Column.name to_col +:+ " on table " +:+ Table.name table))) /\
  check_columns_match table from_done (to_done ++ to_col :: to_rest) =
  Raise (schema_mismatch
           ("Extra column " +:+ Column.name to_col +:+ " on table " +:+ Table.name table)).
Proof.
  intros Hdone. unfold check_columns_match. split.
  - intros from_col from_rest Hne Hto Hfrom.
    rewrite (check_columns_loop_matched_prefix _ _ _ _ _ Hdone).
    cbn [check_columns_loop].
    destruct (String.eqb_spec (Column.name to_col) (Column.name from_col)) as [Heq|_];
      [congruence|].
    assert (Hfind_to : is_end (find_if (name_is (Column.name from_col)) (to_col :: to_rest)) = false).
    { apply find_if_name_is_end. simpl. auto. }
    assert (Hfind_from : is_end (find_if (name_is (Column.name to_col)) (from_col :: from_rest)) = true).
    { apply find_if_name_is_end_true. simpl. intros [H|H]; [congruence | contradiction]. }
    rewrite Hfind_to, Hfind_from. reflexivity.
  - rewrite <- (app_nil_r from_done) at 1.
    rewrite (check_columns_loop_matched_prefix _ _ _ _ _ Hdone). reflexivity.
Qed.

Lemma check_columns_match_extra_witness :
  check_columns_match (example_table [])
    [example_id_column; example_y_column]
    [example_wide_id_column; example_x_column; example_y_column] =
    Raise (schema_mismatch "Extra column x on table T") /\
  check_columns_match (example_table [])
    [example_id_column] [example_wide_id_column; example_x_column; example_y_column] =
    Raise (schema_mismatch "Extra column x on table T").
Proof.
  pose proof (check_columns_match_extra (example_table [])
                [example_id_column] [example_wide_id_column] example_x_column
                [example_y_column] eq_refl) as [Hwalk Hend].
  split; [|exact Hend].
  apply (Hwalk example_y_column []).
  - discriminate.
  - simpl. auto.
  - simpl. tauto.
Defined.

(** ** What the key walk and the table check accept *)

Section MatchAccepts.

Variable std_sort : forall T : Type, (T -> T -> bool) -> list T -> list T.
Variable columns_list : list Column.t -> ColumnIndices -> string.

Lemma check_key_match_ok_iff (table : Table.t) (from_key to_key : Key.t) :
  check_key_match columns_list table from_key to_key = Ok tt <->
  Key.unique from_key = Key.unique to_key /\ Key.columns from_key = Key.columns to_key.
Proof.
  unfold check_key_match. split.
  - unfold report_schema_mismatch.
    destruct (Bool.eqb (Key.unique from_key) (Key.unique to_key)) eqn:Eunique;
      cbn [negb bind]; [|discriminate].
    destruct (list_eqb N.eqb (Key.columns from_key) (Key.columns to_key)) eqn:Ecolumns;
      cbn [negb]; [|discriminate].
    intros _. split; [apply Bool.eqb_prop, Eunique | apply list_eqb_N_eq, Ecolumns].
  - intros [-> ->]. rewrite Bool.eqb_reflx, list_eqb_N_refl. reflexivity.
Qed.

Lemma check_keys_loop_ok_iff (table : Table.t) (from_key to_key : list Key.t) :
  check_keys_loop columns_list table from_key to_key = Ok tt <->
  Forall2 keys_paired from_key to_key.
Proof.
  split.
  - revert to_key. induction from_key as [|from_k from_next IH]; intros [|to_k to_next];
      cbn [check_keys_loop]; try discriminate; [constructor|].
    unfold string_gt, string_lt.
    destruct (String.ltb (Key.name from_k) (Key.name to_k)) eqn:Egt; [discriminate|].
    destruct (String.ltb (Key.name to_k) (Key.name from_k)) eqn:Elt; [discriminate|].
    destruct (check_key_match columns_list table from_k to_k) as [[]|e] eqn:Ematch;
      cbn [bind]; [|discriminate].
    intros Hnext. apply check_key_match_ok_iff in Ematch as [Hunique Hcolumns].
    constructor; [|apply IH, Hnext].
    split; [apply string_ltb_total; assumption | split; assumption].
  - intros Hpaired. rewrite <- (app_nil_r from_key), <- (app_nil_r to_key).
    rewrite (check_keys_loop_paired_prefix _ _ _ _ _ _ Hpaired). reflexivity.
Qed.


Lemma check_primary_key_matches_ok_iff (table : Table.t)
    (from_primary_key_columns to_primary_key_columns : ColumnIndices) :
  check_primary_key_matches columns_list table from_primary_key_columns to_primary_key_columns =
  Ok tt <-> from_primary_key_columns = to_primary_key_columns.
Proof.
  unfold check_primary_key_matches, report_schema_mismatch. rewrite <- list_eqb_N_eq.
  destruct (list_eqb N.eqb _ _); cbn [negb];
    split; intros; first [reflexivity | discriminate].
Qed.

Lemma check_table_match_ok_iff_paired (from_table to_table : Table.t) :
  check_table_match std_sort columns_list from_table to_table = Ok tt <->
  map Column.name (Table.columns from_table) = map Column.name (Table.columns to_table) /\
  Table.primary_key_columns from_table = Table.primary_key_columns to_table /\
  Forall2 keys_paired
    (std_sort Key.t Key.ltb (Table.keys from_table))
    (std_sort Key.t Key.ltb (Table.keys to_table)).
Proof.
  rewrite <- check_columns_loop_ok_iff with (table := from_table).
  rewrite <- check_primary_key_matches_ok_iff with (table := from_table).
  rewrite <- check_keys_loop_ok_iff with (table := from_table).
  unfold check_table_match, check_columns_match, check_keys_match. split.
  - destruct (check_columns_loop _ _ _) as [[]|e1]; cbn [bind]; [|discriminate].
    destruct (check_primary_key_matches _ _ _ _) as [[]|e2]; cbn [bind]; [|discriminate].
    auto.
  - intros (-> & -> & ->). reflexivity.
Qed.

(** X5. [check_table_match] returns without raising exactly when the two
    tables have the same column names in the same order, the same
    [primary_key_columns], and sorted key lists that pair up; the names of
    the two tables, the [primary_key_type] and every column attribute
    except the name play no part. *)
Theorem check_table_match_ok_iff (from_table to_table : Table.t) :
  check_table_match std_sort columns_list from_table to_table = Ok tt <->
  map Column.name (Table.columns from_table) = map Column.name (Table.columns to_table) /\
  Table.primary_key_columns from_table = Table.primary_key_columns to_table /\
  Forall2 keys_paired
    (std_sort Key.t Key.ltb (Table.keys from_table))
    (std_sort Key.t Key.ltb (Table.keys to_table)).
Proof. apply check_table_match_ok_iff_paired. Qed.

(** X6. [check_table_match] reports the first failure in the order columns,
    primary key, keys: a failure of the column walk is reported whatever
    the primary keys and the keys are, and, the columns being matched,
    different [primary_key_columns] are reported as "Mismatching primary key
    ... on table T, should have ..." (the to side first) whatever the keys
    are. *)
Theorem check_table_match_first_failure (from_table to_table : Table.t) :
  (forall e,
      check_columns_match from_table (Table.columns from_table) (Table.columns to_table) =
      Raise e ->
      check_table_match std_sort columns_list from_table to_table = Raise e) /\
  (map Column.name (Table.columns from_table) = map Column.name (Table.columns to_table) ->
   Table.primary_key_columns from_table <> Table.primary_key_columns to_table ->
   check_table_match std_sort columns_list from_table to_table =
   Raise (schema_mismatch
            ("Mismatching primary key "
             +:+ columns_list (Table.columns from_table) (Table.primary_key_columns to_table)
             +:+ " on table " +:+ Table.name from_table +:+ ", should have "
             +:+ columns_list (Table.columns from_table) (Table.primary_key_columns from_table)))).
Proof.
  unfold check_table_match. split.
  - intros e ->. reflexivity.
  - intros Hcolumns Hprimary. unfold check_columns_match.
    rewrite (check_columns_loop_same_names _ _ _ Hcolumns). cbn [bind].
    unfold check_primary_key_matches.
    destruct (list_eqb N.eqb _ _) eqn:E; [apply list_eqb_N_eq in E; contradiction|].
    reflexivity.
Qed.

End MatchAccepts.

Lemma check_table_match_first_failure_witness :
  check_table_match insertion_sort columns_list_names
    (Table.mk "T" [example_id_column; example_x_column] [0%N]
       PrimaryKeyType.explicit_primary_key [example_by_x_key] "")
    (Table.mk "T" [example_x_column] [1%N]
       PrimaryKeyType.explicit_primary_key [] "") =
    Raise (schema_mismatch "Missing column id on table T") /\
  check_table_match insertion_sort columns_list_names
    (example_two_key_table [example_by_x_key] [0%N])
    (example_two_key_table [] [1%N; 0%N]) =
    Raise (schema_mismatch "Mismatching primary key (x, id) on table T, should have (id)").
Proof.
  split.
  - apply (proj1 (check_table_match_first_failure insertion_sort columns_list_names
                    (Table.mk "T" [example_id_column; example_x_column] [0%N]
                       PrimaryKeyType.explicit_primary_key [example_by_x_key] "")
                    (Table.mk "T" [example_x_column] [1%N]
                       PrimaryKeyType.explicit_primary_key [] ""))).
    reflexivity.
  - apply (proj2 (check_table_match_first_failure insertion_sort columns_list_names
                    (example_two_key_table [example_by_x_key] [0%N])
                    (example_two_key_table [] [1%N; 0%N])));
      [reflexivity | discriminate].
Defined.

(** ** What the table walk accepts; ignored tables *)

Lemma skip_ignored_tables_cases ignore_tables only_tables (tables : list Table.t) :
  (skip_ignored_tables tables ignore_tables only_tables = [] /\
   kept_tables ignore_tables only_tables tables = []) \/
  (exists tab next,
      skip_ignored_tables tables ignore_tables only_tables = tab :: next /\
      kept_tables ignore_tables only_tables tables =
      tab :: kept_tables ignore_tables only_tables next).
Proof.
  induction tables as [|tab next IH]; simpl; [left; split; reflexivity|].
  destruct (ignored _ _ _); simpl; [exact IH|].
  right. exists tab, next. split; reflexivity.
Qed.

Section TablesAccepted.

Variable std_sort : forall T : Type, (T -> T -> bool) -> list T -> list T.
Variable columns_list : list Column.t -> ColumnIndices -> string.

(** Skipping ignored tables while walking is the same as walking the lists
    with the ignored tables taken out. *)
Lemma check_tables_loop_kept (ignore_tables only_tables : gset string)
    (from_tables to_tables : list Table.t) :
  check_tables_loop std_sort columns_list ignore_tables only_tables
    (skip_ignored_tables from_tables ignore_tables only_tables)
    (skip_ignored_tables to_tables ignore_tables only_tables) =
  check_tables_loop std_sort columns_list ∅ ∅
    (kept_tables ignore_tables only_tables from_tables)
    (kept_tables ignore_tables only_tables to_tables).
Proof.
  revert to_tables. induction from_tables as [|from_tab from_next IH]; intros to_tables.
  - cbn [skip_ignored_tables kept_tables List.filter].
    destruct (skip_ignored_tables_cases ignore_tables only_tables to_tables)
      as [[-> ->] | (to_tab & to_next & -> & ->)].
    + rewrite !check_tables_loop_equation_1. reflexivity.
    + rewrite !check_tables_loop_equation_2. reflexivity.
  - cbn [skip_ignored_tables kept_tables List.filter].
    destruct (ignored ignore_tables only_tables (Table.name from_tab)); cbn [negb]; [apply IH|].
    destruct (skip_ignored_tables_cases ignore_tables only_tables to_tables)
      as [[-> ->] | (to_tab & to_next & -> & ->)].
    + rewrite !check_tables_loop_equation_3. reflexivity.
    + rewrite !check_tables_loop_equation_4, !skip_ignored_tables_empty.
      fold (kept_tables ignore_tables only_tables from_next). rewrite IH. reflexivity.
Qed.

Lemma check_tables_loop_ok_iff (from_tables to_tables : list Table.t) :
  check_tables_loop std_sort columns_list ∅ ∅ from_tables to_tables = Ok tt <->
  Forall2 (tables_paired std_sort columns_list) from_tables to_tables.
Proof.
  split.
  - revert to_tables. induction from_tables as [|from_tab from_next IH]; intros [|to_tab to_next].
    + constructor.
    + rewrite check_tables_loop_equation_2. discriminate.
    + rewrite check_tables_loop_equation_3. discriminate.
    + rewrite check_tables_loop_equation_4, !skip_ignored_tables_empty.
      unfold string_gt, string_lt.
      destruct (String.ltb (Table.name from_tab) (Table.name to_tab)) eqn:Egt; [discriminate|].
      destruct (String.ltb (Table.name to_tab) (Table.name from_tab)) eqn:Elt; [discriminate|].
      destruct (check_table_match std_sort columns_list from_tab to_tab) as [[]|e] eqn:Ematch;
        cbn [bind]; [|discriminate].
      intros Hnext. constructor; [|apply IH, Hnext].
      split; [apply string_ltb_total; assumption | exact Ematch].
  - intros Hpaired.
    rewrite <- (skip_ignored_tables_empty from_tables), <- (skip_ignored_tables_empty to_tables).
    apply check_tables_loop_paired, Hpaired.
Qed.

(** X7. [check_schema_match] returns without raising exactly when the two
    table lists, sorted by name and with the ignored tables taken out, have
    the same length and pair up position by position with equal names and a
    [check_table_match] that accepts the pair. *)
Theorem check_schema_match_ok_iff (from_database to_database : Database.t)
    (ignore_tables only_tables : gset string) :
  check_schema_match std_sort columns_list from_database to_database
    ignore_tables only_tables = Ok tt <->
  Forall2 (tables_paired std_sort columns_list)
    (kept_tables ignore_tables only_tables
       (std_sort Table.t Table.ltb (Database.tables from_database)))
    (kept_tables ignore_tables only_tables
       (std_sort Table.t Table.ltb (Database.tables to_database))).
Proof.
  unfold check_schema_match, check_tables_match.
  rewrite check_tables_loop_kept. apply check_tables_loop_ok_iff.
Qed.

End TablesAccepted.

(** ** The order in which tables and keys are listed *)

(** A sorted permutation is unique when elements that compare equivalent
    are equal. *)
Lemma sorted_permutation_unique {T : Type} (lt : T -> T -> bool) (l1 l2 : list T) :
  (forall x, lt x x = false) ->
  (forall x y, In x l1 -> In y l1 -> lt x y = false -> lt y x = false -> x = y) ->
  sorted_by lt l1 -> sorted_by lt l2 -> Permutation l1 l2 -> l1 = l2.
Proof.
  unfold sorted_by. intros Hirr. revert l2.
  induction l1 as [|a r1 IH]; intros l2 Hanti Hs1 Hs2 Hperm.
  - symmetry. apply Permutation_nil, Hperm.
  - destruct l2 as [|b r2]; [symmetry in Hperm; apply Permutation_nil in Hperm; discriminate|].
    apply StronglySorted_inv in Hs1 as [Hs1 Ha].
    apply StronglySorted_inv in Hs2 as [Hs2 Hb].
    rewrite List.Forall_forall in Ha, Hb.
    assert (Hin_b : In b (a :: r1)).
    { apply (Permutation_in b (Permutation_sym Hperm)). left. reflexivity. }
    assert (Hin_a : In a (b :: r2)).
    { apply (Permutation_in a Hperm). left. reflexivity. }
    assert (Hba : lt b a = false).
    { destruct Hin_b as [<-|Hin]; [apply Hirr | apply Ha, Hin]. }
    assert (Hab : lt a b = false).
    { destruct Hin_a as [<-|Hin]; [apply Hirr | apply Hb, Hin]. }
    assert (Heq : a = b).
    { apply Hanti; [left; reflexivity | exact Hin_b | exact Hab | exact Hba]. }
    subst b. f_equal. apply IH.
    + intros x y Hx Hy. apply Hanti; right; assumption.
    + exact Hs1.
    + exact Hs2.
    + apply (Permutation_cons_inv Hperm).
Qed.

Lemma NoDup_map_In_eq {A B : Type} (f : A -> B) (l : list A) (x y : A) :
  List.NoDup (map f l) -> In x l -> In y l -> f x = f y -> x = y.
Proof.
  induction l as [|a r IH]; simpl; [contradiction|].
  intros Hnodup Hx Hy Hf. apply List.NoDup_cons_iff in Hnodup as [Hnotin Hnodup].
  destruct Hx as [->|Hx], Hy as [->|Hy]; auto.
  - exfalso. apply Hnotin. rewrite Hf. apply in_map, Hy.
  - exfalso. apply Hnotin. rewrite <- Hf. apply in_map, Hx.
Qed.

(** What identifies a key for [Key::operator<]: its kind and its name. *)
Lemma Key_ltb_incomparable (a b : Key.t) :
  Key.ltb a b = false -> Key.ltb b a = false ->
  (Key.key_type a, Key.name a) = (Key.key_type b, Key.name b).
Proof.
  unfold Key.ltb, KeyType.eqb, KeyType.ltb, string_lt.
  destruct (Key.key_type a), (Key.key_type b); simpl; try discriminate;
    intros Hab Hba; rewrite (string_ltb_total _ _ Hab Hba); reflexivity.
Qed.

Section ListingOrder.

Variable std_sort : forall T : Type, (T -> T -> bool) -> list T -> list T.
Variable columns_list : list Column.t -> ColumnIndices -> string.
Hypothesis std_sort_permutes : sort_permutes std_sort.
Hypothesis std_sort_orders : sort_orders std_sort.

Lemma std_sort_tables_permutation (tables tables' : list Table.t) :
  List.NoDup (map Table.name tables) ->
  Permutation tables tables' ->
  std_sort Table.t Table.ltb tables = std_sort Table.t Table.ltb tables'.
Proof.
  intros Hnodup Hperm.
  apply (sorted_permutation_unique Table.ltb).
  - apply (swo_irreflexive _ Table_ltb_strict_weak_order).
  - intros x y Hx Hy Hxy Hyx.
    apply (NoDup_map_In_eq Table.name (std_sort Table.t Table.ltb tables)); try assumption.
    + apply (Permutation_NoDup (Permutation_map Table.name (std_sort_permutes _ _ tables))).
      exact Hnodup.
    + apply string_ltb_total; assumption.
  - apply std_sort_orders, Table_ltb_strict_weak_order.
  - apply std_sort_orders, Table_ltb_strict_weak_order.
  - rewrite <- (std_sort_permutes _ Table.ltb tables), <- (std_sort_permutes _ Table.ltb tables').
    exact Hperm.
Qed.

Lemma std_sort_keys_permutation (keys keys' : list Key.t) :
  List.NoDup (map (fun key => (Key.key_type key, Key.name key)) keys) ->
  Permutation keys keys' ->
  std_sort Key.t Key.ltb keys = std_sort Key.t Key.ltb keys'.
Proof.
  intros Hnodup Hperm.
  apply (sorted_permutation_unique Key.ltb).
  - apply (swo_irreflexive _ Key_ltb_strict_weak_order).
  - intros x y Hx Hy Hxy Hyx.
    apply (NoDup_map_In_eq (fun key => (Key.key_type key, Key.name key))
             (std_sort Key.t Key.ltb keys)); try assumption.
    + apply (Permutation_NoDup (Permutation_map _ (std_sort_permutes _ _ keys))).
      exact Hnodup.
    + apply Key_ltb_incomparable; assumption.
  - apply std_sort_orders, Key_ltb_strict_weak_order.
  - apply std_sort_orders, Key_ltb_strict_weak_order.
  - rewrite <- (std_sort_permutes _ Key.ltb keys), <- (std_sort_permutes _ Key.ltb keys').
    exact Hperm.
Qed.

(** X8. The order in which a database lists its tables does not matter: a
    database whose table names are distinct matches every database that
    holds the same tables in another order, whatever the filter sets are.
    [check_tables_match] sorts both lists for this. *)
Theorem check_schema_match_table_order (tables tables' : list Table.t)
    (ignore_tables only_tables : gset string) :
  List.NoDup (map Table.name tables) ->
  Permutation tables tables' ->
  check_schema_match std_sort columns_list (Database.mk tables) (Database.mk tables')
    ignore_tables only_tables = Ok tt.
Proof.
  intros Hnodup Hperm. unfold check_schema_match, check_tables_match. cbn [Database.tables].
  rewrite <- (std_sort_tables_permutation _ _ Hnodup Hperm).
  apply check_tables_loop_paired.
  induction (std_sort Table.t Table.ltb tables); constructor;
    [apply tables_paired_same | assumption].
Qed.

(** X9. The order in which a table lists its keys does not matter: a table
    whose keys differ pairwise in kind or name matches every table that has
    the same columns, the same primary key and the same keys in another
    order.  [check_keys_match] sorts both lists for this. *)
Theorem check_table_match_key_order (from_table to_table : Table.t) :
  List.NoDup (map (fun key => (Key.key_type key, Key.name key)) (Table.keys from_table)) ->
  Permutation (Table.keys from_table) (Table.keys to_table) ->
  map Column.name (Table.columns from_table) = map Column.name (Table.columns to_table) ->
  Table.primary_key_columns from_table = Table.primary_key_columns to_table ->
  check_table_match std_sort columns_list from_table to_table = Ok tt.
Proof.
  intros Hnodup Hperm Hcolumns Hprimary.
  unfold check_table_match, check_columns_match, check_keys_match.
  rewrite (check_columns_loop_same_names _ _ _ Hcolumns), Hprimary.
  rewrite check_primary_key_matches_same. cbn [bind].
  rewrite <- (std_sort_keys_permutation _ _ Hnodup Hperm).
  apply check_keys_loop_same.
Qed.

End ListingOrder.

Lemma check_schema_match_table_order_witness :
  check_schema_match insertion_sort columns_list_names
    (Database.mk [example_table [example_id_column]; Table.Table "a"; Table.Table "z"])
    (Database.mk [Table.Table "z"; example_table [example_id_column]; Table.Table "a"])
    {["z"]} ∅ = Ok tt.
Proof.
  apply (check_schema_match_table_order insertion_sort columns_list_names
           insertion_sort_permutes insertion_sort_orders
           [example_table [example_id_column]; Table.Table "a"; Table.Table "z"]
           [Table.Table "z"; example_table [example_id_column]; Table.Table "a"]).
  - repeat constructor; simpl; intuition discriminate.
  - apply Permutation_sym, (Permutation_cons_app [_; _] []). reflexivity.
Defined.

Lemma check_table_match_key_order_witness :
  check_table_match insertion_sort columns_list_names
    (example_two_key_table [example_by_x_key; example_by_id_key] [0%N])
    (example_two_key_table [example_by_id_key; example_by_x_key] [0%N]) = Ok tt.
Proof.
  apply (check_table_match_key_order insertion_sort columns_list_names
           insertion_sort_permutes insertion_sort_orders
           (example_two_key_table [example_by_x_key; example_by_id_key] [0%N])
           (example_two_key_table [example_by_id_key; example_by_x_key] [0%N])).
  - repeat constructor; simpl; intuition discriminate.
  - apply perm_swap.
  - reflexivity.
  - reflexivity.
Defined.

(** ** Ignoring a table is taking it out *)

Lemma kept_tables_sorted ignore_tables only_tables (tables : list Table.t) :
  sorted_by Table.ltb tables -> sorted_by Table.ltb (kept_tables ignore_tables only_tables tables).
Proof.
  unfold sorted_by, kept_tables. induction 1 as [|tab next Hsorted IH Hall]; simpl; [constructor|].
  destruct (negb _); [|exact IH].
  constructor; [exact IH|].
  rewrite List.Forall_forall in *. intros x Hx. apply Hall.
  apply List.filter_In in Hx. tauto.
Qed.

Lemma kept_tables_permutation ignore_tables only_tables (tables tables' : list Table.t) :
  Permutation tables tables' ->
  Permutation (kept_tables ignore_tables only_tables tables)
              (kept_tables ignore_tables only_tables tables').
Proof.
  unfold kept_tables. induction 1 as [|x l l' _ IH|x y l|l l' l'' _ IH1 _ IH2]; simpl.
  - constructor.
  - destruct (negb _); [constructor|]; exact IH.
  - destruct (negb _), (negb _); try reflexivity. apply perm_swap.
  - etransitivity; eassumption.
Qed.

Lemma kept_tables_names_NoDup ignore_tables only_tables (tables : list Table.t) :
  List.NoDup (map Table.name tables) ->
  List.NoDup (map Table.name (kept_tables ignore_tables only_tables tables)).
Proof.
  unfold kept_tables. induction tables as [|tab next IH]; simpl; [auto|].
  intros Hnodup. apply List.NoDup_cons_iff in Hnodup as [Hnotin Hnodup].
  destruct (negb _); [|apply IH, Hnodup].
  simpl. constructor; [|apply IH, Hnodup].
  intros Hin. apply Hnotin. apply in_map_iff in Hin as (x & Hname & Hx).
  apply List.filter_In in Hx as [Hx _]. rewrite <- Hname. apply in_map, Hx.
Qed.

Section IgnoredTables.

Variable std_sort : forall T : Type, (T -> T -> bool) -> list T -> list T.
Variable columns_list : list Column.t -> ColumnIndices -> string.
Hypothesis std_sort_permutes : sort_permutes std_sort.
Hypothesis std_sort_orders : sort_orders std_sort.

Lemma std_sort_kept_tables ignore_tables only_tables (tables : list Table.t) :
  List.NoDup (map Table.name tables) ->
  std_sort Table.t Table.ltb (kept_tables ignore_tables only_tables tables) =
  kept_tables ignore_tables only_tables (std_sort Table.t Table.ltb tables).
Proof.
  intros Hnodup.
  apply (sorted_permutation_unique Table.ltb).
  - apply (swo_irreflexive _ Table_ltb_strict_weak_order).
  - intros x y Hx Hy Hxy Hyx.
    apply (NoDup_map_In_eq Table.name
             (std_sort Table.t Table.ltb (kept_tables ignore_tables only_tables tables)));
      try assumption.
    + apply (Permutation_NoDup (Permutation_map Table.name (std_sort_permutes _ _ _))).
      apply kept_tables_names_NoDup, Hnodup.
    + apply string_ltb_total; assumption.
  - apply std_sort_orders, Table_ltb_strict_weak_order.
  - apply kept_tables_sorted, std_sort_orders, Table_ltb_strict_weak_order.
  - rewrite <- (std_sort_permutes _ Table.ltb (kept_tables _ _ tables)).
    apply kept_tables_permutation, std_sort_permutes.
Qed.

(** X10. Ignoring tables is the same as taking them out: for two databases
    with distinct table names each, [check_schema_match] with the sets
    [ignore_tables] and [only_tables] has the outcome, message included, of
    [check_schema_match] with empty sets on the two databases without their
    ignored tables. *)
Theorem check_schema_match_ignored_taken_out (from_database to_database : Database.t)
    (ignore_tables only_tables : gset string) :
  List.NoDup (map Table.name (Database.tables from_database)) ->
  List.NoDup (map Table.name (Database.tables to_database)) ->
  check_schema_match std_sort columns_list from_database to_database
    ignore_tables only_tables =
  check_schema_match std_sort columns_list
    (Database.mk (kept_tables ignore_tables only_tables (Database.tables from_database)))
    (Database.mk (kept_tables ignore_tables only_tables (Database.tables to_database)))
    ∅ ∅.
Proof.
  intros Hfrom Hto. unfold check_schema_match, check_tables_match. cbn [Database.tables].
  rewrite check_tables_loop_kept, !skip_ignored_tables_empty.
  rewrite (std_sort_kept_tables _ _ _ Hfrom), (std_sort_kept_tables _ _ _ Hto).
  reflexivity.
Qed.

End IgnoredTables.

Lemma check_schema_match_ignored_taken_out_witness :
  kept_tables {["x"; "y"]} ∅ [Table.Table "b"; Table.Table "a"; Table.Table "x"] =
    [Table.Table "b"; Table.Table "a"] /\
  kept_tables {["x"; "y"]} ∅ [Table.Table "y"; Table.Table "a"] = [Table.Table "a"] /\
  check_schema_match insertion_sort columns_list_names
    (Database.mk [Table.Table "b"; Table.Table "a"; Table.Table "x"])
    (Database.mk [Table.Table "y"; Table.Table "a"]) {["x"; "y"]} ∅ =
  check_schema_match insertion_sort columns_list_names
    (Database.mk
       (kept_tables {["x"; "y"]} ∅ [Table.Table "b"; Table.Table "a"; Table.Table "x"]))
    (Database.mk (kept_tables {["x"; "y"]} ∅ [Table.Table "y"; Table.Table "a"])) ∅ ∅.
Proof.
  split; [vm_compute; reflexivity|]. split; [vm_compute; reflexivity|].
  apply (check_schema_match_ignored_taken_out insertion_sort columns_list_names
           insertion_sort_permutes insertion_sort_orders
           (Database.mk [Table.Table "b"; Table.Table "a"; Table.Table "x"])
           (Database.mk [Table.Table "y"; Table.Table "a"]) {["x"; "y"]} ∅);
    repeat constructor; simpl; intuition discriminate.
Defined.

(** * Further properties of the schema model *)

(** ** The comparison operators *)

Lemma list_eqb_spec {A B : Type} (eqb : A -> A -> bool) (f : A -> B) (l1 l2 : list A) :
  (forall x y, eqb x y = true <-> f x = f y) ->
  (list_eqb eqb l1 l2 = true <-> map f l1 = map f l2).
Proof.
  intros Heqb. revert l2. induction l1 as [|x r1 IH]; intros [|y r2]; simpl;
    try (split; congruence).
  rewrite andb_true_iff, Heqb, IH. split; [intros [-> ->]; reflexivity | intros [= -> ->]; auto].
Qed.

Lemma DefaultType_eqb_eq (a b : DefaultType.t) : DefaultType.eqb a b = true <-> a = b.
Proof. destruct a, b; simpl; split; congruence. Qed.

Lemma KeyType_eqb_eq (a b : KeyType.t) : KeyType.eqb a b = true <-> a = b.
Proof. destruct a, b; unfold KeyType.eqb; simpl; split; congruence. Qed.

Lemma Column_eqb_spec (a b : Column.t) :
  Column.eqb a b = true <-> Column_compared a = Column_compared b.
Proof.
  unfold Column.eqb, Column_compared.
  rewrite !andb_true_iff, !String.eqb_eq, !N.eqb_eq, Bool.eqb_true_iff, DefaultType_eqb_eq.
  rewrite (list_eqb_spec String.eqb (fun s => s)) by apply String.eqb_eq.
  rewrite !map_id. split.
  - intros ((((((((((-> & ->) & ->) & ->) & ->) & ->) & ->) & ->) & ->) & ->) & ->).
    reflexivity.
  - intros [= -> -> -> -> -> -> -> -> -> -> ->]. repeat split; reflexivity.
Qed.

Lemma Key_eqb_spec (a b : Key.t) : Key.eqb a b = true <-> a = b.
Proof.
  unfold Key.eqb. rewrite !andb_true_iff, String.eqb_eq, KeyType_eqb_eq, list_eqb_N_eq.
  destruct a, b; simpl. split; [intros [[-> ->] ->]; reflexivity | intros [= -> -> ->]; auto].
Qed.

Lemma Table_eqb_spec (a b : Table.t) :
  Table.eqb a b = true <-> Table_compared a = Table_compared b.
Proof.
  unfold Table.eqb, Table_compared.
  rewrite !andb_true_iff, String.eqb_eq, same_primary_key_as_spec.
  rewrite (list_eqb_spec Column.eqb Column_compared) by apply Column_eqb_spec.
  rewrite (list_eqb_spec Key.eqb (fun k => k)) by apply Key_eqb_spec.
  rewrite !map_id.
  split; [intros [[[-> ->] ->] ->]; reflexivity | intros [= -> -> -> ->]; auto].
Qed.

(** X11. [Table::operator==] is an equivalence relation, although it reads
    the primary key columns of its two arguments differently: it is
    reflexive, symmetric and transitive.  It holds exactly when the two
    tables have equal names, equal keys, columns that agree in every field
    but [db_type_def] and [filter_expression], and equal explicit primary
    key columns. *)
Theorem Table_eqb_equivalence :
  (forall a, Table.eqb a a = true) /\
  (forall a b, Table.eqb a b = Table.eqb b a) /\
  (forall a b c, Table.eqb a b = true -> Table.eqb b c = true -> Table.eqb a c = true) /\
  (forall a b,
      Table.eqb a b = true <->
      Table.name a = Table.name b /\
      map Column_compared (Table.columns a) = map Column_compared (Table.columns b) /\
      explicit_primary_key_columns a = explicit_primary_key_columns b /\
      Table.keys a = Table.keys b).
Proof.
  split; [|split; [|split]].
  - intros a. apply Table_eqb_spec. reflexivity.
  - intros a b. destruct (Table.eqb a b) eqn:Eab, (Table.eqb b a) eqn:Eba; try reflexivity.
    + apply Table_eqb_spec in Eab. symmetry in Eab. apply Table_eqb_spec in Eab. congruence.
    + apply Table_eqb_spec in Eba. symmetry in Eba. apply Table_eqb_spec in Eba. congruence.
  - intros a b c Hab Hbc. apply Table_eqb_spec in Hab, Hbc. apply Table_eqb_spec. congruence.
  - intros a b. rewrite Table_eqb_spec. unfold Table_compared.
    split; [intros [= -> -> -> ->]; auto | intros (-> & -> & -> & ->); reflexivity].
Qed.

Lemma Table_ltb_incomparable (a b : Table.t) :
  Table.ltb a b = false -> Table.ltb b a = false -> Table.name a = Table.name b.
Proof. apply string_ltb_total. Qed.

(** X12. [Key::operator<] and [Table::operator<] are strict weak orderings,
    as [std::sort] requires of them.  Two keys are equivalent for
    [Key::operator<] exactly when they have the same kind and the same name,
    two tables for [Table::operator<] exactly when they have the same name;
    keys and tables that are equal for [operator==] are equivalent. *)
Theorem operator_lt_strict_weak_orders :
  strict_weak_order Key.ltb /\
  strict_weak_order Table.ltb /\
  (forall a b : Key.t,
      Key.ltb a b = false /\ Key.ltb b a = false <->
      Key.key_type a = Key.key_type b /\ Key.name a = Key.name b) /\
  (forall a b : Table.t,
      Table.ltb a b = false /\ Table.ltb b a = false <-> Table.name a = Table.name b) /\
  (forall a b : Key.t, Key.eqb a b = true -> Key.ltb a b = false /\ Key.ltb b a = false) /\
  (forall a b : Table.t, Table.eqb a b = true -> Table.ltb a b = false /\ Table.ltb b a = false).
Proof.
  split; [apply Key_ltb_strict_weak_order|].
  split; [apply Table_ltb_strict_weak_order|].
  assert (Hkey : forall a b : Key.t,
             Key.key_type a = Key.key_type b -> Key.name a = Key.name b ->
             Key.ltb a b = false /\ Key.ltb b a = false).
  { intros a b Htype Hname. unfold Key.ltb, string_lt. rewrite Htype, Hname.
    rewrite (proj2 (KeyType_eqb_eq _ _) eq_refl). simpl.
    split; apply string_ltb_irrefl. }
  assert (Htable : forall a b : Table.t,
             Table.name a = Table.name b -> Table.ltb a b = false /\ Table.ltb b a = false).
  { intros a b Hname. unfold Table.ltb, string_lt. rewrite Hname.
    split; apply string_ltb_irrefl. }
  split; [|split; [|split]].
  - intros a b. split.
    + intros [Hab Hba]. pose proof (Key_ltb_incomparable a b Hab Hba) as [= -> ->]. auto.
    + intros [Htype Hname]. apply Hkey; assumption.
  - intros a b. split.
    + intros [Hab Hba]. apply Table_ltb_incomparable; assumption.
    + apply Htable.
  - intros a b Heq. apply Key_eqb_spec in Heq as ->. apply Hkey; reflexivity.
  - intros a b Heq. apply Table_eqb_spec in Heq. injection Heq as Hname _ _ _.
    apply Htable, Hname.
Qed.

Section EqualTables.

Variable std_sort : forall T : Type, (T -> T -> bool) -> list T -> list T.
Variable columns_list : list Column.t -> ColumnIndices -> string.

(** X13. Two tables that are equal for [Table::operator==] pass
    [check_table_match] when their [primary_key_columns] are equal as
    well.  Equality for [operator==] alone is not enough: two equal tables
    with different surrogate primary keys are reported as a primary key
    mismatch. *)
Theorem Table_eqb_check_table_match :
  (forall a b : Table.t,
      Table.eqb a b = true ->
      Table.primary_key_columns a = Table.primary_key_columns b ->
      check_table_match std_sort columns_list a b = Ok tt) /\
  (exists a b : Table.t,
      Table.eqb a b = true /\
      check_table_match std_sort columns_list a b =
      Raise (schema_mismatch
               ("Mismatching primary key "
                +:+ columns_list (Table.columns a) (Table.primary_key_columns b)
                +:+ " on table " +:+ Table.name a +:+ ", should have "
                +:+ columns_list (Table.columns a) (Table.primary_key_columns a)))).
Proof.
  split.
  - intros a b Heq Hprimary. apply Table_eqb_spec in Heq.
    injection Heq as Hname Hcolumns _ Hkeys.
    apply check_table_match_same_names; try assumption.
    apply (f_equal (map (fun c => fst (fst (fst (fst (fst (fst (fst (fst (fst (fst c)))))))))))) in Hcolumns.
    rewrite !map_map in Hcolumns. exact Hcolumns.
  - exists (example_surrogate_table [1%N] PrimaryKeyType.suitable_unique_key ""),
           (example_surrogate_table [] PrimaryKeyType.no_available_key "").
    split; [reflexivity|].
    unfold check_table_match, check_columns_match.
    rewrite check_columns_loop_same_names by reflexivity. reflexivity.
Qed.

End EqualTables.

Lemma Table_eqb_check_table_match_witness :
  check_table_match insertion_sort columns_list_names
    (example_surrogate_table [0%N] PrimaryKeyType.explicit_primary_key "hstore")
    (example_surrogate_table [0%N] PrimaryKeyType.explicit_primary_key "ltree") = Ok tt.
Proof.
  apply (proj1 (Table_eqb_check_table_match insertion_sort columns_list_names)); reflexivity.
Defined.

(** * Further properties of the PostgreSQL adapter *)

(** ** Strings and sizes *)

Lemma string_append_cons (c : ascii) (a b : string) : String c a +:+ b = String c (a +:+ b).
Proof. reflexivity. Qed.

Lemma string_append_nil_l (b : string) : "" +:+ b = b.
Proof. reflexivity. Qed.

(** [String.append] is not unfolded by [cbn]; its two equations are
    rewritten instead. *)
Ltac string_cbn :=
  repeat (progress (cbn [String.length String.substring Nat.add Nat.sub];
                    rewrite ?string_append_cons, ?string_append_nil_l)).

Lemma string_length_append (a b : string) :
  String.length (a +:+ b) = String.length a + String.length b.
Proof. induction a as [|c a IH]; string_cbn; [reflexivity | rewrite IH; reflexivity]. Qed.

Lemma string_append_assoc (a b c : string) : (a +:+ b) +:+ c = a +:+ (b +:+ c).
Proof. induction a as [|x a IH]; string_cbn; [reflexivity | rewrite IH; reflexivity]. Qed.


Lemma substring_append_skip (a b : string) (k n : nat) :
  String.substring (String.length a + k) n (a +:+ b) = String.substring k n b.
Proof. induction a as [|c a IH]; string_cbn; auto. Qed.

Lemma substr0_append (a b : string) : substr0 (a +:+ b) (String.length a) = a.
Proof.
  unfold substr0. induction a as [|c a IH]; string_cbn.
  - destruct b; reflexivity.
  - rewrite IH. reflexivity.
Qed.

Lemma substr0_all (s : string) (n : nat) : String.length s <= n -> substr0 s n = s.
Proof.
  unfold substr0. revert n. induction s as [|c s IH]; intros [|n] Hn; simpl in *;
    try reflexivity; try lia.
  rewrite IH by lia. reflexivity.
Qed.

Lemma substring_add (s : string) (k n m : nat) :
  String.substring k (n + m) s = String.substring k n s +:+ String.substring (k + n) m s.
Proof.
  revert k n. induction s as [|c s IH]; intros [|k] [|n]; string_cbn;
    try reflexivity; try (destruct m; reflexivity).
  - rewrite (IH 0 n). reflexivity.
  - exact (IH k 0).
  - exact (IH k (S n)).
Qed.

Lemma string_size_append (a b : string) :
  string_size (a +:+ b) = (string_size a + string_size b)%N.
Proof. unfold string_size. rewrite string_length_append. lia. Qed.

Lemma string_eqb_substr0_false (s : string) (n : nat) (c d : ascii) (p : string) :
  String.get 0 s = Some c -> Ascii.eqb c d = false ->
  String.eqb (substr0 s n) (String d p) = false.
Proof.
  intros Hget Hne. destruct s as [|c' s]; [discriminate|]. injection Hget as ->.
  unfold substr0. destruct n; cbn [String.substring String.eqb]; [reflexivity|].
  rewrite Hne. reflexivity.
Qed.

Lemma substr0_eqb_size (s : string) (n : nat) (p : string) :
  String.eqb (substr0 s n) p = true -> (N.of_nat (String.length p) <= string_size s)%N.
Proof.
  intros H. apply String.eqb_eq in H. subst p. rewrite substr0_length. unfold string_size. lia.
Qed.

(** The searches. *)


Lemma first_index_append (p : ascii -> bool) (a b : string) :
  first_index p a = None ->
  first_index p (a +:+ b) = option_map (Nat.add (String.length a)) (first_index p b).
Proof.
  induction a as [|c a IH]; string_cbn; cbn [first_index].
  - intros _. destruct (first_index p b); reflexivity.
  - destruct (p c); [discriminate|].
    destruct (first_index p a); [discriminate|]. intros _. rewrite IH by reflexivity.
    destruct (first_index p b); reflexivity.
Qed.

Lemma last_index_append (p : ascii -> bool) (a b : string) (i : nat) :
  last_index p b = Some i ->
  last_index p (a +:+ b) = Some (String.length a + i).
Proof.
  intros Hb. induction a as [|c a IH]; string_cbn; cbn [last_index]; [exact Hb|].
  rewrite IH. reflexivity.
Qed.

Lemma contains_first_index (s : string) (c : ascii) :
  contains s c = false -> first_index (Ascii.eqb c) s = None.
Proof.
  induction s as [|d s IH]; cbn [contains first_index]; [reflexivity|].
  destruct (Ascii.eqb c d); [discriminate|]. cbn [orb]. intros H. rewrite IH by exact H.
  reflexivity.
Qed.

Lemma contains_last_index (s : string) (c : ascii) :
  contains s c = false -> last_index (Ascii.eqb c) s = None.
Proof.
  induction s as [|d s IH]; cbn [contains last_index]; [reflexivity|].
  destruct (Ascii.eqb c d); [discriminate|]. cbn [orb]. intros H. rewrite IH by exact H.
  reflexivity.
Qed.


Lemma contains_append (a b : string) (c : ascii) :
  contains (a +:+ b) c = contains a c || contains b c.
Proof.
  induction a as [|d a IH]; string_cbn; cbn [contains]; [reflexivity|].
  rewrite IH, orb_assoc. reflexivity.
Qed.

Lemma transform_length (f : ascii -> ascii) (s : string) :
  String.length (transform f s) = String.length s.
Proof. induction s as [|c s IH]; cbn [transform String.length]; congruence. Qed.

Lemma transform_append (f : ascii -> ascii) (a b : string) :
  transform f (a +:+ b) = transform f a +:+ transform f b.
Proof. induction a as [|c a IH]; string_cbn; cbn [transform]; string_cbn; congruence. Qed.

Lemma resize_append (a b : string) : resize (a +:+ b) (String.length a) = a.
Proof. induction a as [|c a IH]; string_cbn; cbn [resize]; congruence. Qed.

(** [size_t] arithmetic that does not wrap. *)

Lemma size_t_sub_small (a b : N) :
  (b <= a < 18446744073709551616)%N -> size_t_sub a b = (a - b)%N.
Proof.
  intros [Hb Ha]. unfold size_t_sub.
  replace (a + 18446744073709551616 - b)%N with (a - b + 1 * 18446744073709551616)%N by lia.
  rewrite N.Div0.mod_add. apply N.mod_small. lia.
Qed.

Lemma size_t_sub_le (a b : N) : (b <= a)%N -> (size_t_sub a b <= a)%N.
Proof.
  intros Hb. destruct (N.lt_ge_cases a 18446744073709551616) as [Ha|Ha].
  - rewrite size_t_sub_small by lia. lia.
  - unfold size_t_sub.
    pose proof (N.mod_upper_bound (a + 18446744073709551616 - b) 18446744073709551616). lia.
Qed.


Lemma size_t_add_small (a b : N) :
  (a + b < 18446744073709551616)%N -> size_t_add a b = (a + b)%N.
Proof. intros H. unfold size_t_add. apply N.mod_small, H. Qed.

Lemma substr_in_range (s : string) (pos n : N) :
  (pos <= string_size s)%N ->
  substr s pos n =
  Some (String.substring (N.to_nat pos) (N.to_nat (N.min n (string_size s - pos))) s).
Proof.
  intros Hpos. unfold substr. destruct (N.ltb_spec (string_size s) pos); [lia | reflexivity].
Qed.

(** [s.substr(s.length() - n, n)] is the last [n] bytes of [s]. *)
Lemma substr_suffix (s : string) (n : nat) :
  (string_size s < 18446744073709551616)%N -> n <= String.length s ->
  substr s (size_t_sub (string_size s) (N.of_nat n)) (N.of_nat n) =
  Some (String.substring (String.length s - n) n s).
Proof.
  intros Hsize Hn. unfold string_size in *.
  rewrite size_t_sub_small by lia. rewrite substr_in_range by (unfold string_size; lia).
  unfold string_size. f_equal. f_equal; lia.
Qed.

(** [s.substr(n)] drops the first [n] bytes. *)
Lemma substr_append_tail (a b : string) :
  (string_size b < 18446744073709551616)%N ->
  substr (a +:+ b) (string_size a) npos = Some b.
Proof.
  intros Hsize. rewrite substr_in_range by (rewrite string_size_append; lia).
  rewrite string_size_append. unfold string_size in *.
  replace (N.to_nat (N.of_nat (String.length a))) with (String.length a + 0) by lia.
  rewrite substring_append_skip.
  replace (N.to_nat _) with (String.length b) by (unfold npos; lia).
  fold (substr0 b (String.length b)). rewrite substr0_all by lia. reflexivity.
Qed.

(** ** Column types *)

Lemma returns_Ok {A : Type} (a : A) : returns (Ok a) <-> True.
Proof. split; [trivial | intros _; exists a; reflexivity]. Qed.

Lemma returns_Raise {A : Type} (e : exception) : returns (@Raise A e) <-> False.
Proof. split; [intros [a H]; discriminate | tauto]. Qed.

Lemma column_type_returns_iff (column : Column.t) :
  returns (PostgreSQLClient.column_type column) <->
  In (Column.column_type column) expressible_types /\
  (Column.column_type column = ColumnTypes.SINT -> In (Column.size column) [2; 4; 8]%N).
Proof.
  destruct column as [name nullable column_type size scale default_type default_value flags
                        type_restriction reference_system enumeration_values db_type_def
                        filter_expression].
  unfold PostgreSQLClient.column_type, expressible_types, ColumnTypes.BLOB, ColumnTypes.TEXT,
    ColumnTypes.VCHR, ColumnTypes.FCHR, ColumnTypes.UUID, ColumnTypes.BOOL, ColumnTypes.SINT,
    ColumnTypes.REAL, ColumnTypes.DECI, ColumnTypes.DATE, ColumnTypes.TIME, ColumnTypes.DTTM,
    ColumnTypes.SPAT.
  cbn [Column.column_type Column.size Column.name].
  repeat match goal with
         | |- context [String.eqb column_type ?b] =>
             destruct (String.eqb_spec column_type b) as [->|?]
         end;
    try (repeat match goal with
                | |- context [if ?b then Ok _ else Ok _] => destruct b
                end;
         rewrite returns_Ok; simpl; intuition (try discriminate));
    [|rewrite returns_Raise; simpl; intuition congruence].
  repeat match goal with
         | |- context [N.eqb size ?b] => destruct (N.eqb_spec size b) as [->|?]
         end;
    rewrite ?returns_Ok, ?returns_Raise; simpl; intuition (try discriminate; try congruence).
Qed.

(** X14. [column_type] returns a type name exactly for the thirteen column
    types it has a branch for, an [INT] being of size 2, 4 or 8.  After
    [convert_unsupported_column] it returns exactly for those thirteen and
    [INT UNSIGNED], an [INT] or [INT UNSIGNED] being of size 1, 2, 3, 4 or
    8: the pass makes the unsigned and the 1-byte and 3-byte integers
    expressible, and nothing else. *)
Theorem column_type_convert_unsupported_column (column : Column.t) :
  (returns (PostgreSQLClient.column_type column) <->
   In (Column.column_type column) expressible_types /\
   (Column.column_type column = ColumnTypes.SINT -> In (Column.size column) [2; 4; 8]%N)) /\
  (returns (PostgreSQLClient.column_type (PostgreSQLClient.convert_unsupported_column column)) <->
   In (Column.column_type column) (ColumnTypes.UINT :: expressible_types) /\
   (Column.column_type column = ColumnTypes.SINT \/ Column.column_type column = ColumnTypes.UINT ->
    In (Column.size column) [1; 2; 3; 4; 8]%N)).
Proof.
  split; [apply column_type_returns_iff|].
  rewrite column_type_returns_iff.
  destruct (convert_unsupported_column_converted column) as [Htype Hsize _ _ _ _ _ _ _ _ _ _ _].
  rewrite Hsize, Htype. clear Hsize Htype.
  destruct column as [name nullable column_type size scale default_type default_value flags
                        type_restriction reference_system enumeration_values db_type_def
                        filter_expression].
  unfold expressible_types, ColumnTypes.BLOB, ColumnTypes.TEXT,
    ColumnTypes.VCHR, ColumnTypes.FCHR, ColumnTypes.UUID, ColumnTypes.BOOL, ColumnTypes.SINT,
    ColumnTypes.UINT, ColumnTypes.REAL, ColumnTypes.DECI, ColumnTypes.DATE, ColumnTypes.TIME,
    ColumnTypes.DTTM, ColumnTypes.SPAT.
  cbn [Column.column_type Column.size Column.name].
  destruct (String.eqb_spec column_type "INT UNSIGNED") as [->|Hu];
    [|destruct (String.eqb_spec column_type "INT") as [->|Hs]]; cbn [String.eqb Ascii.eqb Bool.eqb andb orb].
  - repeat match goal with
         | |- context [N.eqb size ?b] => destruct (N.eqb_spec size b) as [->|?]
         end; simpl; intuition (try discriminate; try congruence).
  - repeat match goal with
         | |- context [N.eqb size ?b] => destruct (N.eqb_spec size b) as [->|?]
         end; simpl; intuition (try discriminate; try congruence).
  - simpl. intuition (try discriminate; try congruence).
Qed.

(** ** The normalization pass applied twice *)

Lemma convert_unsupported_column_fields (column : Column.t) :
  PostgreSQLClient.convert_unsupported_column column =
  let column_type :=
    if String.eqb (Column.column_type column) "INT UNSIGNED" then "INT"
    else Column.column_type column in
  let size :=
    if String.eqb column_type "INT" then
      if N.eqb (Column.size column) 1 then 2%N
      else if N.eqb (Column.size column) 3 then 4%N
      else Column.size column
    else if String.eqb column_type "TEXT" || String.eqb column_type "BLOB" then 0%N
    else Column.size column in
  Column.set_size size (Column.set_column_type column_type column).
Proof.
  destruct column as [name nullable column_type size scale default_type default_value flags
                        type_restriction reference_system enumeration_values db_type_def
                        filter_expression].
  unfold PostgreSQLClient.convert_unsupported_column, ColumnTypes.UINT, ColumnTypes.SINT,
    ColumnTypes.TEXT, ColumnTypes.BLOB.
  cbn. split_tests; first [reflexivity | congruence].
Qed.

Lemma convert_unsupported_column_idempotent (column : Column.t) :
  PostgreSQLClient.convert_unsupported_column (PostgreSQLClient.convert_unsupported_column column) =
  PostgreSQLClient.convert_unsupported_column column.
Proof.
  rewrite (convert_unsupported_column_fields (PostgreSQLClient.convert_unsupported_column column)).
  rewrite (convert_unsupported_column_fields column).
  destruct column as [name nullable column_type size scale default_type default_value flags
                        type_restriction reference_system enumeration_values db_type_def
                        filter_expression].
  cbn [Column.column_type Column.size Column.set_column_type Column.set_size Column.name
       Column.nullable Column.scale Column.default_type Column.default_value Column.flags
       Column.type_restriction Column.reference_system Column.enumeration_values
       Column.db_type_def Column.filter_expression].
  cbv zeta.
  destruct (String.eqb_spec column_type "INT UNSIGNED") as [->|Hunsigned];
    [|destruct (String.eqb_spec column_type "INT") as [->|Hsigned];
      [|destruct (String.eqb_spec column_type "TEXT") as [->|Htext];
        [|destruct (String.eqb_spec column_type "BLOB") as [->|Hblob]]]];
    cbn [String.eqb Ascii.eqb Bool.eqb andb orb];
    repeat match goal with
           | H : ?a <> ?b |- _ => rewrite (proj2 (String.eqb_neq a b) H)
           end;
    cbn [String.eqb Ascii.eqb Bool.eqb andb orb];
    try reflexivity;
    (destruct (N.eqb_spec size 1) as [->|Hone]; [reflexivity|];
     destruct (N.eqb_spec size 3) as [->|Hthree]; [reflexivity|];
     repeat match goal with
            | H : ?a <> ?b |- _ => rewrite (proj2 (N.eqb_neq a b) H)
            end;
     reflexivity).
Qed.

Lemma convert_unsupported_key_idempotent (key : Key.t) :
  PostgreSQLClient.convert_unsupported_key (PostgreSQLClient.convert_unsupported_key key) =
  PostgreSQLClient.convert_unsupported_key key.
Proof.
  unfold PostgreSQLClient.convert_unsupported_key.
  destruct (Nat.leb_spec 63 (String.length (Key.name key))) as [Hlong|Hshort].
  - cbn [Key.set_name Key.name Key.key_type Key.columns].
    rewrite substr0_length.
    destruct (Nat.leb_spec 63 (Nat.min 63 (String.length (Key.name key)))) as [_|Hlt]; [|lia].
    rewrite substr0_all by (rewrite substr0_length; lia). reflexivity.
  - destruct (Nat.leb_spec 63 (String.length (Key.name key))); [lia | reflexivity].
Qed.

(** X15. [convert_unsupported_database_schema] is idempotent: applied to
    its own result it changes nothing. *)
Theorem convert_unsupported_database_schema_idempotent (database : Database.t) :
  PostgreSQLClient.convert_unsupported_database_schema
    (PostgreSQLClient.convert_unsupported_database_schema database) =
  PostgreSQLClient.convert_unsupported_database_schema database.
Proof.
  unfold PostgreSQLClient.convert_unsupported_database_schema. cbn [Database.tables].
  f_equal. rewrite map_map. apply map_ext. intros table.
  unfold PostgreSQLClient.convert_unsupported_table.
  cbn [Table.set_columns Table.set_keys Table.columns Table.keys Table.name
       Table.primary_key_columns Table.primary_key_type Table.where_conditions].
  rewrite !map_map.
  rewrite (map_ext _ _ convert_unsupported_column_idempotent).
  rewrite (map_ext _ _ convert_unsupported_key_idempotent).
  reflexivity.
Qed.

(** ** Column definitions *)

Section ColumnDefinition.

Variable quote_identifier : string -> string.
Variable PQescapeStringConn : string -> string.
Variable PQescapeByteaConn : string -> string.
Variable append_escaped_spatial_value_to : string -> string -> string.
Variable to_string_DefaultType : DefaultType.t -> string.

Let column_definition :=
  PostgreSQLClient.column_definition quote_identifier PQescapeStringConn PQescapeByteaConn
    append_escaped_spatial_value_to to_string_DefaultType.

Let column_default :=
  PostgreSQLClient.column_default PQescapeStringConn PQescapeByteaConn
    append_escaped_spatial_value_to to_string_DefaultType.


End ColumnDefinition.

(** ** Error messages *)

(** X17. The message of [sql_error] is the message of the connection, a
    line feed and an excerpt of the statement.  The excerpt has at most 203
    bytes and starts with the first 200 bytes of the statement; it is the
    whole statement when that is shorter than 200 bytes, and has 203 bytes
    otherwise, also for a statement of exactly 200 bytes. *)
Theorem sql_error_excerpt (PQerrorMessage sql : string) :
  exists excerpt,
    PostgreSQLClient.sql_error PQerrorMessage sql = PQerrorMessage +:+ newline +:+ excerpt /\
    String.length excerpt <= 203 /\
    substr0 excerpt 200 = substr0 sql 200 /\
    (String.length sql < 200 -> excerpt = sql) /\
    (200 <= String.length sql -> String.length excerpt = 203).
Proof.
  unfold PostgreSQLClient.sql_error.
  destruct (Nat.ltb_spec (String.length sql) 200) as [Hshort|Hlong].
  - exists sql. split; [reflexivity|]. split; [lia|]. split; [reflexivity|].
    split; [reflexivity | lia].
  - exists (substr0 sql 200 +:+ "..."). split; [reflexivity|].
    assert (Hlength : String.length (substr0 sql 200) = 200) by (rewrite substr0_length; lia).
    split; [rewrite string_length_append, Hlength; cbn [String.length]; lia|].
    split; [|split; [lia | intros _; rewrite string_length_append, Hlength; reflexivity]].
    pose proof (substr0_append (substr0 sql 200) "...") as Hprefix.
    rewrite Hlength in Hprefix. exact Hprefix.
Qed.

(** ** Conversions of result columns *)

(** X18. The first call of [conversion_for] on a result with at least one
    column fills [conversions] with one conversion for each column, that of
    the type of the column, and answers from it; every later call leaves
    the result as it is and answers the conversion of the type of the
    column it is asked for. *)
Theorem conversion_for_populates_once (res : PostgreSQLRes.t) (column_number : nat) :
  PostgreSQLRes.conversions res = [] ->
  column_number < PostgreSQLRes.n_columns res ->
  let populated := PostgreSQLRes.populate_conversions res in
  PostgreSQLRes.conversion_for res column_number =
    (option_map (PostgreSQLRes.conversion_for_type res)
       (nth_error (PostgreSQLRes.ftypes res) column_number), populated) /\
  length (PostgreSQLRes.conversions populated) = PostgreSQLRes.n_columns res /\
  forall column_number',
    PostgreSQLRes.conversion_for populated column_number' =
    (option_map (PostgreSQLRes.conversion_for_type populated)
       (nth_error (PostgreSQLRes.ftypes populated) column_number'), populated).
Proof.
  intros Hempty Hcolumn populated.
  assert (Hpopulated : PostgreSQLRes.conversions populated =
                       map (PostgreSQLRes.conversion_for_type res) (PostgreSQLRes.ftypes res))
    by reflexivity.
  assert (Hnonempty : PostgreSQLRes.empty (PostgreSQLRes.conversions populated) = false).
  { rewrite Hpopulated. unfold PostgreSQLRes.n_columns in Hcolumn.
    destruct (PostgreSQLRes.ftypes res); [cbn in Hcolumn; lia | reflexivity]. }
  split; [|split].
  - unfold PostgreSQLRes.conversion_for. rewrite Hempty. cbn [PostgreSQLRes.empty].
    fold populated. rewrite Hpopulated, nth_error_map. reflexivity.
  - rewrite Hpopulated. apply length_map.
  - intros column_number'. unfold PostgreSQLRes.conversion_for. rewrite Hnonempty.
    rewrite Hpopulated, nth_error_map. reflexivity.
Qed.

Lemma conversion_for_populates_once_witness :
  let res := PostgreSQLRes.mk [23; 16; 17000]%N (TypeMap.mk {[17000%N]}) [] in
  PostgreSQLRes.conversion_for res 2 =
    (Some encode_geom, PostgreSQLRes.mk [23; 16; 17000]%N (TypeMap.mk {[17000%N]})
                         [encode_sint; encode_bool; encode_geom]) /\
  fst (PostgreSQLRes.conversion_for (snd (PostgreSQLRes.conversion_for res 2)) 0) =
    Some encode_sint.
Proof.
  intros res.
  destruct (conversion_for_populates_once res 2) as (Hfirst & _ & Hlater);
    [reflexivity | cbn; lia|].
  split.
  - rewrite Hfirst. vm_compute. reflexivity.
  - rewrite Hfirst. cbn [snd]. rewrite Hlater. vm_compute. reflexivity.
Defined.

(** ** Defaults of columns *)

Lemma unescape_string_value_escaped_by (escape : ascii -> ascii) (value : string) :
  (forall c, escapes c = true -> escapes (escape c) = true) ->
  PostgreSQLColumnLister.unescape_string_value (escaped_by escape value) = value.
Proof.
  intros Hescape. induction value as [|c value IH]; [reflexivity|].
  cbn [escaped_by]. destruct (escapes c) eqn:Hc.
  - cbn [PostgreSQLColumnLister.unescape_string_value].
    fold (escapes (escape c)). rewrite (Hescape c Hc), IH. reflexivity.
  - cbn [PostgreSQLColumnLister.unescape_string_value].
    fold (escapes c). rewrite Hc, IH. reflexivity.
Qed.

Lemma unescape_string_value_length_le (escaped : string) :
  String.length (PostgreSQLColumnLister.unescape_string_value escaped) <= String.length escaped.
Proof.
  enough (H : String.length (PostgreSQLColumnLister.unescape_string_value escaped)
              <= String.length escaped /\
              forall c, String.length
                          (PostgreSQLColumnLister.unescape_string_value (String c escaped))
                        <= S (String.length escaped)) by apply H.
  induction escaped as [|d rest [IH1 IH2]].
  - split; [cbn; lia|]. intros c. cbn [PostgreSQLColumnLister.unescape_string_value].
    destruct (_ || _); cbn; lia.
  - split; [apply IH2|]. intros c.
    change (PostgreSQLColumnLister.unescape_string_value (String c (String d rest)))
      with (if escapes c
            then String d (PostgreSQLColumnLister.unescape_string_value rest)
            else String c (PostgreSQLColumnLister.unescape_string_value (String d rest))).
    specialize (IH2 d). destruct (escapes c); cbn [String.length] in *; lia.
Qed.

Lemma unescape_string_value_plain (value : string) :
  contains value backslash = false -> contains value single_quote = false ->
  PostgreSQLColumnLister.unescape_string_value value = value.
Proof.
  induction value as [|c value IH]; [reflexivity|].
  cbn [contains PostgreSQLColumnLister.unescape_string_value].
  rewrite (Ascii.eqb_sym c backslash), (Ascii.eqb_sym c single_quote).
  destruct (Ascii.eqb backslash c); [discriminate|].
  destruct (Ascii.eqb single_quote c); [discriminate|].
  cbn [orb]. intros Hb Hq. rewrite IH by assumption. reflexivity.
Qed.

(** X19. [unescape_string_value] undoes the escaping of backslashes and
    single quotes: a value in which each of them is preceded by a backslash
    or a single quote, as when they are doubled, comes back as it was.  It
    leaves a string without backslashes and single quotes as it is; for
    such a string followed by one lone backslash or single quote it reads
    past the last byte and appends a zero byte; its result is never longer
    than its argument. *)
Theorem unescape_string_value_round_trip :
  (forall (escape : ascii -> ascii) (value : string),
      (forall c, escapes c = true -> escapes (escape c) = true) ->
      PostgreSQLColumnLister.unescape_string_value (escaped_by escape value) = value) /\
  (forall value : string,
      contains value backslash = false -> contains value single_quote = false ->
      PostgreSQLColumnLister.unescape_string_value value = value) /\
  (forall (value : string) (c : ascii),
      contains value backslash = false -> contains value single_quote = false ->
      escapes c = true ->
      PostgreSQLColumnLister.unescape_string_value (value +:+ String c "") =
      value +:+ String Ascii.zero "") /\
  (forall escaped : string,
      String.length (PostgreSQLColumnLister.unescape_string_value escaped)
      <= String.length escaped).
Proof.
  split; [exact unescape_string_value_escaped_by|].
  split; [exact unescape_string_value_plain|].
  split; [|exact unescape_string_value_length_le].
  intros value c Hb Hq Hc. induction value as [|d value IH]; string_cbn.
  - cbn [PostgreSQLColumnLister.unescape_string_value]. fold (escapes c). rewrite Hc. reflexivity.
  - cbn [contains] in Hb, Hq.
    rewrite (Ascii.eqb_sym backslash d) in Hb. rewrite (Ascii.eqb_sym single_quote d) in Hq.
    cbn [PostgreSQLColumnLister.unescape_string_value].
    destruct (Ascii.eqb d backslash); [discriminate|].
    destruct (Ascii.eqb d single_quote); [discriminate|].
    cbn [orb] in *. rewrite IH by assumption. reflexivity.
Qed.

(** X20. When the size of the default read from the database fits a
    [size_t], the lister classifies it as a sequence exactly when the
    column has a default that starts with nextval(' and ends with
    '::regclass), whatever stands between the two; the default value is
    then empty. *)
Theorem operator_call_default_sequence (db_type : string) (row : PostgreSQLRow.t)
    (value : string) :
  (string_size (PostgreSQLRow.pg_get_expr row) < 18446744073709551616)%N ->
  (PostgreSQLColumnLister.operator_call_default db_type row =
   Some (DefaultType.sequence, value) <->
   PostgreSQLRow.atthasdef row = "t" /\ value = "" /\
   exists name, PostgreSQLRow.pg_get_expr row = "nextval('" +:+ name +:+ "'::regclass)").
Proof.
  intros Hsize. unfold PostgreSQLColumnLister.operator_call_default.
  destruct (String.eqb_spec (PostgreSQLRow.atthasdef row) "t") as [Ht|Ht];
    [|split; [discriminate | intros [? _]; contradiction]].
  generalize dependent (PostgreSQLRow.pg_get_expr row). intros default_value Hsize.
  cbv zeta.
  match goal with
  | |- (mbind ?k ?test = _) <-> _ =>
      assert (Hrest : forall v, k false <> Some (DefaultType.sequence, v));
      [|assert (Hsequence : k true = Some (DefaultType.sequence, "")) by reflexivity;
        generalize dependent k; intros rest Hrest Hsequence]
  end.
  { intros v. cbv beta iota.
    repeat match goal with
           | |- context [mbind _ ?m] => destruct m; cbn [mbind option_bind]
           | |- context [if ?b then _ else _] => destruct b
           end; discriminate. }
  assert (Hlength : forall name,
             String.length ("nextval('" +:+ name +:+ "'::regclass)") = 21 + String.length name).
  { intros name. rewrite !string_length_append. cbn [String.length]. lia. }
  destruct (N.ltb_spec 20 (string_size default_value)) as [Hlong|Hshort];
    [destruct (String.eqb_spec (substr0 default_value 9) "nextval('") as [Hprefix|Hprefix]|];
    cbn [andb mbind option_bind].
  - change 12%N with (N.of_nat 12). rewrite substr_suffix by (unfold string_size in *; lia).
    cbn [mbind option_bind].
    destruct (String.eqb_spec
                (String.substring (String.length default_value - 12) 12 default_value)
                "'::regclass)") as [Hsuffix|Hsuffix].
    + rewrite Hsequence. split.
      * intros [= <-]. split; [exact Ht|]. split; [reflexivity|].
        exists (String.substring 9 (String.length default_value - 21) default_value).
        rewrite <- Hprefix, <- Hsuffix.
        rewrite <- (substr0_all default_value
                      (9 + (String.length default_value - 21 + 12))) at 1
          by (unfold string_size in *; lia).
        unfold substr0. rewrite (substring_add default_value 0 9). change (0 + 9) with 9.
        rewrite (substring_add default_value 9).
        replace (9 + (String.length default_value - 21))
          with (String.length default_value - 12) by (unfold string_size in *; lia).
        reflexivity.
      * intros (_ & -> & _). reflexivity.
    + split; [intros H; destruct (Hrest _ H)|].
      intros (_ & _ & name & ->). exfalso. apply Hsuffix.
      rewrite Hlength. rewrite <- string_append_assoc.
      replace (21 + String.length name - 12) with (String.length ("nextval('" +:+ name) + 0)
        by (rewrite string_length_append; cbn [String.length]; lia).
      rewrite substring_append_skip. reflexivity.
  - split; [intros H; destruct (Hrest _ H)|].
    intros (_ & _ & name & ->). exfalso. apply Hprefix.
    change 9 with (String.length "nextval('"). apply substr0_append.
  - split; [intros H; destruct (Hrest _ H)|].
    intros (_ & _ & name & ->). exfalso. unfold string_size in Hshort.
    rewrite Hlength in Hshort. lia.
Qed.

Lemma operator_call_default_sequence_witness :
  PostgreSQLColumnLister.operator_call_default "integer"
    (PostgreSQLRow.mk "id" "integer" "t" "t" "nextval('users_id_seq'::regclass)") =
  Some (DefaultType.sequence, "").
Proof.
  apply (operator_call_default_sequence "integer"
           (PostgreSQLRow.mk "id" "integer" "t" "t" "nextval('users_id_seq'::regclass)") "").
  - vm_compute. reflexivity.
  - split; [reflexivity|]. split; [reflexivity|]. exists "users_id_seq". reflexivity.
Defined.

(** X21. A default that is a quoted literal, with its backslashes and
    single quotes escaped and followed by a cast that holds no single
    quote, is read as a [default_value] and comes back unescaped and
    without quotes and cast, provided it has more than two bytes. *)
Theorem operator_call_default_quoted (db_type : string) (row : PostgreSQLRow.t)
    (escape : ascii -> ascii) (value cast : string) :
  PostgreSQLRow.atthasdef row = "t" ->
  PostgreSQLRow.pg_get_expr row =
    String single_quote (escaped_by escape value) +:+ String single_quote cast ->
  (forall c, escapes c = true -> escapes (escape c) = true) ->
  contains cast single_quote = false ->
  (2 < string_size (PostgreSQLRow.pg_get_expr row) < 18446744073709551616)%N ->
  PostgreSQLColumnLister.operator_call_default db_type row =
  Some (DefaultType.default_value, value).
Proof.
  intros Ht Hexpr Hescape Hcast Hsize. unfold PostgreSQLColumnLister.operator_call_default.
  rewrite Ht. change ("t" =? "t") with true. cbv iota zeta.
  generalize dependent (PostgreSQLRow.pg_get_expr row). intros default_value -> Hsize.
  remember (escaped_by escape value) as escaped eqn:Hescaped.
  assert (Hget : String.get 0 (String single_quote escaped +:+ String single_quote cast)
                 = Some single_quote) by reflexivity.
  rewrite (string_eqb_substr0_false _ 9 _ _ _ Hget) by reflexivity.
  rewrite (string_eqb_substr0_false _ 6 _ _ _ Hget) by reflexivity.
  rewrite andb_false_r. cbn [mbind option_bind]. rewrite Hget.
  destruct Hsize as [Hlong Hsize].
  rewrite (proj2 (N.ltb_lt _ _) Hlong). change (single_quote =? single_quote)%char with true.
  cbn [andb].
  assert (Hrfind : rfind (String single_quote escaped +:+ String single_quote cast) single_quote
                   = N.of_nat (String.length (String single_quote escaped) + 0)).
  { unfold rfind. erewrite last_index_append; [reflexivity|].
    cbn [last_index]. rewrite contains_last_index by exact Hcast. reflexivity. }
  rewrite Hrfind. cbn [String.length Nat.add].
  rewrite string_size_append in Hsize. unfold string_size in Hsize. cbn [String.length] in Hsize.
  rewrite size_t_sub_small by lia.
  rewrite substr_in_range by (rewrite string_size_append; unfold string_size; cbn [String.length]; lia).
  cbn [mbind option_bind]. do 2 f_equal.
  rewrite string_size_append. unfold string_size. cbn [String.length].
  replace (N.to_nat (N.min _ _)) with (String.length escaped) by lia.
  change (N.to_nat 1) with 1. rewrite string_append_cons. cbn [String.substring].
  fold (substr0 (escaped +:+ String single_quote cast) (String.length escaped)).
  rewrite substr0_append, Hescaped. apply unescape_string_value_escaped_by, Hescape.
Qed.

Lemma operator_call_default_quoted_witness :
  PostgreSQLColumnLister.operator_call_default "text"
    (PostgreSQLRow.mk "title" "text" "f" "t" "'it''s'::text") =
  Some (DefaultType.default_value, "it's").
Proof.
  apply (operator_call_default_quoted "text"
           (PostgreSQLRow.mk "title" "text" "f" "t" "'it''s'::text")
           (fun c => c) "it's" "::text").
  - reflexivity.
  - reflexivity.
  - intros c Hc. exact Hc.
  - reflexivity.
  - vm_compute. split; reflexivity.
Defined.

(** ** The column lister *)


Lemma operator_call_default_returns (db_type : string) (row : PostgreSQLRow.t) :
  is_Some (PostgreSQLColumnLister.operator_call_default db_type row).
Proof.
  unfold PostgreSQLColumnLister.operator_call_default. cbv zeta.
  destruct (PostgreSQLRow.atthasdef row =? "t"); [|eexists; reflexivity].
  generalize (PostgreSQLRow.pg_get_expr row). intros default_value.
  assert (Hsequence : exists is_sequence,
    (if (20 <? string_size default_value)%N && (substr0 default_value 9 =? "nextval('")
     then substr default_value (size_t_sub (string_size default_value) 12) 12
          ≫= (fun tail => Some (tail =? "'::regclass)"))
     else Some false) = Some is_sequence).
  { destruct (N.ltb_spec 20 (string_size default_value)) as [Hlong|_];
      [|eexists; reflexivity].
    destruct (_ =? _); [|eexists; reflexivity]. cbn [andb].
    rewrite substr_in_range by (apply size_t_sub_le; lia). eexists; reflexivity. }
  destruct Hsequence as [is_sequence ->]. cbn [mbind option_bind].
  destruct is_sequence; [eexists; reflexivity|].
  assert (Hnull : exists is_null,
    (if substr0 default_value 6 =? "NULL::"
     then substr default_value 6 npos
          ≫= (fun type =>
                Some (substr0 db_type (N.to_nat (size_t_sub (string_size default_value) 6))
                      =? type))
     else Some false) = Some is_null).
  { destruct (substr0 default_value 6 =? "NULL::") eqn:Hprefix; [|eexists; reflexivity].
    apply substr0_eqb_size in Hprefix. cbn [String.length] in Hprefix.
    rewrite substr_in_range by lia. eexists; reflexivity. }
  destruct Hnull as [is_null ->]. cbn [mbind option_bind].
  destruct is_null; [eexists; reflexivity|].
  destruct (N.ltb_spec 2 (string_size default_value)) as [Hlong|_]; cbn [andb].
  - destruct (match String.get 0 default_value with Some c => _ | None => false end).
    + rewrite substr_in_range by lia. eexists; reflexivity.
    + destruct (N.ltb_spec 0 (string_size default_value)) as [_|?]; [|lia]. cbn [andb].
      repeat match goal with
             | |- is_Some (if ?b then _ else _) => destruct b
             | |- is_Some (Some _) => eexists; reflexivity
             end.
      rewrite substr_in_range by lia. eexists; reflexivity.
  - destruct (N.ltb_spec 0 (string_size default_value)) as [Hnonempty|?]; cbn [andb];
      [|eexists; reflexivity].
    repeat match goal with
           | |- is_Some (if ?b then _ else _) => destruct b
           | |- is_Some (Some _) => eexists; reflexivity
           end.
    rewrite substr_in_range by lia. eexists; reflexivity.
Qed.

Section Lister.

Variable extract_column_length : string -> N.
Variable extract_column_scale : string -> N.



End Lister.

(** ** Reading back the type of a column *)

Section ReadBack.

Variable extract_column_length : string -> N.
Variable extract_column_scale : string -> N.

(** X23. A type name that [column_type] returns and that holds no
    parenthesis is read back by the lister as a column of the same type,
    for which [column_type] returns the same name, whatever the default of
    the row. *)
Theorem column_type_read_back (column : Column.t) (type : string) (row : PostgreSQLRow.t) :
  PostgreSQLClient.column_type column = Ok type ->
  contains type "(" = false ->
  PostgreSQLRow.format_type row = type ->
  exists column',
    PostgreSQLColumnLister.operator_call_column extract_column_length extract_column_scale row
    = Some column' /\
    Column.column_type column' = Column.column_type column /\
    PostgreSQLClient.column_type column' = Ok type.
Proof.
  intros Htype Hparenthesis Hformat.
  unfold PostgreSQLColumnLister.operator_call_column. cbv zeta.
  destruct (operator_call_default_returns (PostgreSQLRow.format_type row) row)
    as [[default_type default_value] ->].
  cbn [mbind option_bind]. rewrite Hformat. clear Hformat.
  destruct column as [name nullable column_type size scale default_type' default_value' flags
                        type_restriction reference_system enumeration_values db_type_def
                        filter_expression].
  revert Htype.
  unfold PostgreSQLClient.column_type, ColumnTypes.BLOB, ColumnTypes.TEXT,
    ColumnTypes.VCHR, ColumnTypes.FCHR, ColumnTypes.UUID, ColumnTypes.BOOL, ColumnTypes.SINT,
    ColumnTypes.REAL, ColumnTypes.DECI, ColumnTypes.DATE, ColumnTypes.TIME, ColumnTypes.DTTM,
    ColumnTypes.SPAT.
  cbn [Column.column_type Column.size Column.name Column.scale Column.flags
       Column.type_restriction Column.reference_system].
  repeat match goal with
         | |- context [String.eqb column_type ?b] =>
             destruct (String.eqb_spec column_type b) as [->|?]
         end;
    repeat match goal with
           | |- (if ?b then _ else _) = _ -> _ => destruct b
           | |- Ok (if ?b then _ else _) = _ -> _ => destruct b
           | |- Ok (_ +:+ (if ?b then _ else _) +:+ _) = _ -> _ => destruct b
           end;
    try discriminate;
    intros [= <-];
    try (rewrite !contains_append in Hparenthesis;
         cbn [contains Ascii.eqb Bool.eqb orb andb] in Hparenthesis;
         rewrite ?orb_true_r in Hparenthesis; discriminate);
    (eexists; split; [reflexivity|]; split; reflexivity).
Qed.

End ReadBack.

Lemma column_type_read_back_witness :
  exists column',
    PostgreSQLColumnLister.operator_call_column (fun _ => 0%N) (fun _ => 0%N)
      (PostgreSQLRow.mk "id" "integer" "t" "t" "nextval('T_id_seq'::regclass)")
    = Some column' /\
    Column.column_type column' = ColumnTypes.SINT /\
    PostgreSQLClient.column_type column' = Ok "integer".
Proof.
  apply (column_type_read_back (fun _ => 0%N) (fun _ => 0%N) example_id_column "integer"
           (PostgreSQLRow.mk "id" "integer" "t" "t" "nextval('T_id_seq'::regclass)"));
    reflexivity.
Defined.

Lemma extract_spatial_without_comma (type_restriction : string) :
  transform tolower type_restriction = type_restriction ->
  contains type_restriction "," = false ->
  PostgreSQLColumnLister.extract_spatial_type_restriction_and_reference_system type_restriction
  = Some (type_restriction, "").
Proof.
  intros Hlower Hcomma.
  unfold PostgreSQLColumnLister.extract_spatial_type_restriction_and_reference_system.
  cbv zeta. rewrite Hlower. unfold find. rewrite contains_first_index by exact Hcomma.
  reflexivity.
Qed.

Lemma extract_spatial_with_comma (type_restriction reference_system : string) :
  transform tolower type_restriction = type_restriction ->
  transform tolower reference_system = reference_system ->
  contains type_restriction "," = false ->
  (string_size (type_restriction +:+ "," +:+ reference_system) < 18446744073709551616)%N ->
  PostgreSQLColumnLister.extract_spatial_type_restriction_and_reference_system
    (type_restriction +:+ "," +:+ reference_system)
  = Some (if type_restriction =? "geometry" then "" else type_restriction, reference_system).
Proof.
  intros Hlower_type Hlower_reference Hcomma Hsize.
  unfold PostgreSQLColumnLister.extract_spatial_type_restriction_and_reference_system.
  cbv zeta. rewrite !transform_append, Hlower_type, Hlower_reference.
  change (transform tolower ",") with ",".
  rewrite !string_size_append in Hsize. change (string_size ",") with 1%N in Hsize.
  assert (Hfind : find (type_restriction +:+ "," +:+ reference_system) ","
                  = string_size type_restriction).
  { unfold find. rewrite first_index_append by (apply contains_first_index, Hcomma).
    string_cbn. cbn [first_index option_map position]. rewrite Ascii.eqb_refl. cbn [option_map position]. unfold string_size. f_equal. lia. }
  rewrite Hfind.
  destruct (N.eqb_spec (string_size type_restriction) npos) as [Hnpos|_];
    [unfold npos in Hnpos; lia|].
  rewrite size_t_add_small by lia.
  rewrite <- string_append_assoc.
  replace (string_size type_restriction + 1)%N with (string_size (type_restriction +:+ ","))
    by (rewrite string_size_append; reflexivity).
  rewrite substr_append_tail by lia. cbn [mbind option_bind].
  rewrite string_append_assoc. unfold string_size. rewrite Nat2N.id, resize_append.
  reflexivity.
Qed.

Lemma substr_geometry_inner (inner : string) :
  (string_size ("geometry(" +:+ inner +:+ ")") < 18446744073709551616)%N ->
  substr ("geometry(" +:+ inner +:+ ")") 9
    (size_t_sub (string_size ("geometry(" +:+ inner +:+ ")")) 10)
  = Some inner.
Proof.
  intros Hsize. rewrite !string_size_append in *.
  change (string_size "geometry(") with 9%N in *. change (string_size ")") with 1%N in *.
  rewrite size_t_sub_small by lia.
  rewrite substr_in_range by (rewrite !string_size_append; change (string_size "geometry(") with 9%N; lia).
  rewrite !string_size_append.
  change (string_size "geometry(") with 9%N. change (string_size ")") with 1%N.
  change (N.to_nat 9) with (String.length "geometry(" + 0).
  rewrite substring_append_skip.
  replace (N.to_nat _) with (String.length inner) by (unfold string_size; lia).
  fold (substr0 (inner +:+ ")") (String.length inner)). rewrite substr0_append. reflexivity.
Qed.

Section ReadBackGeometry.

Variable extract_column_length : string -> N.
Variable extract_column_scale : string -> N.

Lemma operator_call_column_geometry (row : PostgreSQLRow.t) (inner : string) :
  PostgreSQLRow.format_type row = "geometry(" +:+ inner +:+ ")" ->
  (string_size (PostgreSQLRow.format_type row) < 18446744073709551616)%N ->
  exists default_type default_value,
    PostgreSQLColumnLister.operator_call_column extract_column_length extract_column_scale row
    = '(type_restriction, reference_system) ←
        PostgreSQLColumnLister.extract_spatial_type_restriction_and_reference_system inner;
      Some (Column.Column (PostgreSQLRow.attname row)
              (String.eqb (PostgreSQLRow.attnotnull row) "f") default_type default_value
              ColumnTypes.SPAT 0 0 ColumnFlags.nothing type_restriction reference_system "").
Proof.
  intros Hformat Hsize. unfold PostgreSQLColumnLister.operator_call_column. cbv zeta.
  destruct (operator_call_default_returns (PostgreSQLRow.format_type row) row)
    as [[default_type default_value] ->].
  exists default_type, default_value. cbn [mbind option_bind].
  rewrite Hformat in *. rewrite substr_geometry_inner by exact Hsize.
  change (substr0 ("geometry(" +:+ inner +:+ ")") 9)
    with (substr0 ("geometry(" +:+ inner +:+ ")") (String.length "geometry(")).
  rewrite substr0_append. string_cbn. reflexivity.
Qed.

(** X24. The type name that [column_type] returns for a spatial column
    is read back by the lister as a spatial column with the same reference
    system, for which [column_type] returns the same name, when the type
    restriction and the reference system are in lower case, the type
    restriction holds no comma and the size of the name fits a [size_t].
    The type restriction comes back as it was, but for the restriction
    geometry with a reference system, which comes back empty. *)
Theorem column_type_read_back_geometry (column : Column.t) (type : string)
    (row : PostgreSQLRow.t) :
  Column.column_type column = ColumnTypes.SPAT ->
  PostgreSQLClient.column_type column = Ok type ->
  PostgreSQLRow.format_type row = type ->
  transform tolower (Column.type_restriction column) = Column.type_restriction column ->
  transform tolower (Column.reference_system column) = Column.reference_system column ->
  contains (Column.type_restriction column) "," = false ->
  (string_size type < 18446744073709551616)%N ->
  exists column',
    PostgreSQLColumnLister.operator_call_column extract_column_length extract_column_scale row
    = Some column' /\
    Column.column_type column' = ColumnTypes.SPAT /\
    Column.type_restriction column' =
      (if (Column.type_restriction column =? "geometry")
          && negb (Column.reference_system column =? "")
       then "" else Column.type_restriction column) /\
    Column.reference_system column' = Column.reference_system column /\
    PostgreSQLClient.column_type column' = Ok type.
Proof.
  destruct column as [name nullable column_type size scale default_type default_value flags
                        type_restriction reference_system enumeration_values db_type_def
                        filter_expression].
  cbn [Column.column_type Column.type_restriction Column.reference_system].
  intros -> Htype Hformat Hlower_type Hlower_reference Hcomma Hsize.
  unfold PostgreSQLClient.column_type in Htype.
  cbn [Column.column_type Column.type_restriction Column.reference_system] in Htype.
  change (ColumnTypes.SPAT =? ColumnTypes.BLOB) with false in Htype.
  change (ColumnTypes.SPAT =? ColumnTypes.TEXT) with false in Htype.
  change (ColumnTypes.SPAT =? ColumnTypes.VCHR) with false in Htype.
  change (ColumnTypes.SPAT =? ColumnTypes.FCHR) with false in Htype.
  change (ColumnTypes.SPAT =? ColumnTypes.UUID) with false in Htype.
  change (ColumnTypes.SPAT =? ColumnTypes.BOOL) with false in Htype.
  change (ColumnTypes.SPAT =? ColumnTypes.SINT) with false in Htype.
  change (ColumnTypes.SPAT =? ColumnTypes.REAL) with false in Htype.
  change (ColumnTypes.SPAT =? ColumnTypes.DECI) with false in Htype.
  change (ColumnTypes.SPAT =? ColumnTypes.DATE) with false in Htype.
  change (ColumnTypes.SPAT =? ColumnTypes.TIME) with false in Htype.
  change (ColumnTypes.SPAT =? ColumnTypes.DTTM) with false in Htype.
  change (ColumnTypes.SPAT =? ColumnTypes.SPAT) with true in Htype.
  cbv iota zeta in Htype.
  destruct (String.eqb_spec reference_system "") as [->|Hreference]; cbn [negb] in Htype;
    [destruct (String.eqb_spec type_restriction "") as [->|Hrestriction]; cbn [negb] in Htype|];
    injection Htype as <-.
  - (* geometry *)
    unfold PostgreSQLColumnLister.operator_call_column. cbv zeta.
    destruct (operator_call_default_returns (PostgreSQLRow.format_type row) row)
      as [[default_type' default_value'] ->].
    rewrite Hformat. eexists. split; [reflexivity|]. repeat split; reflexivity.
  - (* geometry(type_restriction) *)
    destruct (operator_call_column_geometry row type_restriction Hformat)
      as (default_type' & default_value' & ->); [rewrite Hformat; exact Hsize|].
    rewrite extract_spatial_without_comma by assumption. cbn [mbind option_bind].
    eexists. split; [reflexivity|]. rewrite andb_false_r.
    split; [reflexivity|]. split; [reflexivity|]. split; [reflexivity|].
    unfold PostgreSQLClient.column_type, Column.Column.
    cbn [Column.column_type Column.type_restriction Column.reference_system].
    rewrite (proj2 (String.eqb_neq _ _) Hrestriction). reflexivity.
  - (* geometry(type_restriction,reference_system) *)
    cbn [andb negb].
    set (restriction := if type_restriction =? "" then "geometry" else type_restriction) in *.
    assert (Hinner : "geometry" +:+ "(" +:+ restriction +:+ "," +:+ reference_system +:+ ")"
                     = "geometry(" +:+ (restriction +:+ "," +:+ reference_system) +:+ ")").
    { rewrite !string_append_assoc. reflexivity. }
    rewrite Hinner in *.
    destruct (operator_call_column_geometry row _ Hformat)
      as (default_type' & default_value' & ->); [rewrite Hformat; exact Hsize|].
    assert (Hrestriction : restriction <> "").
    { unfold restriction. destruct (String.eqb_spec type_restriction ""); [discriminate | assumption]. }
    rewrite extract_spatial_with_comma; try assumption.
    + cbn [mbind option_bind]. eexists. split; [reflexivity|].
      split; [reflexivity|]. split; [|split; [reflexivity|]].
      * unfold restriction, Column.Column. cbn [Column.type_restriction].
        destruct (String.eqb_spec type_restriction "") as [->|_]; [reflexivity|].
        rewrite andb_true_r. reflexivity.
      * unfold PostgreSQLClient.column_type, Column.Column.
        cbn [Column.column_type Column.type_restriction Column.reference_system].
        rewrite (proj2 (String.eqb_neq _ _) Hreference). rewrite <- Hinner.
        destruct (String.eqb_spec restriction "geometry") as [->|Hgeometry]; [reflexivity|].
        rewrite (proj2 (String.eqb_neq _ _) Hrestriction). reflexivity.
    + unfold restriction. destruct (type_restriction =? ""); [reflexivity | assumption].
    + unfold restriction. destruct (type_restriction =? ""); [reflexivity | assumption].
    + rewrite !string_size_append in *. change (string_size "geometry(") with 9%N in Hsize. lia.
Qed.

End ReadBackGeometry.

Lemma column_type_read_back_geometry_witness :
  exists column',
    PostgreSQLColumnLister.operator_call_column (fun _ => 0%N) (fun _ => 0%N)
      (PostgreSQLRow.mk "location" "geometry(point,4326)" "f" "f" "")
    = Some column' /\
    Column.column_type column' = ColumnTypes.SPAT /\
    Column.type_restriction column' = "point" /\
    Column.reference_system column' = "4326" /\
    PostgreSQLClient.column_type column' = Ok "geometry(point,4326)".
Proof.
  apply (column_type_read_back_geometry (fun _ => 0%N) (fun _ => 0%N)
           (Column.Column "location" false DefaultType.no_default "" ColumnTypes.SPAT 0 0
              ColumnFlags.nothing "point" "4326" "")
           "geometry(point,4326)"
           (PostgreSQLRow.mk "location" "geometry(point,4326)" "f" "f" ""));
    reflexivity.
Defined.
